(** * The retrieval pipeline of ai-doc-intelligence

    A shallow embedding of
      - [backend/services/embeddingService.js]  (class [EmbeddingService]),
      - [backend/services/ragService.js]        (class [RAGService]),
      - [backend/routes/query.js]               (the [POST /api/query] handler),
    and the properties of the specification that concern them; then of
    their other callers,
      - [backend/routes/upload.js]              (the indexing step of the upload),
      - [backend/routes/documents.js]           (the [DELETE /:id] handler),
      - [backend/controllers/aiController.js]   ([queryDocuments]),
      - [backend/routes/health.js], [backend/server.js]  (the Pinecone test),
      - [scripts/reindexAll.js]                 (the loop),
      - [backend/routes/export.js]              (a line of the CSV export),
    and of what the code of all of these shows besides.

    JavaScript numbers that the code computes with ([cosineSimilarity], the
    sort comparator) are IEEE 754 binary64 values: Rocq's primitive [float].
    Counters, sizes and settings ([topK], [chunkSize], indices, lengths) are
    integers: [Z] and [nat].  Strings are sequences of code units: [string]
    (an emoji in a fixed answer is written as its UTF-8 bytes).
    Every [await]ed call to a collaborator (embedding provider, vector index,
    document store, chat completion) goes through an explicit world state and
    leaves an event in a trace; the calls that only the other callers make
    (the document record, the file system, the object store) go through the
    world state and leave no event. *)

From Stdlib Require Import List ZArith Lia Bool Ascii String Floats.
From Stdlib Require Import Permutation Sorted DecimalString DecimalNat.
Import ListNotations.

Local Open Scope Z_scope.

(** ** Outcomes: a JavaScript call returns a value or throws *)

Inductive outcome (A : Type) : Type :=
| Ok (a : A)
| Throw (message : string).
Arguments Ok {A} a.
Arguments Throw {A} message.

Definition is_throw {A} (o : outcome A) : bool :=
  match o with Ok _ => false | Throw _ => true end.

(** ** JavaScript primitives used by the sources *)

Module JS.

(** White space of [String.prototype.trim] among the code units below 256. *)
Definition isWhiteSpace (c : ascii) : bool :=
  let n := N_of_ascii c in
  (((9 <=? n) && (n <=? 13)) || (n =? 32) || (n =? 160))%N.

Fixpoint trimStart (s : string) : string :=
  match s with
  | EmptyString => EmptyString
  | String c s' => if isWhiteSpace c then trimStart s' else s
  end.

(** [trimEnd] keeps a character when it is not white space or when
    something remains after it. *)
Fixpoint trimEnd (s : string) : string :=
  match s with
  | EmptyString => EmptyString
  | String c s' =>
      match trimEnd s' with
      | EmptyString => if isWhiteSpace c then EmptyString else String c EmptyString
      | t => String c t
      end
  end.

Definition trim (s : string) : string := trimEnd (trimStart s).

Definition length (s : string) : Z := Z.of_nat (String.length s).

(** [!text || text.trim().length === 0] for a string [text]. *)
Definition blank (text : string) : bool :=
  match text with
  | EmptyString => true
  | _ => length (trim text) =? 0
  end.

(** Truthiness of a string. *)
Definition truthy (s : string) : bool :=
  match s with EmptyString => false | _ => true end.

(** [s.substring(0, n)] for an integer [n]: a negative [n] counts as 0 and
    an [n] past the end as the length. *)
Definition substring0 (s : string) (n : Z) : string :=
  String.substring 0 (Z.to_nat n) s.

(** [arr.slice(start, end)] for integers: a negative bound counts from the
    end of the array. *)
Definition slice {A} (l : list A) (start stop : Z) : list A :=
  let len := Z.of_nat (List.length l) in
  let k := if start <? 0 then Z.max (len + start) 0 else Z.min start len in
  let final := if stop <? 0 then Z.max (len + stop) 0 else Z.min stop len in
  firstn (Z.to_nat (final - k)) (skipn (Z.to_nat k) l).

(** [arr.join(sep)]. *)
Definition join (sep : string) (l : list string) : string :=
  String.concat sep l.

(** An integer inside a template literal. *)
Definition showNat (n : nat) : string := NilZero.string_of_uint (Nat.to_uint n).

Definition showZ (z : Z) : string := NilZero.string_of_int (Z.to_int z).

(** [Array.prototype.sort(compare)].  ECMAScript requires the sort to be
    stable; the comparator's result counts as "a before b" when negative,
    "b before a" when positive, and as a tie otherwise (zero or NaN).
    Insertion from the right end is the executable model: each element is
    put in front of the already sorted rest, and moves right only past the
    elements the comparator puts strictly before it.  For a comparator that
    is consistent (no score is NaN) this is the one order ECMAScript
    allows.  Where the comparator answers NaN, ECMAScript leaves the order
    to the implementation: the model then gives one permitted order, which
    need not be the one of Node on every input. *)
Section Sort.
Context {A : Type} (compare : A -> A -> float).

Fixpoint insert (x : A) (l : list A) : list A :=
  match l with
  | [] => [x]
  | y :: l' =>
      if (0 <? compare x y)%float then y :: insert x l' else x :: y :: l'
  end.

Definition sort (l : list A) : list A := fold_right insert [] l.
End Sort.

End JS.

(** ** Effects: calls to the collaborators *)

(** What [embedQuery] resolves to.  The library promises [number[]]; the code
    checks [Array.isArray] itself, so the other shapes are kept. *)
Inductive JsEmbedding : Type :=
| JsNull                       (* null *)
| JsUndefined                  (* undefined *)
| JsOther                      (* another value that is no array and has no length *)
| JsArray (values : list float).

Record Metadata : Type := mkMetadata {
  documentId : string;
  chunkIndex : nat;
  text : string
}.

(** A record of the vector index, as [indexDocument] builds it. *)
Record Vector : Type := mkVector {
  id : string;
  values : list float;
  metadata : Metadata
}.

(** Metadata of a match as the index hands it back: every key may be absent. *)
Record MatchMetadata : Type := mkMatchMetadata {
  m_documentId : option string;
  m_chunkIndex : option nat;
  m_text : option string
}.

Record Match : Type := mkMatch {
  match_id : string;
  match_score : float;
  match_metadata : option MatchMetadata
}.

Record QueryResults : Type := mkQueryResults {
  matches : option (list Match)
}.

Record IndexStats : Type := mkIndexStats {
  dimension : option Z;
  totalRecordCount : option Z
}.

Inductive QueryOptions : Type :=
| QueryByVector (vector : JsEmbedding) (topK : Z) (includeMetadata : bool)
                (filter : option string)
| QueryById (id : string) (topK : Z) (includeMetadata : bool).

(** What [queryDocuments] returns for each kept match. *)
Record RetrievalResult : Type := mkRetrievalResult {
  r_id : string;
  r_score : float;
  r_text : string;
  r_metadata : MatchMetadata
}.

(** A stored document, as the query route selects it
    ([originalName textContent vectorIds]). *)
Record Document : Type := mkDocument {
  _id : string;
  originalName : string;
  textContent : option string;
  vectorIds : list string
}.

(** The request sent to [groq.chat.completions.create]. *)
Record CompletionRequest : Type := mkCompletionRequest {
  model : string;
  systemContent : string;
  userContent : string;
  max_tokens : Z;
  temperature : float
}.

(** The document handed to [Conversation.create]. *)
Record NewConversation : Type := mkNewConversation {
  conv_userId : string;
  conv_documentId : string;
  conv_title : string;
  conv_question : string;
  conv_answer : string
}.

Inductive event : Type :=
| EvEmbed (text : string) (r : outcome JsEmbedding)
| EvDescribeIndexStats (r : outcome IndexStats)
| EvUpsert (batch : list Vector) (r : outcome unit)
| EvQuery (options : QueryOptions) (r : outcome QueryResults)
| EvDeleteMany (ids : list string) (r : outcome unit)
| EvSleep (ms : Z)
| EvDocumentFind (userId : string) (byId : option string) (r : outcome (list Document))
| EvChatCompletion (request : CompletionRequest) (r : outcome (list (option string)))
| EvFindByIdAndUpdate (documentId : string) (r : outcome unit)
| EvConversationCreate (conversation : NewConversation) (r : outcome string).

(** The collaborators of the two services, over a world state [W]: the
    text splitter of [@langchain/textsplitters] (a pure function of its two
    options and the text), the embedding client and the Pinecone index. *)
Record Services (W : Type) : Type := mkServices {
  splitText : Z -> Z -> string -> outcome (list string);
  embedQuery : string -> W -> outcome JsEmbedding * W;
  describeIndexStats : W -> outcome IndexStats * W;
  upsert : list Vector -> W -> outcome unit * W;
  query : QueryOptions -> W -> outcome QueryResults * W;
  deleteMany : list string -> W -> outcome unit * W
}.
Arguments splitText {W} _ _ _ _.
Arguments embedQuery {W} _ _ _.
Arguments describeIndexStats {W} _ _.
Arguments upsert {W} _ _ _.
Arguments query {W} _ _ _.
Arguments deleteMany {W} _ _ _.

(** The collaborators of the query route: the document store
    ([Document.find] sorted by upload date, [Document.findByIdAndUpdate],
    [Conversation.create]) and the chat completion client, which answers
    with the message contents of its choices. *)
Record Backend (W : Type) : Type := mkBackend {
  documentFind : string -> option string -> W -> outcome (list Document) * W;
  chatCompletion : CompletionRequest -> W -> outcome (list (option string)) * W;
  findByIdAndUpdate : string -> W -> outcome unit * W;
  conversationCreate : NewConversation -> W -> outcome string * W
}.
Arguments documentFind {W} _ _ _ _.
Arguments chatCompletion {W} _ _ _.
Arguments findByIdAndUpdate {W} _ _ _.
Arguments conversationCreate {W} _ _ _.

(** An asynchronous computation: from a world to an outcome, the next world
    and the events it caused, oldest first. *)
Definition M (W A : Type) : Type := W -> outcome A * W * list event.

Definition ret {W A} (a : A) : M W A := fun w => (Ok a, w, []).

Definition throw {W A} (message : string) : M W A :=
  fun w => (Throw message, w, []).

Definition bind {W A B} (m : M W A) (k : A -> M W B) : M W B :=
  fun w =>
    match m w with
    | (Ok a, w1, t1) => let '(r, w2, t2) := k a w1 in (r, w2, t1 ++ t2)
    | (Throw e, w1, t1) => (Throw e, w1, t1)
    end.

(** [try { m } catch (error) { handler(error.message) }] *)
Definition try_catch {W A} (m : M W A) (handler : string -> M W A) : M W A :=
  fun w =>
    match m w with
    | (Ok a, w1, t1) => (Ok a, w1, t1)
    | (Throw e, w1, t1) => let '(r, w2, t2) := handler e w1 in (r, w2, t1 ++ t2)
    end.

(** An [await]ed call: run it against the world and log it with its answer. *)
Definition call {W A} (f : W -> outcome A * W) (log : outcome A -> event) : M W A :=
  fun w => let '(r, w1) := f w in (r, w1, [log r]).

Definition sleep {W} (ms : Z) : M W unit := fun w => (Ok tt, w, [EvSleep ms]).

Declare Scope js_scope.
Delimit Scope js_scope with js.
Notation "x <- m ;; k" := (bind m (fun x => k))
  (at level 61, m at next level, right associativity) : js_scope.
Notation "m ;;; k" := (bind m (fun _ => k))
  (at level 61, right associativity) : js_scope.

Definition result {W A} (r : outcome A * W * list event) : outcome A := fst (fst r).
Definition world {W A} (r : outcome A * W * list event) : W := snd (fst r).
Definition trace {W A} (r : outcome A * W * list event) : list event := snd r.

Definition is_upsert (e : event) : bool :=
  match e with EvUpsert _ _ => true | _ => false end.

(** ** [class EmbeddingService] (embeddingService.js) *)

Module EmbeddingService.

Local Open Scope js_scope.

Section Embedding.
Context {W : Type} (svc : Services W).

(** [async embedText(text)]  (lines 16-31).  Reading [embedding.length]
    for the log line throws a TypeError when the provider resolved to
    null or undefined; every error is wrapped by the [catch]. *)
Definition embedText (text : string) : M W JsEmbedding :=
  try_catch
    (if JS.blank text then throw "Text cannot be empty"%string
     else
       embedding <- call (embedQuery svc text) (EvEmbed text) ;;
       match embedding with
       | JsNull => throw "Cannot read properties of null (reading 'length')"%string
       | JsUndefined =>
           throw "Cannot read properties of undefined (reading 'length')"%string
       | _ => ret embedding
       end)
    (fun message => throw ("Failed to generate embedding: " ++ message)%string).
End Embedding.

(** The loop of [cosineSimilarity] (lines 66-74): the three accumulators,
    updated index by index. *)
Fixpoint accumulate (vecA vecB : list float) (dotProduct normA normB : float)
  : float * float * float :=
  match vecA, vecB with
  | a :: vecA', b :: vecB' =>
      accumulate vecA' vecB' (dotProduct + a * b)%float (normA + a * a)%float
                 (normB + b * b)%float
  | _, _ => (dotProduct, normA, normB)
  end.

(** [cosineSimilarity(vecA, vecB)]  (lines 61-78). *)
Definition cosineSimilarity (vecA vecB : list float) : outcome float :=
  if negb (Nat.eqb (List.length vecA) (List.length vecB))
  then Throw "Vectors must have the same length"%string
  else
    let '(dotProduct, normA, normB) := accumulate vecA vecB 0%float 0%float 0%float in
    Ok (dotProduct / (sqrt normA * sqrt normB))%float.

(** A candidate of [findSimilar] and a scored result. *)
Record Candidate : Type := mkCandidate {
  c_text : string;
  c_embedding : list float
}.

Record Scored : Type := mkScored {
  s_text : string;
  s_score : float
}.

(** [cosineSimilarity(queryEmbedding, doc.embedding)] with the query
    embedding as [embedText] returned it: a value without a [length]
    differs from every array's length. *)
Definition similarityTo (queryEmbedding : JsEmbedding) (doc : Candidate) : outcome float :=
  match queryEmbedding with
  | JsArray vecA => cosineSimilarity vecA (c_embedding doc)
  | _ => Throw "Vectors must have the same length"%string
  end.

(** [documents.map(doc => ({ text, score }))]: the first throw ends it. *)
Fixpoint scoreAll (queryEmbedding : JsEmbedding) (documents : list Candidate)
  : outcome (list Scored) :=
  match documents with
  | [] => Ok []
  | doc :: rest =>
      match similarityTo queryEmbedding doc with
      | Throw e => Throw e
      | Ok score =>
          match scoreAll queryEmbedding rest with
          | Throw e => Throw e
          | Ok results => Ok (mkScored (c_text doc) score :: results)
          end
      end
  end.

(** The comparator [(a, b) => b.score - a.score]. *)
Definition byScoreDescending (a b : Scored) : float := (s_score b - s_score a)%float.

Section Search.
Context {W : Type} (svc : Services W).

(** [async findSimilar(query, documents, topK = 5)]  (lines 87-107). *)
Definition findSimilar (query : string) (documents : list Candidate) (topK : Z)
  : M W (list Scored) :=
  try_catch
    (queryEmbedding <- embedText svc query ;;
     match scoreAll queryEmbedding documents with
     | Throw e => throw e
     | Ok results => ret (JS.slice (JS.sort byScoreDescending results) 0 topK)
     end)
    (fun message => throw ("Failed to find similar documents: " ++ message)%string).
End Search.

End EmbeddingService.

(** ** [class RAGService] (ragService.js) *)

Module RAGService.

Local Open Scope js_scope.

Definition BATCH_SIZE : nat := 50.

Definition validEmbedding (embedding : JsEmbedding) : bool :=
  match embedding with
  | JsArray (_ :: _) => true
  | _ => false
  end.

Definition embeddingValues (embedding : JsEmbedding) : list float :=
  match embedding with JsArray v => v | _ => [] end.

(** The record pushed for chunk [i]  (lines 228-236). *)
Definition chunkVector (documentId : string) (i : nat) (chunk : string)
           (embedding : JsEmbedding) : Vector :=
  mkVector (documentId ++ "_chunk_" ++ JS.showNat i)%string
           (embeddingValues embedding)
           (mkMetadata documentId i chunk).

(** [m.metadata && m.metadata.text] *)
Definition hasText (m : Match) : bool :=
  match match_metadata m with
  | Some md => match m_text md with Some t => JS.truthy t | None => false end
  | None => false
  end.

Definition toResult (m : Match) : RetrievalResult :=
  match match_metadata m with
  | Some md =>
      mkRetrievalResult (match_id m) (match_score m)
                        (match m_text md with Some t => t | None => EmptyString end) md
  | None =>
      mkRetrievalResult (match_id m) (match_score m) EmptyString
                        (mkMatchMetadata None None None)
  end.

(** [if (documentId) queryOptions.filter = { documentId }] *)
Definition filterFor (documentId : option string) : option string :=
  match documentId with
  | Some d => if JS.truthy d then Some d else None
  | None => None
  end.

Section Methods.
Context {W : Type} (svc : Services W).

(** [async splitDocument(text)]  (lines 161-174): the splitter is built
    with [chunkSize: 500] and [chunkOverlap: 100]; the [catch] rethrows. *)
Definition splitDocument (text : string) : M W (list string) :=
  match splitText svc 500 100 text with
  | Ok chunks => ret chunks
  | Throw e => throw e
  end.

(** The loop of [_batchUpsert]  (lines 177-191), [i] advancing by
    [BATCH_SIZE]; [fuel] bounds the number of iterations. *)
Fixpoint batchLoop (fuel : nat) (vectors : list Vector) (i : nat) : M W unit :=
  match fuel with
  | O => ret tt
  | S fuel' =>
      if (i <? List.length vectors)%nat then
        let batch := JS.slice vectors (Z.of_nat i) (Z.of_nat (i + BATCH_SIZE)) in
        call (upsert svc batch) (EvUpsert batch) ;;;
        sleep 1000 ;;;
        batchLoop fuel' vectors (i + BATCH_SIZE)
      else ret tt
  end.

(** [async _batchUpsert(vectors)]: at most one iteration per vector. *)
Definition _batchUpsert (vectors : list Vector) : M W unit :=
  batchLoop (List.length vectors) vectors 0.

(** The embedding loop of [indexDocument]  (lines 212-241): [i] is the
    index of the head of [chunks], [vectors] the records pushed so far. *)
Fixpoint embedChunks (documentId : string) (chunks : list string) (i : nat)
         (vectors : list Vector) : M W (list Vector) :=
  match chunks with
  | [] => ret vectors
  | chunk :: rest =>
      if JS.blank chunk then embedChunks documentId rest (S i) vectors
      else
        embedding <- call (embedQuery svc chunk) (EvEmbed chunk) ;;
        if negb (validEmbedding embedding)
        then throw ("Invalid embedding for chunk " ++ JS.showNat i)%string
        else embedChunks documentId rest (S i)
                         (vectors ++ [chunkVector documentId i chunk embedding])
  end.

(** The dimension check of [indexDocument]  (lines 257-269): the [throw]
    of a mismatch sits inside the [try] whose [catch] only warns. *)
Definition checkDimension (vectors : list Vector) : M W unit :=
  try_catch
    (stats <- call (describeIndexStats svc) EvDescribeIndexStats ;;
     let expectedDim :=
       match dimension stats with
       | Some d => if d =? 0 then 384 else d
       | None => 384
       end in
     let actualDim :=
       match vectors with
       | v :: _ => Z.of_nat (List.length (values v))
       | [] => 0
       end in
     if negb (actualDim =? expectedDim)
     then throw ("Dimension mismatch: expected " ++ JS.showZ expectedDim
                   ++ ", got " ++ JS.showZ actualDim)%string
     else ret tt)
    (fun _ => ret tt).

(** The verification after the upsert  (lines 280-298): best effort. *)
Definition verifyUpload (vectors : list Vector) : M W unit :=
  try_catch
    (call (describeIndexStats svc) EvDescribeIndexStats ;;;
     let firstId := match vectors with v :: _ => id v | [] => EmptyString end in
     let options := QueryById firstId 1 true in
     call (query svc options) (EvQuery options) ;;;
     ret tt)
    (fun _ => ret tt).

(** What [indexDocument] does with the vectors once the loop has built
    them  (lines 243-301). *)
Definition commitVectors (vectors : list Vector) : M W (list string) :=
  match vectors with
  | [] => throw "No vectors created"%string
  | _ =>
      checkDimension vectors ;;;
      _batchUpsert vectors ;;;
      sleep 3000 ;;;
      verifyUpload vectors ;;;
      ret (map id vectors)
  end.

(** [async indexDocument(documentId, text)]  (lines 194-307); the outer
    [catch] rethrows. *)
Definition indexDocument (documentId text : string) : M W (list string) :=
  if JS.blank text then throw "Empty document text"%string
  else
    chunks <- splitDocument text ;;
    match chunks with
    | [] => throw "No chunks created"%string
    | _ =>
        vectors <- embedChunks documentId chunks 0 [] ;;
        commitVectors vectors
    end.

(** The statistics read for the log when nothing matched
    (lines 345-357). *)
Definition logIndexStats : M W unit :=
  try_catch
    (call (describeIndexStats svc) EvDescribeIndexStats ;;; ret tt)
    (fun _ => ret tt).

(** [async queryDocuments(question, documentId = null, topK = 3)]
    (lines 310-384); the outer [catch] rethrows.  Reading
    [queryEmbedding.length] for the log line throws when the provider
    resolved to null or undefined. *)
Definition queryDocuments (question : string) (documentId : option string) (topK : Z)
  : M W (list RetrievalResult) :=
  if JS.blank question then ret []
  else
    queryEmbedding <- call (embedQuery svc question) (EvEmbed question) ;;
    match queryEmbedding with
    | JsNull => throw "Cannot read properties of null (reading 'length')"%string
    | JsUndefined => throw "Cannot read properties of undefined (reading 'length')"%string
    | _ =>
        let queryOptions :=
          QueryByVector queryEmbedding (Z.max topK 10) true (filterFor documentId) in
        results <- call (query svc queryOptions) (EvQuery queryOptions) ;;
        match matches results with
        | None | Some [] => logIndexStats ;;; ret []
        | Some ms =>
            let texts := map toResult (filter hasText ms) in
            ret (JS.slice texts 0 topK)
        end
    end.

(** [async deleteDocument(vectorIds)]  (lines 386-401); [None] stands
    for null and undefined.  The [catch] rethrows. *)
Definition deleteDocument (vectorIds : option (list string)) : M W unit :=
  match vectorIds with
  | None | Some [] => ret tt
  | Some ids => call (deleteMany svc ids) (EvDeleteMany ids)
  end.

(** [async healthCheck()]  (lines 403-422).  Reading [testEmbed.length]
    for the log line throws when the provider resolved to null or
    undefined; the [catch] answers [false]. *)
Definition healthCheck : M W bool :=
  try_catch
    (testEmbed <- call (embedQuery svc "test") (EvEmbed "test") ;;
     match testEmbed with
     | JsNull => throw "Cannot read properties of null (reading 'length')"%string
     | JsUndefined => throw "Cannot read properties of undefined (reading 'length')"%string
     | _ =>
         call (describeIndexStats svc) EvDescribeIndexStats ;;;
         ret true
     end)
    (fun _ => ret false).
End Methods.

End RAGService.

(** ** The [POST /api/query] handler (routes/query.js) *)

Module QueryRoute.

Local Open Scope js_scope.

Record Settings : Type := mkSettings {
  aiModel : option string;
  s_temperature : option float;
  maxTokens : option Z;
  topK : option Z;
  chunkSize : option Z
}.

(** [req.body.question], as the check of line 175 tells the values
    apart: a string; a value that is no string and falsy ([undefined],
    [null], [0], [false]); a value that is no string and truthy (a number
    other than 0, [true], an array, an object), which has no method
    [trim]. *)
Inductive Question : Type :=
| QFalsy
| QString (q : string)
| QTruthy.

(** [req.body] and the user that [protect] attached to the request. *)
Record Request : Type := mkRequest {
  userId : string;
  question : Question;
  req_documentId : option string;
  settings : option Settings
}.

(** The settings after the defaults of the destructuring (lines 167-173). *)
Record SettingsUsed : Type := mkSettingsUsed {
  u_aiModel : string;
  u_temperature : float;
  u_maxTokens : Z;
  u_topK : Z;
  u_chunkSize : Z
}.

Definition orDefault {A} (o : option A) (d : A) : A :=
  match o with Some a => a | None => d end.

(** 0.7 as a binary64 number. *)
Definition defaultTemperature : float := 0x1.6666666666666p-1%float.

Definition settingsUsed (req : Request) : SettingsUsed :=
  let s := orDefault (settings req) (mkSettings None None None None None) in
  mkSettingsUsed (orDefault (aiModel s) "llama-3.3-70b-versatile"%string)
                 (orDefault (s_temperature s) defaultTemperature)
                 (orDefault (maxTokens s) 2000)
                 (orDefault (topK s) 3)
                 (orDefault (chunkSize s) 1000).

Record Source : Type := mkSource {
  src_text : string;
  src_score : float;
  src_documentName : option string
}.

Inductive Response : Type :=
| BadRequest (message : string)                       (* 400, success: false *)
| NoAnswer (message answer : string)                  (* 200, success: false *)
| Answered (answer : string) (sources : list Source)
           (conversationId : option string) (method : string)
           (documentsSearched : nat) (documentNames : list string)
           (used : SettingsUsed)                      (* 200, success: true *)
| ServerError (message answer : string).              (* 500, success: false *)

Definition success (r : Response) : bool :=
  match r with Answered _ _ _ _ _ _ _ => true | _ => false end.

Definition status (r : Response) : Z :=
  match r with BadRequest _ => 400 | ServerError _ _ => 500 | _ => 200 end.

Definition method (r : Response) : option string :=
  match r with Answered _ _ _ m _ _ _ => Some m | _ => None end.

Definition nl : string := String (ascii_of_nat 10) EmptyString.

(** The delimiter ["\n\n---\n\n"]. *)
Definition delimiter : string := (nl ++ nl ++ "---" ++ nl ++ nl)%string.

(** [documentId && documentId !== 'all'] *)
Definition specific (documentId : option string) : option string :=
  match documentId with
  | Some d => if JS.truthy d && negb (String.eqb d "all") then Some d else None
  | None => None
  end.

(** [d.textContent && d.textContent.trim().length > 0] *)
Definition hasTextContent (d : Document) : bool :=
  match textContent d with
  | Some t => JS.truthy t && (0 <? JS.length (JS.trim t))
  | None => false
  end.

Definition textOf (d : Document) : string := orDefault (textContent d) EmptyString.

Definition systemInstruction : string :=
  ("You are a helpful AI assistant. Answer questions based ONLY on the provided document content. "
     ++ nl ++ "If the answer is not in the document, clearly state that you cannot find that information."
     ++ nl ++ "Be concise and accurate. Do not make up information.")%string.

(** The user message of the completion (line 290). *)
Definition userPrompt (context question : string) : string :=
  ("Document Content:" ++ nl ++ nl ++ context ++ nl ++ nl ++ "---" ++ nl ++ nl
     ++ "Question: " ++ question ++ nl ++ nl ++ "Answer:")%string.

(** The context of the vector path (lines 235-242). *)
Definition vectorContext (topChunks : list RetrievalResult) (chunkSize topK : Z) : string :=
  let context := JS.join delimiter (map r_text topChunks) in
  let maxContextLength := chunkSize * topK in
  if maxContextLength <? JS.length context
  then JS.substring0 context maxContextLength
  else context.

Definition sourceOf (documents : list Document) (chunk : RetrievalResult) : Source :=
  mkSource (JS.substring0 (r_text chunk) 300 ++ "...")%string (r_score chunk)
           (match documents with d :: _ => Some (originalName d) | [] => None end).

(** The direct-text context (lines 261-272). *)
Definition directContext (documentId : option string) (docsWithText : list Document)
           (chunkSize topK : Z) : string :=
  match specific documentId with
  | Some _ =>
      match docsWithText with
      | doc :: _ => JS.substring0 (textOf doc) (chunkSize * topK)
      | [] => EmptyString
      end
  | None =>
      JS.substring0
        (JS.join delimiter
           (map (fun d => ("[" ++ originalName d ++ "]" ++ nl ++ textOf d)%string) docsWithText))
        (chunkSize * topK)
  end.

Section Handler.
Context {W : Type} (svc : Services W) (db : Backend W).

(** The vector search of the handler (lines 223-255): the values of
    [context], [sources] and [usedRAG] after the [try]. *)
Definition ragSearch (question : string) (documentId : option string)
           (documents : list Document) (chunkSize topK : Z)
  : M W (string * list Source * bool) :=
  try_catch
    (match specific documentId with
     | Some d =>
         chunks <- RAGService.queryDocuments svc question (Some d) topK ;;
         match chunks with
         | [] => ret (EmptyString, [], false)
         | _ =>
             let topChunks := JS.slice chunks 0 topK in
             ret (vectorContext topChunks chunkSize topK,
                  map (sourceOf documents) topChunks, true)
         end
     | None => ret (EmptyString, [], false)
     end)
    (fun _ => ret (EmptyString, [], false)).

(** The value of [context] handed to the completion: the fallback
    (line 258) replaces it when the vector search was not used or left
    it empty. *)
Definition finalContext (searched : string * list Source * bool)
           (documentId : option string) (docsWithText : list Document)
           (chunkSize topK : Z) : string :=
  let '(context, _, usedRAG) := searched in
  if negb usedRAG || negb (JS.truthy context)
  then directContext documentId docsWithText chunkSize topK
  else context.

(** [completion.choices[0].message.content.trim()] *)
Definition firstContent (choices : list (option string)) : M W string :=
  match choices with
  | Some content :: _ => ret (JS.trim content)
  | None :: _ => throw "Cannot read properties of null (reading 'trim')"%string
  | [] => throw "Cannot read properties of undefined (reading 'message')"%string
  end.

(** The conversation saved after the answer (lines 310-332). *)
Definition saveConversation (req : Request) (q : string) (documents : list Document)
           (answer : string) : M W (option string) :=
  try_catch
    (match specific (req_documentId req), documents with
     | Some _, d :: _ =>
         let title :=
           if 60 <? JS.length q then (JS.substring0 q 60 ++ "...")%string else q in
         let conversation := mkNewConversation (userId req) (_id d) title q answer in
         newId <- call (conversationCreate db conversation) (EvConversationCreate conversation) ;;
         ret (Some newId)
     | _, _ => ret None
     end)
    (fun _ => ret None).

(** What follows the check of the question (lines 182-343). *)
Definition answerQuestion (req : Request) (q : string) : M W Response :=
  let used := settingsUsed req in
  let byId := specific (req_documentId req) in
  documents <- call (documentFind db (userId req) byId) (EvDocumentFind (userId req) byId) ;;
  match documents with
  | [] =>
      ret (NoAnswer "No documents found. Please upload documents first."
                    "📚 No documents found in your library.")
  | _ =>
      let docsWithText := filter hasTextContent documents in
      match docsWithText with
      | [] =>
          ret (NoAnswer "Documents are still being processed. Please wait a moment."
                        "⏳ Your documents are being processed. Please try again in a few seconds.")
      | _ =>
          searched <- ragSearch q (req_documentId req) documents
                                (u_chunkSize used) (u_topK used) ;;
          let context :=
            finalContext searched (req_documentId req) docsWithText
                         (u_chunkSize used) (u_topK used) in
          let request :=
            mkCompletionRequest (u_aiModel used) systemInstruction
                                (userPrompt context q) (u_maxTokens used)
                                (u_temperature used) in
          choices <- call (chatCompletion db request) (EvChatCompletion request) ;;
          answer <- firstContent choices ;;
          match byId with
          | Some d => call (findByIdAndUpdate db d) (EvFindByIdAndUpdate d)
          | None => ret tt
          end ;;;
          conversationId <- saveConversation req q documents answer ;;
          ret (Answered answer (snd (fst searched)) conversationId
                        (if snd searched then "vector" else "direct")%string
                        (List.length docsWithText)
                        (map originalName docsWithText) used)
      end
  end.

(** [router.post('/', protect, async (req, res) => ...)]
    (lines 162-353).  The check [!question || !question.trim()] of line
    175 calls [trim] on every truthy question: on one that is no string
    this throws inside the [try].  The emoji that lead three of the
    answers are written as their UTF-8 bytes. *)
Definition postQuery (req : Request) : M W Response :=
  try_catch
    (match question req with
     | QFalsy => ret (BadRequest "Question is required")
     | QString q =>
         if JS.blank q then ret (BadRequest "Question is required")
         else answerQuestion req q
     | QTruthy => throw "question.trim is not a function"%string
     end)
    (fun message =>
       ret (ServerError
              (if JS.truthy message then message else "Failed to process query"%string)
              "❌ Sorry, an error occurred while processing your question.")).
End Handler.

End QueryRoute.

(** ** The other callers of the services *)

(** An [await]ed call of a collaborator other than the services and the
    backend of the query route (the document record, the file system, the
    object store): it acts on the world and may throw; the trace keeps no
    event of it. *)
Definition quiet {W A} (f : W -> outcome A * W) : M W A :=
  fun w => let '(r, w1) := f w in (r, w1, []).

(** *** The Pinecone test of the two [GET /api/health] handlers *)

Module HealthRoute.

Local Open Scope js_scope.

Section Handlers.
Context {W : Type} (svc : Services W).

(** routes/health.js (lines 46-53): the value left in
    [health.services.pinecone], the service being loaded.  What
    [healthCheck] resolves to is not read. *)
Definition pineconeStatus : M W string :=
  try_catch
    (RAGService.healthCheck svc ;;; ret "connected"%string)
    (fun message => ret ("error: " ++ message)%string).

(** server.js (lines 96-103). *)
Definition serverPineconeStatus : M W string :=
  try_catch
    (pineconeHealthy <- RAGService.healthCheck svc ;;
     ret (if pineconeHealthy then "connected" else "error")%string)
    (fun message => ret ("error: " ++ message)%string).
End Handlers.

End HealthRoute.

(** *** Step 4 of [POST /upload] (routes/upload.js) *)

Module UploadRoute.

Local Open Scope js_scope.

(** The locals that step 4 (lines 64-109) leaves behind: [indexingSuccess],
    the [vectorIds] of the document object ([[]] on the record that
    [Document.create] returned) and [indexingError]. *)
Record Indexing : Type := mkIndexing {
  indexingSuccess : bool;
  document_vectorIds : list string;
  indexingError : option string
}.

(** The fields of the 201 response (lines 112-129) that depend on the text
    and on step 4. *)
Record Uploaded : Type := mkUploaded {
  message : string;
  hasText : bool;
  textLength : Z;
  isIndexed : bool;
  vectorCount : Z;
  reportedError : option string
}.

Definition uploaded (textContent : string) (i : Indexing) : Uploaded :=
  mkUploaded
    (if indexingSuccess i then "Document uploaded and indexed successfully"
     else "Document uploaded (indexing pending)")%string
    (0 <? JS.length textContent)
    (JS.length textContent)
    (indexingSuccess i)
    (Z.of_nat (List.length (document_vectorIds i)))
    (indexingError i).

Section Handler.
Context {W : Type} (svc : Services W).

(** [document.save()] of the document [documentId] with its [vectorIds]
    set. *)
Context (save : string -> list string -> W -> outcome unit * W).

(** Step 4 (lines 64-109), for the id of the created document as a string
    and the extracted text.  The one [catch] of the source is written once
    per state of the locals it can be entered with: before
    [document.vectorIds] is assigned, after the assignment, and after
    [indexingSuccess] is set. *)
Definition indexUploaded (documentId textContent : string) : M W Indexing :=
  if JS.truthy textContent && (50 <? JS.length (JS.trim textContent)) then
    try_catch
      (vectorIds <- RAGService.indexDocument svc documentId textContent ;;
       match vectorIds with
       | [] => throw "No vectors created"%string
       | _ =>
           try_catch
             (quiet (save documentId vectorIds) ;;;
              try_catch
                (RAGService.queryDocuments svc "test query" (Some documentId) 1 ;;;
                 ret (mkIndexing true vectorIds None))
                (fun message => ret (mkIndexing true vectorIds (Some message))))
             (fun message => ret (mkIndexing false vectorIds (Some message)))
       end)
      (fun message => ret (mkIndexing false [] (Some message)))
  else ret (mkIndexing false [] (Some "Text too short for indexing"%string)).

(** Steps 4 and 5: what the route answers once the document is created. *)
Definition indexAndRespond (documentId textContent : string) : M W Uploaded :=
  i <- indexUploaded documentId textContent ;;
  ret (uploaded textContent i).
End Handler.

End UploadRoute.

(** *** [DELETE /api/documents/:id] (routes/documents.js) *)

Module DocumentsRoute.

Local Open Scope js_scope.

(** What the route reads of the document it found. *)
Record Found : Type := mkFound {
  found_id : string;
  filepath : string;
  s3Key : option string;
  found_vectorIds : option (list string)
}.

(** [Document.findOne], [fs.unlink], [s3.deleteObject] and
    [Document.deleteOne]. *)
Record Storage (W : Type) : Type := mkStorage {
  findOne : string -> string -> W -> outcome (option Found) * W;
  unlink : string -> W -> outcome unit * W;
  deleteObject : string -> W -> outcome unit * W;
  deleteOne : string -> W -> outcome unit * W
}.
Arguments findOne {W} _ _ _ _.
Arguments unlink {W} _ _ _.
Arguments deleteObject {W} _ _ _.
Arguments deleteOne {W} _ _ _.

Inductive Response : Type :=
| NotFound        (* 404, 'Document not found' *)
| Deleted         (* 200, 'Document deleted successfully' *)
| Failed.         (* 500, 'Failed to delete document' *)

Section Handler.
Context {W : Type} (svc : Services W) (st : Storage W).

(** [router.delete('/:id', protect, async (req, res) => ...)]
    (lines 391-454), for [req.params.id] and [req.user._id]. *)
Definition deleteRoute (id userId : string) : M W Response :=
  try_catch
    (document <- quiet (findOne st id userId) ;;
     match document with
     | None => ret NotFound
     | Some document =>
         try_catch (quiet (unlink st (filepath document))) (fun _ => ret tt) ;;;
         match s3Key document with
         | Some key =>
             if JS.truthy key
             then try_catch (quiet (deleteObject st key)) (fun _ => ret tt)
             else ret tt
         | None => ret tt
         end ;;;
         match found_vectorIds document with
         | Some (_ :: _) =>
             try_catch (RAGService.deleteDocument svc (found_vectorIds document))
                       (fun _ => ret tt)
         | _ => ret tt
         end ;;;
         quiet (deleteOne st (found_id document)) ;;;
         ret Deleted
     end)
    (fun _ => ret Failed).
End Handler.

End DocumentsRoute.

(** *** The loop of [scripts/reindexAll.js] *)

Module ReindexAll.

Local Open Scope js_scope.

Section Script.
Context {W : Type} (svc : Services W).

(** [for (const doc of docs) { try { ... indexDocument ... } catch (e)
    { ... } }]  (lines 12-19).  A document without a text is handed to
    [indexDocument] as [undefined], which it rejects like the empty
    text. *)
Fixpoint indexAll (docs : list Document) : M W unit :=
  match docs with
  | [] => ret tt
  | doc :: rest =>
      try_catch
        (RAGService.indexDocument svc (_id doc) (QueryRoute.textOf doc) ;;; ret tt)
        (fun _ => ret tt) ;;;
      indexAll rest
  end.
End Script.

End ReindexAll.

(** *** [exports.queryDocuments] (controllers/aiController.js) *)

Module AiController.

Local Open Scope js_scope.

(** [req.body]; a question that is no string counts as a missing one. *)
Record Request : Type := mkRequest {
  question : option string;
  documentId : option string
}.

Record Source : Type := mkSource {
  source_text : string;
  source_score : float;
  source_documentName : string
}.

Record Searched : Type := mkSearched {
  searched_id : string;
  searched_name : string;
  searched_chunksFound : nat
}.

Inductive Response : Type :=
| BadRequest                          (* 400, 'Question is required' *)
| NoDocuments (question : string)     (* 200, no document is stored *)
| Processing (question : string)      (* 200, no document has vectors *)
| NothingFound (question : string)    (* 200, 'No relevant information found.' *)
| Answered (question answer : string) (sources : list Source) (chunksFound : nat)
           (documentsSearched : list Searched)
| QueryFailed (message : string).     (* 500, 'Query failed' *)

(** [Document.countDocuments()], [Document.countDocuments({ vectorIds:
    { $exists: true, $ne: [] } })] and [Document.find({ _id: { $in:
    documentIds } })]. *)
Record Store (W : Type) : Type := mkStore {
  countDocuments : W -> outcome Z * W;
  countProcessed : W -> outcome Z * W;
  findByIds : list string -> W -> outcome (list Document) * W
}.
Arguments countDocuments {W} _ _.
Arguments countProcessed {W} _ _.
Arguments findByIds {W} _ _ _.

(** [chunk.metadata?.documentId || 'unknown'] *)
Definition docIdOf (chunk : RetrievalResult) : string :=
  match m_documentId (r_metadata chunk) with
  | Some d => if JS.truthy d then d else "unknown"%string
  | None => "unknown"%string
  end.

(** [chunksByDocument], a [Map]: the keys in the order of their first
    insertion, each with its chunks in the order pushed. *)
Fixpoint push (docId : string) (chunk : RetrievalResult)
         (groups : list (string * list RetrievalResult))
  : list (string * list RetrievalResult) :=
  match groups with
  | [] => [(docId, [chunk])]
  | (key, chunks) :: rest =>
      if String.eqb key docId then (key, chunks ++ [chunk]) :: rest
      else (key, chunks) :: push docId chunk rest
  end.

Definition chunksByDocument (relevantChunks : list RetrievalResult)
  : list (string * list RetrievalResult) :=
  fold_left (fun groups chunk => push (docIdOf chunk) chunk groups) relevantChunks [].

(** [id !== 'unknown'] *)
Definition known (docId : string) : bool := negb (String.eqb docId "unknown").

(** [docMap.get(key)] for the map built from [documents]: of two
    documents with one id the later one is kept; no document is stored
    under [undefined]. *)
Definition docMapGet (documents : list Document) (key : option string) : option Document :=
  match key with
  | Some k => find (fun d => String.eqb (_id d) k) (rev documents)
  | None => None
  end.

(** [doc?.originalName || fallback] *)
Definition nameOr (doc : option Document) (fallback : string) : string :=
  match doc with
  | Some d => if JS.truthy (originalName d) then originalName d else fallback
  | None => fallback
  end.

(** 0.1 as a binary64 number. *)
Definition threshold : float := 0x1.999999999999ap-4%float.

(** The chunks handed to the model (lines 73-78). *)
Definition topChunksOf (relevantChunks : list RetrievalResult) : list RetrievalResult :=
  let highConfidenceChunks :=
    filter (fun chunk => (threshold <=? r_score chunk)%float) relevantChunks in
  let highConfidenceChunks :=
    match highConfidenceChunks with
    | [] => JS.slice relevantChunks 0 3
    | _ => highConfidenceChunks
    end in
  JS.slice highConfidenceChunks 0 5.

(** The context of the completion (lines 81-85). *)
Definition contextOf (documents : list Document) (topChunks : list RetrievalResult) : string :=
  JS.join QueryRoute.delimiter
    (map (fun chunk =>
            ("[" ++ nameOr (docMapGet documents (m_documentId (r_metadata chunk))) "Document"
                 ++ "]" ++ QueryRoute.nl ++ r_text chunk)%string)
         topChunks).

(** 0.6 as a binary64 number. *)
Definition temperature06 : float := 0x1.3333333333333p-1%float.

(** The request sent to the model (lines 92-106). *)
Definition completionRequest (context question : string) : CompletionRequest :=
  mkCompletionRequest
    "llama-3.3-70b-versatile"
    "You are a helpful assistant. Answer questions using ONLY the provided context. Be concise and natural."
    ("Context:" ++ QueryRoute.nl ++ context ++ QueryRoute.nl ++ QueryRoute.nl
       ++ "Question: " ++ question ++ QueryRoute.nl ++ QueryRoute.nl ++ "Answer:")%string
    400 temperature06.

(** The numbered excerpts of the answer built when the model failed
    (lines 113-116); [idx] is the index of the head of [chunks]. *)
Fixpoint excerpts (idx : nat) (chunks : list RetrievalResult) : string :=
  match chunks with
  | [] => EmptyString
  | chunk :: rest =>
      (JS.showNat (idx + 1) ++ ". " ++ JS.substring0 (r_text chunk) 200 ++ "..."
         ++ QueryRoute.nl ++ QueryRoute.nl ++ excerpts (S idx) rest)%string
  end.

(** The answer of the [catch] (lines 113-116). *)
Definition fallbackAnswer (topChunks : list RetrievalResult) : string :=
  ("Based on your documents:" ++ QueryRoute.nl ++ QueryRoute.nl
     ++ excerpts 0 (JS.slice topChunks 0 3))%string.

(** A source of the response (lines 133-140). *)
Definition sourceOf (documents : list Document) (c : RetrievalResult) : Source :=
  mkSource (JS.substring0 (r_text c) 300 ++ "...")%string (r_score c)
           (nameOr (docMapGet documents (m_documentId (r_metadata c))) "Unknown").

(** [documentsSearched] (lines 119-128). *)
Definition documentsSearchedOf (documents : list Document)
           (groups : list (string * list RetrievalResult)) : list Searched :=
  map (fun entry =>
         mkSearched (fst entry) (nameOr (docMapGet documents (Some (fst entry))) "Unknown")
                    (List.length (snd entry)))
      (filter (fun entry => known (fst entry)) groups).

Section Handler.
Context {W : Type} (svc : Services W) (db : Backend W) (st : Store W).

(** The answer of the model, or the excerpts when asking it failed
    (lines 90-117). *)
Definition generate (context question : string) (topChunks : list RetrievalResult)
  : M W string :=
  try_catch
    (let request := completionRequest context question in
     choices <- call (chatCompletion db request) (EvChatCompletion request) ;;
     QueryRoute.firstContent choices)
    (fun _ => ret (fallbackAnswer topChunks)).

(** [exports.queryDocuments = async (req, res) => ...]  (lines 10-152).
    The retrieval is called without a [topK], which is then 3. *)
Definition queryDocuments (req : Request) : M W Response :=
  try_catch
    (match question req with
     | None => ret BadRequest
     | Some q =>
         if JS.blank q then ret BadRequest
         else
           docCount <- quiet (countDocuments st) ;;
           if docCount =? 0 then ret (NoDocuments q)
           else
             processedDocs <- quiet (countProcessed st) ;;
             if processedDocs =? 0 then ret (Processing q)
             else
               relevantChunks <- RAGService.queryDocuments svc q (documentId req) 3 ;;
               match relevantChunks with
               | [] => ret (NothingFound q)
               | _ =>
                   let groups := chunksByDocument relevantChunks in
                   let documentIds := filter known (map fst groups) in
                   documents <- quiet (findByIds st documentIds) ;;
                   let topChunks := topChunksOf relevantChunks in
                   let context := contextOf documents topChunks in
                   answer <- generate context q topChunks ;;
                   ret (Answered q answer (map (sourceOf documents) topChunks)
                                 (List.length relevantChunks)
                                 (documentsSearchedOf documents groups))
               end
     end)
    (fun message => ret (QueryFailed message)).
End Handler.

End AiController.

(** *** The CSV export of a conversation (routes/export.js) *)

Module ExportRoute.

Definition quote : ascii := ascii_of_nat 34.
Definition lineFeed : ascii := ascii_of_nat 10.
Definition space : ascii := ascii_of_nat 32.

(** [s.replace(re, replacement)] for a global pattern [re] that matches
    the one character [c]. *)
Fixpoint replaceAll (c : ascii) (replacement : string) (s : string) : string :=
  match s with
  | EmptyString => EmptyString
  | String x s' =>
      if Ascii.eqb x c then (replacement ++ replaceAll c replacement s')%string
      else String x (replaceAll c replacement s')
  end.

(** The content column of a message (line 470): [msg.content || ''],
    every double quote replaced by two, then every line feed by a
    space. *)
Definition csvContent (content : option string) : string :=
  replaceAll lineFeed (String space EmptyString)
    (replaceAll quote (String quote (String quote EmptyString))
       (match content with Some c => c | None => EmptyString end)).

(** The line of a message (line 472), for its content and the text of
    its timestamp. *)
Definition csvLine (role : string) (content : option string) (timestamp : string) : string :=
  (String quote role ++ String quote (String "," (String quote (csvContent content)))
     ++ String quote (String "," (String quote timestamp))
     ++ String quote (String lineFeed EmptyString))%string.

End ExportRoute.

(** ** The text splitter *)

Module TextChunker.

(** A chunk with the span of the source text it covers. *)
Record Chunk : Type := mkChunk {
  charStart : nat;
  charLength : nat;
  chunkText : string
}.

(** Modelled from the spec: the windows of the sliding split of section
    4.1 from [start] on: a window of at most [chunkSize] characters, and
    the next one [stride] characters later unless this one reached the end
    of the text. *)
Fixpoint windows (fuel : nat) (text : string) (start chunkSize stride : nat)
  : list Chunk :=
  match fuel with
  | O => []
  | S fuel' =>
      let piece := String.substring start chunkSize text in
      let chunk := mkChunk start (String.length piece) piece in
      if (String.length text <=? start + chunkSize)%nat then [chunk]
      else chunk :: windows fuel' text (start + stride) chunkSize stride
  end.

(** Modelled from the spec: the text splitter, which the repository takes
    from [@langchain/textsplitters] ([RecursiveCharacterTextSplitter]) and
    which is not part of its sources.  Section 4.1: [0 <= overlap <
    chunkSize] or a configuration error; chunks of at most [chunkSize]
    characters, each after the first starting [chunkSize - overlap]
    characters after the start of the previous one; a hard character cut
    where the window holds no natural breakpoint (the preference for
    paragraph, sentence and word boundaries is not modelled); a text
    shorter than [chunkSize] gives one chunk, the trimmed text. *)
Definition split (text : string) (chunkSize overlap : Z) : outcome (list Chunk) :=
  if negb ((0 <=? overlap) && (overlap <? chunkSize))
  then Throw "chunkOverlap must be smaller than chunkSize"%string
  else if JS.length text <? chunkSize then
    let trimmed := JS.trim text in
    Ok [mkChunk (String.length text - String.length (JS.trimStart text))
                (String.length trimmed) trimmed]
  else
    Ok (windows (String.length text) text 0 (Z.to_nat chunkSize)
                (Z.to_nat (chunkSize - overlap))).

(** [new RecursiveCharacterTextSplitter({ chunkSize, chunkOverlap })
    .splitText(text)] over that splitter. *)
Definition splitText (chunkSize chunkOverlap : Z) (text : string) : outcome (list string) :=
  match split text chunkSize chunkOverlap with
  | Ok chunks => Ok (map chunkText chunks)
  | Throw e => Throw e
  end.

Fixpoint repeat (c : ascii) (n : nat) : string :=
  match n with
  | O => EmptyString
  | S n' => String c (repeat c n')
  end.

End TextChunker.

(** ** An in-memory vector index, for running the services *)

Module Memory.

(** The world is the content of the index. *)
Definition World : Type := list Vector.

Definition sameId (i : string) (v : Vector) : bool := String.eqb (id v) i.

(** [upsert] overwrites by id. *)
Definition put (w : World) (v : Vector) : World :=
  filter (fun old => negb (sameId (id v) old)) w ++ [v].

Definition removeAll (ids : list string) (w : World) : World :=
  filter (fun v => negb (existsb (fun i => sameId i v) ids)) w.

Definition asMatch (score : float) (v : Vector) : Match :=
  mkMatch (id v) score
          (Some (mkMatchMetadata (Some (documentId (metadata v)))
                                 (Some (chunkIndex (metadata v)))
                                 (Some (text (metadata v))))).

Definition scoreOf (vector : JsEmbedding) (v : Vector) : float :=
  match vector with
  | JsArray q =>
      match EmbeddingService.cosineSimilarity q (values v) with
      | Ok s => s
      | Throw _ => 0%float
      end
  | _ => 0%float
  end.

Definition inDocument (filter : option string) (v : Vector) : bool :=
  match filter with
  | Some d => String.eqb (documentId (metadata v)) d
  | None => true
  end.

Definition answer (options : QueryOptions) (w : World) : list Match :=
  match options with
  | QueryByVector vector topK _ filterBy =>
      JS.slice
        (JS.sort (fun a b => (match_score b - match_score a)%float)
                 (map (fun v => asMatch (scoreOf vector v) v) (filter (inDocument filterBy) w)))
        0 topK
  | QueryById i topK _ =>
      JS.slice (map (asMatch 1%float) (filter (sameId i) w)) 0 topK
  end.

(** An index of dimension [dim] that accepts whatever it is sent, behind
    the embedding function [embed] and the splitter of [TextChunker]. *)
Definition services (dim : Z) (embed : string -> outcome JsEmbedding) : Services World :=
  mkServices World
    TextChunker.splitText
    (fun text w => (embed text, w))
    (fun w => (Ok (mkIndexStats (Some dim) (Some (Z.of_nat (List.length w)))), w))
    (fun batch w => (Ok tt, fold_left put batch w))
    (fun options w => (Ok (mkQueryResults (Some (answer options w))), w))
    (fun ids w => (Ok tt, removeAll ids w)).

(** A store of two documents and a completion client that echoes. *)
Definition backend (documents : list Document) : Backend World :=
  mkBackend World
    (fun _ byId w =>
       (Ok (match byId with
            | Some d => filter (fun doc => String.eqb (_id doc) d) documents
            | None => documents
            end), w))
    (fun request w => (Ok [Some (userContent request)], w))
    (fun _ w => (Ok tt, w))
    (fun _ w => (Ok "conversation-1"%string, w)).

End Memory.

(** * The vocabulary of the properties *)

(** ** Traces *)

Definition is_embed (e : event) : bool :=
  match e with EvEmbed _ _ => true | _ => false end.

Definition notUpsert (e : event) : Prop := is_upsert e = false.
Definition notEmbed (e : event) : Prop := is_embed e = false.

Definition noUpsert (t : list event) : Prop := Forall notUpsert t.
Definition noEmbed (t : list event) : Prop := Forall notEmbed t.

(** Every event of every run of [m] satisfies [P]. *)
Definition every {W : Type} (P : event -> Prop) {A : Type} (m : M W A) : Prop :=
  forall w, Forall P (trace (m w)).

(** An embedding call failed: it threw, or what it resolved to is not a
    non-empty array. *)
Definition embedFailed (r : outcome JsEmbedding) : bool :=
  match r with
  | Throw _ => true
  | Ok embedding => negb (RAGService.validEmbedding embedding)
  end.

(** ** Retrieval results and the context budget *)








(** A line feed. *)
Definition newline : string := String "010"%char EmptyString.

(** The user message of a completion that carries [context] and asks
    [question]. *)
Definition carrying (context question : string) : string :=
  ("Document Content:" ++ newline ++ newline ++ context ++ newline ++ newline ++ "---"
     ++ newline ++ newline ++ "Question: " ++ question ++ newline ++ newline
     ++ "Answer:")%string.

(** The value a request asks for a setting: the one in its settings, or
    [default] when the request has no settings or they leave it out. *)
Definition requested (setting : QueryRoute.Settings -> option Z) (default : Z)
           (req : QueryRoute.Request) : Z :=
  match QueryRoute.settings req with
  | Some s => match setting s with Some n => n | None => default end
  | None => default
  end.

(** The budget of the context: [chunkSize * topK], which are 1000 and 3
    by default. *)
Definition budget (req : QueryRoute.Request) : Z :=
  requested QueryRoute.chunkSize 1000 req * requested QueryRoute.topK 3 req.

(** What an event of a run must satisfy for the context to be within the
    budget: the user message of a completion request carries, with the
    question of the request, a context of at most [chunkSize * topK]
    characters. *)
Definition withinBudget (req : QueryRoute.Request) (e : event) : Prop :=
  match e with
  | EvChatCompletion request _ =>
      exists context q,
        QueryRoute.question req = QueryRoute.QString q /\
        userContent request = carrying context q /\
        Z.of_nat (String.length context) <= budget req
  | _ => True
  end.

(** The user messages of the completions a run asked for, oldest first. *)
Definition prompts (t : list event) : list string :=
  flat_map (fun e => match e with
                     | EvChatCompletion request _ => [userContent request]
                     | _ => []
                     end) t.

(** The document [d] stores the text [text], which has more than white
    space. *)
Definition storesText (d : Document) (text : string) : Prop :=
  textContent d = Some text /\ JS.trim text <> EmptyString.

(** ** Scores *)

Definition inUnitRange (x : float) : bool := ((-1 <=? x) && (x <=? 1))%float.

Definition isNumber (a : float) : Prop := is_nan a = false.

Definition notNaN (x : spec_float) : Prop :=
  match x with S754_nan => False | _ => True end.

(** The value of a number of precision [prec] and exponent range [emax],
    scaled by [2 ^ - emin]: an integer for every valid number. *)
Definition scaled (prec emax : Z) (x : spec_float) : Z :=
  match x with
  | S754_zero _ => 0
  | S754_infinity s => cond_Zopp s (2 ^ (emax - SpecFloat.emin prec emax))
  | S754_nan => 0
  | S754_finite s m e => cond_Zopp s (Z.pos m * 2 ^ (e - SpecFloat.emin prec emax))
  end.

(** The scaled value of a binary64 number. *)
Definition rank (a : float) : Z := scaled prec emax (Prim2SF a).

(** Scores from the highest down. *)
Definition descending : list EmbeddingService.Scored -> Prop :=
  StronglySorted
    (fun a b => (EmbeddingService.s_score b <=? EmbeddingService.s_score a)%float = true).

(** Every score is a number (none is NaN). *)
Definition numbers : list EmbeddingService.Scored -> Prop :=
  Forall (fun s => isNumber (EmbeddingService.s_score s)).

Definition scoreIs (score : float) (r : EmbeddingService.Scored) : bool :=
  (EmbeddingService.s_score r =? score)%float.

(** ** Inputs for running the code *)

Definition As (n : nat) : string := TextChunker.repeat "A"%char n.

(** An embedding provider that is down, and one of three dimensions. *)
Definition noEmbedding (_ : string) : outcome JsEmbedding :=
  Throw "the embedding provider is not reachable".

Definition threeDimensions (_ : string) : outcome JsEmbedding :=
  Ok (JsArray [1%float; 0%float; 0%float]).

Definition doc1_chunk_0 : Vector :=
  mkVector "doc1_chunk_0" [1%float; 0%float; 0%float]
           (mkMetadata "doc1" 0 "short text").

(** Five records of the document [doc1], the first of them with an empty
    text; against the query [1, 0, 0] their scores are 1, 0.6, 1, 0 and
    0.8. *)
Definition doc1Record (i : nat) (values : list float) (text : string) : Vector :=
  mkVector ("doc1_chunk_" ++ JS.showNat i)%string values (mkMetadata "doc1" i text).

Definition fiveRecords : list Vector :=
  [doc1Record 0 [1%float; 0%float; 0%float] EmptyString;
   doc1Record 1 [3%float; 4%float; 0%float] "beta";
   doc1Record 2 [1%float; 0%float; 0%float] "gamma";
   doc1Record 3 [0%float; 1%float; 0%float] "delta";
   doc1Record 4 [4%float; 3%float; 0%float] "epsilon"].

(** A stored document and a question about it, for running the handler. *)
Definition storedDocument : Document :=
  mkDocument "doc1" "notes.txt" (Some "short text"%string) [].

Definition questionAboutDoc1 : QueryRoute.Request :=
  QueryRoute.mkRequest "user1" (QueryRoute.QString "what?") (Some "doc1"%string) None.

(** The same question with the settings [topK = 2] and [chunkSize = 4], a
    budget of 8 characters; and with [chunkSize = -1], a budget of -3. *)
Definition smallBudget : QueryRoute.Request :=
  QueryRoute.mkRequest "user1" (QueryRoute.QString "what?") (Some "doc1"%string)
    (Some (QueryRoute.mkSettings None None None (Some 2) (Some 4))).

(** A request whose question is the number 123. *)
Definition questionIsANumber : QueryRoute.Request :=
  QueryRoute.mkRequest "user1" QueryRoute.QTruthy (Some "doc1"%string) None.

Definition negativeChunkSize : QueryRoute.Request :=
  QueryRoute.mkRequest "user1" (QueryRoute.QString "what?") (Some "doc1"%string)
    (Some (QueryRoute.mkSettings None None None None (Some (-1)))).

(** Four candidates, two of them with the same embedding as the query. *)
Definition candidates : list EmbeddingService.Candidate :=
  [EmbeddingService.mkCandidate "alpha" [0%float; 1%float; 0%float];
   EmbeddingService.mkCandidate "beta" [1%float; 0%float; 0%float];
   EmbeddingService.mkCandidate "gamma" [3%float; 4%float; 0%float];
   EmbeddingService.mkCandidate "delta" [1%float; 0%float; 0%float]].

(** Three candidates, one of them of zero magnitude, and their scores
    against the query [1, 0, 0]. *)
Definition withZeroVector : list EmbeddingService.Candidate :=
  [EmbeddingService.mkCandidate "gamma" [3%float; 4%float; 0%float];
   EmbeddingService.mkCandidate "zero" [0%float; 0%float; 0%float];
   EmbeddingService.mkCandidate "beta" [1%float; 0%float; 0%float]].

Definition scoredWithNaN : list EmbeddingService.Scored :=
  [EmbeddingService.mkScored "gamma" 0x1.3333333333333p-1%float;
   EmbeddingService.mkScored "zero" nan;
   EmbeddingService.mkScored "beta" 1%float].

(** ** What a run sent to the index *)

(** The records of the upserts that the index accepted, in the order
    sent. *)
Definition upserted (t : list event) : list Vector :=
  flat_map (fun e => match e with EvUpsert batch (Ok _) => batch | _ => [] end) t.

(** The id [documentId_chunk_i]. *)
Definition chunkId (documentId : string) (i : nat) : string :=
  (documentId ++ "_chunk_" ++ JS.showNat i)%string.

(** The chunks that are not blank, each with its position, [i] being the
    position of the head of [chunks]. *)
Fixpoint nonBlankFrom (chunks : list string) (i : nat) : list (nat * string) :=
  match chunks with
  | [] => []
  | chunk :: rest =>
      if JS.blank chunk then nonBlankFrom rest (S i)
      else (i, chunk) :: nonBlankFrom rest (S i)
  end.

(** [v] is the record of the chunk [snd p] at position [fst p] of the
    document: its id, its metadata, and values that are not empty. *)
Definition builtFrom (documentId : string) (p : nat * string) (v : Vector) : Prop :=
  id v = chunkId documentId (fst p) /\
  metadata v = mkMetadata documentId (fst p) (snd p) /\
  values v <> [].

(** The embedding call that gave the values of [v]. *)
Definition embedEvent (v : Vector) : event :=
  EvEmbed (text (metadata v)) (Ok (JsArray (values v))).

(** An upsert carries between 1 and [BATCH_SIZE] = 50 records. *)
Definition batchSized (e : event) : Prop :=
  match e with
  | EvUpsert batch _ => (1 <= List.length batch <= 50)%nat
  | _ => True
  end.

Definition notDelete (e : event) : Prop :=
  match e with EvDeleteMany _ _ => False | _ => True end.

(** Neither an upsert nor a deletion. *)
Definition notWrite (e : event) : Prop :=
  match e with EvUpsert _ _ | EvDeleteMany _ _ => False | _ => True end.

(** ** Failures and results of a computation *)

(** [m] throws exactly when one of its events is a failure in the sense of
    [failed]; with [already] set, it throws whatever it does. *)
Definition throwsWhen {W A} (failed : event -> bool) (already : bool) (m : M W A) : Prop :=
  forall w, is_throw (result (m w)) = already || existsb failed (trace (m w)).

(** Every normal result of [m] satisfies [Q]. *)
Definition returns {W A} (Q : A -> Prop) (m : M W A) : Prop :=
  forall w a, result (m w) = Ok a -> Q a.

(** A call of the retrieval that makes [queryDocuments] fail: the embedding
    call threw or resolved to null or undefined, or the query of the index
    threw. *)
Definition retrievalFailed (e : event) : bool :=
  match e with
  | EvEmbed _ (Throw _) | EvEmbed _ (Ok JsNull) | EvEmbed _ (Ok JsUndefined)
  | EvQuery _ (Throw _) => true
  | _ => false
  end.

(** A call that makes the query route answer 500: the document store
    threw on the search or on the update of the query counter, the
    completion threw, or it came without a content in its first choice. *)
Definition handlerFailed (e : event) : bool :=
  match e with
  | EvDocumentFind _ _ (Throw _)
  | EvChatCompletion _ (Throw _)
  | EvChatCompletion _ (Ok [])
  | EvChatCompletion _ (Ok (None :: _))
  | EvFindByIdAndUpdate _ (Throw _) => true
  | _ => false
  end.

(** The question of the request is a truthy value that is no string: it
    has no method [trim]. *)
Definition questionWithoutTrim (req : QueryRoute.Request) : bool :=
  match QueryRoute.question req with
  | QueryRoute.QTruthy => true
  | _ => false
  end.

(** Both probes of a health check were made from the world [w] and
    answered: the embedding provider resolved the text 'test' to a value
    other than null and undefined, the index then resolved
    [describeIndexStats], and these two calls are the whole trace [t]. *)
Definition probesAnswered {W : Type} (svc : Services W) (w : W) (t : list event) : Prop :=
  exists (embedding : JsEmbedding) (stats : IndexStats) (w1 w2 : W),
    embedQuery svc "test" w = (Ok embedding, w1) /\
    embedding <> JsNull /\
    embedding <> JsUndefined /\
    describeIndexStats svc w1 = (Ok stats, w2) /\
    t = [EvEmbed "test" (Ok embedding); EvDescribeIndexStats (Ok stats)].

(** ** The query route *)

Definition is_completion (e : event) : bool :=
  match e with EvChatCompletion _ _ => true | _ => false end.

(** The number of completions asked for. *)
Definition completions (t : list event) : nat := List.length (filter is_completion t).

(** No run of [m] asks for more than [n] completions. *)
Definition atMost {W A} (n : nat) (m : M W A) : Prop :=
  forall w, (completions (trace (m w)) <= n)%nat.

(** The calls of a question about all documents: the search of the
    document store and the completion. *)
Definition findOrCompletion (e : event) : Prop :=
  match e with EvDocumentFind _ _ _ | EvChatCompletion _ _ => True | _ => False end.

(** What the handler saves of a conversation: the question of the request
    and its user, under a title of at most 63 characters that is the
    question when this has at most 60. *)
Definition conversationOf (req : QueryRoute.Request) (e : event) : Prop :=
  match e with
  | EvConversationCreate conversation _ =>
      QueryRoute.question req = QueryRoute.QString (conv_question conversation) /\
      conv_userId conversation = QueryRoute.userId req /\
      JS.length (conv_title conversation) <= 63 /\
      (JS.length (conv_question conversation) <= 60 ->
       conv_title conversation = conv_question conversation)
  | _ => True
  end.

(** The sources of a response agree with its method: none with the method
    direct; with the method vector at least one and at most [topK], each
    a preview of at most 303 characters. *)
Definition sourcesAgree (topK : Z) (response : QueryRoute.Response) : Prop :=
  match response with
  | QueryRoute.Answered _ sources _ method _ _ _ =>
      (method = "direct"%string /\ sources = []) \/
      (method = "vector"%string /\ sources <> [] /\
       Z.of_nat (List.length sources) <= topK /\
       Forall (fun s => JS.length (QueryRoute.src_text s) <= 303) sources)
  | _ => True
  end.

(** ** The controller *)

(** The sources of an answer of [aiController]: at least one and at most
    three, no more than the chunks found, which are at most three; and
    either every source reaches the threshold 0.1 or none does. *)
Definition fewSources (response : AiController.Response) : Prop :=
  match response with
  | AiController.Answered _ _ sources chunksFound _ =>
      (1 <= List.length sources <= chunksFound)%nat /\
      (chunksFound <= 3)%nat /\
      (Forall (fun s => (AiController.threshold <=? AiController.source_score s)%float = true)
              sources \/
       Forall (fun s => (AiController.threshold <=? AiController.source_score s)%float = false)
              sources)
  | _ => True
  end.

(** The document that a chunk names, 'unknown' when it names none. *)
Definition namedDocument (chunk : RetrievalResult) : string :=
  match m_documentId (r_metadata chunk) with
  | Some (String c d) => String c d
  | _ => "unknown"%string
  end.

(** The distinct strings of a list, in the order of their first
    occurrence. *)
Definition distinct (l : list string) : list string :=
  fold_left (fun seen k => if existsb (String.eqb k) seen then seen else seen ++ [k]) l [].

(** The ids of the documents that the controller reads: the documents
    that the chunks found name. *)
Definition documentsToRead (found : list RetrievalResult) : list string :=
  filter (fun k => negb (String.eqb k "unknown")) (distinct (map namedDocument found)).

(** The chunks that the controller hands to the model, of at most three
    found: those with a score of at least 0.1, or all of them when none
    has such a score. *)
Definition handedToModel (found : list RetrievalResult) : list RetrievalResult :=
  match filter (fun chunk => (0x1.999999999999ap-4 <=? r_score chunk)%float) found with
  | [] => found
  | confident => confident
  end.

(** The name that the controller cites for the document of [chunk]: the
    name of the document read under the id the chunk names (of the last
    one, should several have that id), or [fallback] when the chunk names
    no document, none was read under its id, or its name is empty. *)
Definition citedName (documents : list Document) (chunk : RetrievalResult)
           (fallback : string) : string :=
  match m_documentId (r_metadata chunk) with
  | Some key =>
      match find (fun d => String.eqb (_id d) key) (rev documents) with
      | Some d =>
          match originalName d with
          | EmptyString => fallback
          | name => name
          end
      | None => fallback
      end
  | None => fallback
  end.

(** The user message that puts [question] to the model over [chunks],
    each under the name of its document. *)
Definition asking (documents : list Document) (chunks : list RetrievalResult)
           (question : string) : string :=
  ("Context:" ++ newline
     ++ String.concat (newline ++ newline ++ "---" ++ newline ++ newline)
          (map (fun chunk =>
                  "[" ++ citedName documents chunk "Document" ++ "]" ++ newline
                      ++ r_text chunk)
               chunks)
     ++ newline ++ newline ++ "Question: " ++ question ++ newline ++ newline
     ++ "Answer:")%string.

(** The request that the controller sends to the model with the user
    message [content]; the temperature is 0.6. *)
Definition modelRequest (content : string) : CompletionRequest :=
  mkCompletionRequest
    "llama-3.3-70b-versatile"
    "You are a helpful assistant. Answer questions using ONLY the provided context. Be concise and natural."
    content 400 0x1.3333333333333p-1%float.

(** The numbered excerpts of the answer given without the model: for each
    chunk, counted from [n], its number, the first 200 characters of its
    text and an ellipsis, then an empty line. *)
Fixpoint numbered (n : nat) (chunks : list RetrievalResult) : string :=
  match chunks with
  | [] => EmptyString
  | chunk :: rest =>
      (JS.showNat n ++ ". " ++ String.substring 0 200 (r_text chunk) ++ "..."
         ++ newline ++ newline ++ numbered (S n) rest)%string
  end.

(** The source [source] cites [chunk]: the first 300 characters of its
    text and an ellipsis, its score, and the name of its document. *)
Definition cites (documents : list Document) (chunk : RetrievalResult)
           (source : AiController.Source) : Prop :=
  AiController.source_text source
  = (String.substring 0 300 (r_text chunk) ++ "...")%string /\
  AiController.source_score source = r_score chunk /\
  AiController.source_documentName source = citedName documents chunk "Unknown".

(** ** The CSV export *)

(** The number of occurrences of a character. *)
Fixpoint occurrences (c : ascii) (s : string) : nat :=
  match s with
  | EmptyString => 0
  | String x s' => if Ascii.eqb x c then S (occurrences c s') else occurrences c s'
  end.

(** Reading a quoted CSV field back: two double quotes stand for one. *)
Fixpoint unquoted (s : string) : string :=
  match s with
  | String a ((String b s') as rest) =>
      if Ascii.eqb a ExportRoute.quote && Ascii.eqb b ExportRoute.quote
      then String ExportRoute.quote (unquoted s')
      else String a (unquoted rest)
  | _ => s
  end.

(** ** More inputs for running the code *)

(** An index that rejects every upsert, and one that stores what it is
    sent but answers neither [describeIndexStats] nor a query. *)
Definition rejecting (embed : string -> outcome JsEmbedding) : Services Memory.World :=
  mkServices Memory.World
    TextChunker.splitText
    (fun text w => (embed text, w))
    (fun w => (Ok (mkIndexStats (Some 3) (Some (Z.of_nat (List.length w)))), w))
    (fun _ w => (Throw "the index rejected the upsert"%string, w))
    (fun options w => (Ok (mkQueryResults (Some (Memory.answer options w))), w))
    (fun ids w => (Ok tt, Memory.removeAll ids w)).

Definition writeOnly (embed : string -> outcome JsEmbedding) : Services Memory.World :=
  mkServices Memory.World
    TextChunker.splitText
    (fun text w => (embed text, w))
    (fun w => (Throw "describeIndexStats timed out"%string, w))
    (fun batch w => (Ok tt, fold_left Memory.put batch w))
    (fun _ w => (Throw "query timed out"%string, w))
    (fun ids w => (Ok tt, Memory.removeAll ids w)).

(** An embedding provider that resolves to the empty array. *)
Definition emptyEmbedding (_ : string) : outcome JsEmbedding := Ok (JsArray []).

(** A question about all documents. *)
Definition questionAboutAll : QueryRoute.Request :=
  QueryRoute.mkRequest "user1" (QueryRoute.QString "what?") (Some "all"%string) None.

(** Two candidates, one with an embedding of two components. *)
Definition withShortVector : list EmbeddingService.Candidate :=
  [EmbeddingService.mkCandidate "beta" [1%float; 0%float; 0%float];
   EmbeddingService.mkCandidate "short" [1%float; 0%float]].

(** A text of 60 characters, and a [document.save] that fails. *)
Definition sixtyAs : string := As 60.

Definition saveFails (_ : string) (_ : list string) (w : Memory.World)
  : outcome unit * Memory.World :=
  (Throw "the document could not be saved"%string, w).

(** A storage that finds the document [doc1] with one vector, can remove
    neither its file nor its object, and answers [deleteOneAnswer] to the
    deletion of a record. *)
Definition foundDoc1 : DocumentsRoute.Found :=
  DocumentsRoute.mkFound "doc1" "uploads/notes.txt" (Some "documents/user1/notes.txt"%string)
                         (Some ["doc1_chunk_0"%string]).

Definition storage (deleteOneAnswer : outcome unit) : DocumentsRoute.Storage Memory.World :=
  DocumentsRoute.mkStorage Memory.World
    (fun _ _ w => (Ok (Some foundDoc1), w))
    (fun _ w => (Throw "ENOENT"%string, w))
    (fun _ w => (Throw "S3 is not reachable"%string, w))
    (fun _ w => (deleteOneAnswer, w)).

(** A store of one processed document, a completion client that is down,
    and a question to the controller. *)
Definition oneDocument : AiController.Store Memory.World :=
  AiController.mkStore Memory.World
    (fun w => (Ok 1, w))
    (fun w => (Ok 1, w))
    (fun _ w => (Ok [storedDocument], w)).

Definition modelIsDown : Backend Memory.World :=
  mkBackend Memory.World
    (fun _ _ w => (Ok [storedDocument], w))
    (fun _ w => (Throw "the model is not reachable"%string, w))
    (fun _ w => (Ok tt, w))
    (fun _ w => (Ok "conversation-1"%string, w)).

Definition askAboutDoc1 : AiController.Request :=
  AiController.mkRequest (Some "what?"%string) (Some "doc1"%string).

(** * Properties *)

(** ** Facts about the JavaScript primitives *)

Lemma slice_from_start {A} (l : list A) (n : Z) :
  0 <= n -> JS.slice l 0 n = firstn (Z.to_nat n) l.
Proof.
  intros Hn. unfold JS.slice.
  assert (H0 : (0 <? 0) = false) by reflexivity. rewrite H0.
  destruct (n <? 0) eqn:E; [apply Z.ltb_lt in E; lia|].
  rewrite (Z.min_l 0) by lia. simpl skipn. rewrite Z.sub_0_r.
  destruct (Z.min_spec n (Z.of_nat (List.length l))) as [[_ ->]|[Hle ->]].
  - reflexivity.
  - rewrite Nat2Z.id, firstn_all. symmetry. apply firstn_all2. lia.
Qed.

Lemma slice_length_le {A} (l : list A) (n : Z) :
  0 <= n -> Z.of_nat (List.length (JS.slice l 0 n)) <= n.
Proof.
  intros Hn. rewrite slice_from_start by assumption.
  rewrite length_firstn. lia.
Qed.

Lemma In_firstn {A} (x : A) (n : nat) (l : list A) :
  In x (firstn n l) -> In x l.
Proof.
  revert l. induction n as [|n IH]; intros [|a l]; cbn; try tauto.
  intros [->|H]; [now left|right; now apply IH].
Qed.

Lemma substring_prefix_length (n : nat) (s : string) :
  String.length (String.substring 0 n s) = Nat.min n (String.length s).
Proof.
  revert s. induction n as [|n IH]; intros [|c s]; simpl; try reflexivity.
  now rewrite IH.
Qed.

Lemma substring0_length_le (s : string) (n : Z) :
  0 <= n -> JS.length (JS.substring0 s n) <= n.
Proof.
  intros Hn. unfold JS.length, JS.substring0.
  rewrite substring_prefix_length. lia.
Qed.

(** ** [deleteDocument] *)

(** C10.  [deleteDocument] called with null, undefined ([None]) or an empty
    list of vector ids returns normally, calls nothing (no [deleteMany], no
    event at all) and leaves the world, hence the index, as it was. *)
Theorem deleteDocument_nothing_to_delete :
  forall (W : Type) (svc : Services W) (w : W),
    RAGService.deleteDocument svc None w = (Ok tt, w, []) /\
    RAGService.deleteDocument svc (Some []) w = (Ok tt, w, []).
Proof.
  intros W svc w. split; reflexivity.
Qed.

(** With ids to delete, the one call is [deleteMany] on exactly those ids. *)
Lemma deleteDocument_calls_deleteMany :
  forall (W : Type) (svc : Services W) (w : W) (i : string) (ids : list string),
    trace (RAGService.deleteDocument svc (Some (i :: ids)) w)
    = [EvDeleteMany (i :: ids) (fst (deleteMany svc (i :: ids) w))].
Proof.
  intros. unfold RAGService.deleteDocument, call, trace.
  destruct (deleteMany svc (i :: ids) w). reflexivity.
Qed.

(** ** [queryDocuments] on an empty question *)

(** C2, as stated, fails: on a whitespace-only question [queryDocuments]
    does not throw; it returns the empty list. *)
Lemma queryDocuments_blank_question_no_error :
  result (RAGService.queryDocuments (Memory.services 384 noEmbedding)
            "   "%string None 3 [])
  = Ok [] /\
  is_throw (result (RAGService.queryDocuments (Memory.services 384 noEmbedding)
                      "   "%string None 3 []))
  = false.
Proof.
  split; reflexivity.
Qed.

(** C2, amended.  [queryDocuments] called with an empty or whitespace-only
    question returns the empty list as a normal result, before any external
    call: no event, and the world unchanged. *)
Theorem queryDocuments_blank_question_empty :
  forall (W : Type) (svc : Services W) (question : string)
         (documentId : option string) (topK : Z) (w : W),
    JS.blank question = true ->
    RAGService.queryDocuments svc question documentId topK w = (Ok [], w, []).
Proof.
  intros W svc question documentId topK w Hblank.
  unfold RAGService.queryDocuments. rewrite Hblank. reflexivity.
Qed.

Lemma queryDocuments_blank_question_empty_witness :
  JS.blank ""%string = true /\
  RAGService.queryDocuments (Memory.services 384 noEmbedding) ""%string None 3 []
  = (Ok [], [], []).
Proof.
  split; [reflexivity|].
  apply (queryDocuments_blank_question_empty _ (Memory.services 384 noEmbedding)
           ""%string None 3 []).
  reflexivity.
Defined.

(** ** [cosineSimilarity] *)

(** C3 at the failing input: both vectors of zero magnitude.  The quotient
    is 0/0, the result is NaN, and NaN is not in [-1, 1]. *)
Theorem cosineSimilarity_zero_magnitude_nan :
  EmbeddingService.cosineSimilarity [0%float; 0%float] [0%float; 0%float] = Ok nan /\
  is_nan nan = true /\
  inUnitRange nan = false.
Proof.
  repeat split; vm_compute; reflexivity.
Qed.

(** One zero vector is enough. *)
Lemma cosineSimilarity_one_zero_vector_nan :
  EmbeddingService.cosineSimilarity [0%float; 0%float] [3%float; 4%float] = Ok nan.
Proof. vm_compute. reflexivity. Qed.

(** So is a norm that underflows to zero or overflows to infinity, for
    vectors that are not zero. *)
Lemma cosineSimilarity_underflow_overflow_nan :
  EmbeddingService.cosineSimilarity [0x1p-600%float] [0x1p-600%float] = Ok nan /\
  EmbeddingService.cosineSimilarity [0x1p600%float] [0x1p600%float] = Ok nan.
Proof. split; vm_compute; reflexivity. Qed.

(** In binary64 the product of the two square roots need not give back the
    norm.  The similarity of [1, 1] with itself is 1 - 2^-52, not 1; that of
    [1, 1, 1] with itself is 1 + 2^-52, above the range [-1, 1]. *)
Lemma cosineSimilarity_self_rounding :
  EmbeddingService.cosineSimilarity [1%float; 1%float] [1%float; 1%float]
  = Ok 0x1.ffffffffffffep-1%float /\
  EmbeddingService.cosineSimilarity [1%float; 1%float; 1%float] [1%float; 1%float; 1%float]
  = Ok 0x1.0000000000001p+0%float /\
  inUnitRange 0x1.0000000000001p+0%float = false.
Proof. repeat split; vm_compute; reflexivity. Qed.

(** On vectors of the same length the function returns the quotient of the
    accumulated sums and never throws; on others it throws. *)
Lemma cosineSimilarity_same_length (vecA vecB : list float) :
  List.length vecA = List.length vecB ->
  EmbeddingService.cosineSimilarity vecA vecB
  = let '(d, na, nb) := EmbeddingService.accumulate vecA vecB 0%float 0%float 0%float in
    Ok (d / (sqrt na * sqrt nb))%float.
Proof.
  intros H. unfold EmbeddingService.cosineSimilarity.
  rewrite H, Nat.eqb_refl. reflexivity.
Qed.

Lemma cosineSimilarity_length_mismatch (vecA vecB : list float) :
  List.length vecA <> List.length vecB ->
  EmbeddingService.cosineSimilarity vecA vecB = Throw "Vectors must have the same length".
Proof.
  intros H. unfold EmbeddingService.cosineSimilarity.
  apply Nat.eqb_neq in H. rewrite H. reflexivity.
Qed.

(** ** [splitDocument] *)

(** C4.  With the sliding-window splitter of the specification behind
    [splitText], [splitDocument] (whose splitter is configured with
    [chunkSize: 500], [chunkOverlap: 100]) turns 1200 times "A" into exactly
    three chunks, the spans [0:500], [400:900] and [800:1200] of the text,
    of lengths 500, 500 and 400; each start is 400 = 500 - 100 after the
    previous one. *)
Theorem splitDocument_1200_As :
  forall (W : Type) (svc : Services W) (w : W),
    (forall chunkSize overlap text,
        splitText svc chunkSize overlap text
        = TextChunker.splitText chunkSize overlap text) ->
    TextChunker.split (As 1200) 500 100
    = Ok [TextChunker.mkChunk 0 500 (String.substring 0 500 (As 1200));
          TextChunker.mkChunk 400 500 (String.substring 400 500 (As 1200));
          TextChunker.mkChunk 800 400 (String.substring 800 400 (As 1200))] /\
    RAGService.splitDocument svc (As 1200) w = (Ok [As 500; As 500; As 400], w, []) /\
    map String.length [As 500; As 500; As 400] = [500; 500; 400]%nat.
Proof.
  intros W svc w Hsplit. split; [|split].
  - vm_compute. reflexivity.
  - unfold RAGService.splitDocument. rewrite Hsplit.
    assert (E : TextChunker.splitText 500 100 (As 1200) = Ok [As 500; As 500; As 400])
      by (vm_compute; reflexivity).
    rewrite E. reflexivity.
  - vm_compute. reflexivity.
Qed.

(** In general: no window is longer than [chunkSize], and each window
    after the first starts [stride] characters after the one before. *)
Lemma windows_length_le (text : string) (chunkSize stride : nat) :
  forall (fuel start : nat),
    Forall (fun c => (TextChunker.charLength c <= chunkSize)%nat)
           (TextChunker.windows fuel text start chunkSize stride).
Proof.
  assert (Hsub : forall n m s, (String.length (String.substring n m s) <= m)%nat).
  { induction n as [|n IHn]; intros m s.
    - rewrite substring_prefix_length. lia.
    - destruct s as [|c s]; cbn; [lia|apply IHn]. }
  induction fuel as [|fuel IH]; intros start; cbn [TextChunker.windows]; [constructor|].
  destruct (String.length text <=? start + chunkSize)%nat;
    repeat constructor; cbn [TextChunker.charLength]; auto.
Qed.

Lemma windows_stride (text : string) (chunkSize stride : nat) :
  forall (fuel start i : nat) (c1 c2 : TextChunker.Chunk),
    nth_error (TextChunker.windows fuel text start chunkSize stride) i = Some c1 ->
    nth_error (TextChunker.windows fuel text start chunkSize stride) (S i) = Some c2 ->
    TextChunker.charStart c2 = (TextChunker.charStart c1 + stride)%nat.
Proof.
  induction fuel as [|fuel IH]; intros start i c1 c2; cbn [TextChunker.windows].
  - destruct i; discriminate.
  - destruct (String.length text <=? start + chunkSize)%nat.
    + destruct i as [|[|i]]; discriminate.
    + destruct i as [|i]; cbn [nth_error].
      * intros H1 H2. inversion H1; subst. cbn [TextChunker.charStart].
        destruct fuel as [|fuel]; cbn [TextChunker.windows] in H2; [discriminate|].
        destruct (String.length text <=? start + stride + chunkSize)%nat;
          inversion H2; reflexivity.
      * apply IH.
Qed.

Lemma splitDocument_1200_As_witness :
  RAGService.splitDocument (Memory.services 384 noEmbedding) (As 1200) []
  = (Ok [As 500; As 500; As 400], [], []).
Proof.
  apply (splitDocument_1200_As _ (Memory.services 384 noEmbedding) []).
  intros chunkSize overlap text. reflexivity.
Defined.

(** ** Facts about computations and their traces *)

Lemma bind_ret {W A B} (a : A) (k : A -> M W B) (w : W) :
  bind (ret a) k w = k a w.
Proof.
  unfold bind, ret. destruct (k a w) as [[r w2] t2]. reflexivity.
Qed.

Lemma bind_trace_ok {W A B} (m : M W A) (k : A -> M W B) (w : W) (a : A) :
  result (m w) = Ok a ->
  trace (bind m k w) = trace (m w) ++ trace (k a (world (m w))).
Proof.
  unfold bind, result, world, trace.
  destruct (m w) as [[r w1] t1]. cbn. intros ->.
  destruct (k a w1) as [[r2 w2] t2]. reflexivity.
Qed.

Lemma bind_trace_prefix {W A B} (m : M W A) (k : A -> M W B) (w : W) :
  exists rest, trace (bind m k w) = trace (m w) ++ rest.
Proof.
  unfold bind, trace.
  destruct (m w) as [[[a|e] w1] t1]; cbn.
  - destruct (k a w1) as [[r2 w2] t2]. cbn. eexists. reflexivity.
  - exists []. now rewrite app_nil_r.
Qed.

Lemma bind_call_ok {W A B} (f : W -> outcome A * W) (log : outcome A -> event)
      (k : A -> M W B) (w w1 : W) (a : A) :
  f w = (Ok a, w1) ->
  bind (call f log) k w = let '(r, w2, t2) := k a w1 in (r, w2, log (Ok a) :: t2).
Proof.
  intros H. unfold bind, call. rewrite H. reflexivity.
Qed.

Lemma bind_call_throw {W A B} (f : W -> outcome A * W) (log : outcome A -> event)
      (k : A -> M W B) (w w1 : W) (e : string) :
  f w = (Throw e, w1) ->
  bind (call f log) k w = (Throw e, w1, [log (Throw e)]).
Proof.
  intros H. unfold bind, call. rewrite H. reflexivity.
Qed.

Lemma call_trace {W A} (f : W -> outcome A * W) (log : outcome A -> event) (w : W) :
  trace (call f log w) = [log (fst (f w))].
Proof.
  unfold call, trace. destruct (f w). reflexivity.
Qed.

(** Traces of composed computations, for a property of single events. *)
Section TraceForall.
Context {W : Type} (P : event -> Prop).

Lemma every_ret {A} (a : A) : every (W := W) P (ret a).
Proof. intros w. constructor. Qed.

Lemma every_throw {A} (e : string) : every P (@throw W A e).
Proof. intros w. constructor. Qed.

(** The continuation may rely on what the first part establishes of the
    value it returns. *)
Lemma every_bind_post {A B} (Q : A -> Prop) (m : M W A) (k : A -> M W B) :
  every P m ->
  (forall w a, result (m w) = Ok a -> Q a) ->
  (forall a, Q a -> every P (k a)) ->
  every P (bind m k).
Proof.
  intros Hm Hq Hk w. unfold bind, trace.
  specialize (Hm w). specialize (Hq w). unfold trace, result in Hm, Hq.
  destruct (m w) as [[[a|e] w1] t1]; cbn [fst snd] in *; [|assumption].
  specialize (Hk a (Hq a eq_refl) w1). unfold trace in Hk.
  destruct (k a w1) as [[r w2] t2]. cbn [snd] in *.
  apply Forall_app. split; assumption.
Qed.

Lemma every_bind {A B} (m : M W A) (k : A -> M W B) :
  every P m -> (forall a, every P (k a)) -> every P (bind m k).
Proof.
  intros Hm Hk. apply (every_bind_post (fun _ => True)); auto.
Qed.

Lemma every_try_catch {A} (m : M W A) (h : string -> M W A) :
  every P m -> (forall e, every P (h e)) -> every P (try_catch m h).
Proof.
  intros Hm Hh w. unfold try_catch, trace. specialize (Hm w). unfold trace in Hm.
  destruct (m w) as [[[a|e] w1] t1]; cbn [snd] in *; [assumption|].
  specialize (Hh e w1). unfold trace in Hh.
  destruct (h e w1) as [[r w2] t2]. cbn [snd] in *.
  apply Forall_app. split; assumption.
Qed.

Lemma every_call {A} (f : W -> outcome A * W) (log : outcome A -> event) :
  (forall r, P (log r)) -> every P (call f log).
Proof.
  intros Hlog w. rewrite call_trace. constructor; [apply Hlog|constructor].
Qed.

Lemma every_sleep (ms : Z) : P (EvSleep ms) -> every P (@sleep W ms).
Proof. intros H w. constructor; [exact H|constructor]. Qed.
End TraceForall.

(** ** [indexDocument] *)

Lemma noEmbed_not_In t text r : noEmbed t -> ~ In (EvEmbed text r) t.
Proof.
  unfold noEmbed. intros H Hin.
  rewrite Forall_forall in H. specialize (H _ Hin). discriminate.
Qed.

Section IndexDocument.
Context {W : Type} (svc : Services W).

(** The embedding loop sends nothing to the index. *)
Lemma embedChunks_noUpsert (documentId : string) (chunks : list string) :
  forall (i : nat) (vectors : list Vector),
    every notUpsert (RAGService.embedChunks svc documentId chunks i vectors).
Proof.
  induction chunks as [|chunk rest IH]; intros i vectors; cbn [RAGService.embedChunks].
  - apply every_ret.
  - destruct (JS.blank chunk); [apply IH|].
    apply every_bind; [apply every_call; reflexivity|].
    intros embedding. destruct (negb _); [apply every_throw|apply IH].
Qed.

(** It ends in a throw as soon as one embedding call has failed. *)
Lemma embedChunks_failure (documentId : string) (chunks : list string) :
  forall (i : nat) (vectors : list Vector) (w : W) (text : string) (r : outcome JsEmbedding),
    In (EvEmbed text r) (trace (RAGService.embedChunks svc documentId chunks i vectors w)) ->
    embedFailed r = true ->
    is_throw (result (RAGService.embedChunks svc documentId chunks i vectors w)) = true.
Proof.
  induction chunks as [|chunk rest IH]; intros i vectors w text r;
    cbn [RAGService.embedChunks].
  - intros [].
  - destruct (JS.blank chunk); [apply IH|].
    destruct (embedQuery svc chunk w) as [[embedding|e] w1] eqn:Hembed.
    + rewrite (bind_call_ok _ _ _ _ _ _ Hembed).
      destruct (RAGService.validEmbedding embedding) eqn:Hvalid; cbn [negb].
      * specialize (IH (S i) (vectors ++ [RAGService.chunkVector documentId i chunk embedding])
                       w1 text r).
        destruct (RAGService.embedChunks svc documentId rest (S i) _ w1) as [[r' w2] t2].
        cbn [trace result fst snd] in *.
        intros [Hhere|Hin] Hfail; [|now apply IH].
        inversion Hhere; subst. cbn in Hfail. rewrite Hvalid in Hfail. discriminate.
      * reflexivity.
    + rewrite (bind_call_throw _ _ _ _ _ _ Hembed). reflexivity.
Qed.

(** The dimension check never stops the indexing: whatever the index
    reports, and whether or not the dimensions agree, it completes
    normally. *)
Lemma checkDimension_never_throws (vectors : list Vector) (w : W) :
  result (RAGService.checkDimension svc vectors w) = Ok tt.
Proof.
  unfold RAGService.checkDimension, try_catch, bind, call, result.
  destruct (describeIndexStats svc w) as [[stats|e] w1]; cbn.
  - destruct (negb _); reflexivity.
  - reflexivity.
Qed.

Lemma checkDimension_trace (vectors : list Vector) (w : W) :
  trace (RAGService.checkDimension svc vectors w)
  = [EvDescribeIndexStats (fst (describeIndexStats svc w))].
Proof.
  unfold RAGService.checkDimension, try_catch, bind, call, trace.
  destruct (describeIndexStats svc w) as [[stats|e] w1]; cbn.
  - destruct (negb _); reflexivity.
  - reflexivity.
Qed.

Lemma checkDimension_noEmbed (vectors : list Vector) :
  every notEmbed (RAGService.checkDimension svc vectors).
Proof.
  intros w. rewrite checkDimension_trace. repeat constructor.
Qed.

Lemma batchLoop_noEmbed (fuel : nat) (vectors : list Vector) :
  forall i : nat, every notEmbed (RAGService.batchLoop svc fuel vectors i).
Proof.
  induction fuel as [|fuel IH]; intros i; cbn [RAGService.batchLoop]; [apply every_ret|].
  destruct (i <? List.length vectors)%nat; [|apply every_ret].
  apply every_bind; [apply every_call; reflexivity|].
  intros _. apply every_bind; [apply every_sleep; reflexivity|].
  intros _. apply IH.
Qed.

Lemma verifyUpload_noEmbed (vectors : list Vector) :
  every notEmbed (RAGService.verifyUpload svc vectors).
Proof.
  unfold RAGService.verifyUpload.
  apply every_try_catch; [|intros _; apply every_ret].
  apply every_bind; [apply every_call; reflexivity|].
  intros _. apply every_bind; [apply every_call; reflexivity|].
  intros _. apply every_ret.
Qed.

Lemma verifyUpload_never_throws (vectors : list Vector) (w : W) :
  result (RAGService.verifyUpload svc vectors w) = Ok tt.
Proof.
  unfold RAGService.verifyUpload, try_catch, bind, call, ret.
  destruct (describeIndexStats svc w) as [[stats|e] w1]; [|reflexivity].
  destruct (query svc _ w1) as [[results|e] w2]; reflexivity.
Qed.
End IndexDocument.

Section IndexDocumentClaims.
Context {W : Type} (svc : Services W).

Lemma commitVectors_noEmbed (vectors : list Vector) :
  every notEmbed (RAGService.commitVectors svc vectors).
Proof.
  unfold RAGService.commitVectors. destruct vectors as [|v vs]; [apply every_throw|].
  apply every_bind; [apply checkDimension_noEmbed|].
  intros _. apply every_bind; [apply batchLoop_noEmbed|].
  intros _. apply every_bind; [apply every_sleep; reflexivity|].
  intros _. apply every_bind; [apply verifyUpload_noEmbed|].
  intros _. apply every_ret.
Qed.

(** The shape of a run of [indexDocument]: nothing happens before the
    embedding loop, and [commitVectors] follows it when it succeeds. *)
Lemma indexDocument_run (documentId text : string) (w : W) :
  let run := RAGService.indexDocument svc documentId text w in
  (trace run = [] /\ is_throw (result run) = true) \/
  (exists chunks,
      splitText svc 500 100 text = Ok chunks /\
      match RAGService.embedChunks svc documentId chunks 0 [] w with
      | (Ok vectors, w1, t1) =>
          let rest := RAGService.commitVectors svc vectors w1 in
          run = (result rest, world rest, t1 ++ trace rest)
      | (Throw e, w1, t1) => run = (Throw e, w1, t1)
      end).
Proof.
  cbn zeta.
  destruct (JS.blank text) eqn:Hblank.
  { left. unfold RAGService.indexDocument. rewrite Hblank. split; reflexivity. }
  destruct (splitText svc 500 100 text) as [[|chunk chunks]|e] eqn:Hsplit.
  1, 3: left; unfold RAGService.indexDocument, RAGService.splitDocument;
    rewrite Hblank, Hsplit; split; reflexivity.
  right. exists (chunk :: chunks). split; [reflexivity|].
  assert (E : RAGService.indexDocument svc documentId text w
              = bind (RAGService.embedChunks svc documentId (chunk :: chunks) 0 [])
                     (RAGService.commitVectors svc) w).
  { unfold RAGService.indexDocument, RAGService.splitDocument.
    rewrite Hblank, Hsplit. rewrite bind_ret. reflexivity. }
  rewrite E. unfold bind.
  destruct (RAGService.embedChunks svc documentId (chunk :: chunks) 0 [] w)
    as [[[vectors|e] w1] t1]; [|reflexivity].
  cbn zeta. unfold result, world, trace.
  destruct (RAGService.commitVectors svc vectors w1) as [[r w2] t2]. reflexivity.
Qed.

(** C8.  If the embedding of any chunk fails during [indexDocument] (the
    call throws, or resolves to something that is not a non-empty array),
    the whole call ends in a throw and no upsert has been sent to the
    index in that run. *)
Theorem indexDocument_embedding_failure_aborts :
  forall (documentId text : string) (w : W) (chunk : string) (r : outcome JsEmbedding),
    In (EvEmbed chunk r) (trace (RAGService.indexDocument svc documentId text w)) ->
    embedFailed r = true ->
    is_throw (result (RAGService.indexDocument svc documentId text w)) = true /\
    noUpsert (trace (RAGService.indexDocument svc documentId text w)).
Proof.
  intros documentId text w chunk r Hin Hfail.
  destruct (indexDocument_run documentId text w) as [[Ht _]|[chunks [_ Hrun]]].
  - rewrite Ht in Hin. destruct Hin.
  - pose proof (embedChunks_noUpsert svc documentId chunks 0 [] w) as Hu.
    pose proof (embedChunks_failure svc documentId chunks 0 [] w chunk r) as Hthrow.
    destruct (RAGService.embedChunks svc documentId chunks 0 [] w)
      as [[[vectors|e] w1] t1]; cbn [trace result fst snd] in *.
    + exfalso. rewrite Hrun in Hin. cbn [trace snd] in Hin.
      apply in_app_or in Hin. destruct Hin as [Hin|Hin].
      * specialize (Hthrow Hin Hfail). discriminate.
      * exact (noEmbed_not_In _ _ _ (commitVectors_noEmbed vectors w1) Hin).
    + rewrite Hrun. split; [reflexivity|exact Hu].
Qed.

(** Every embedding call of a run comes before its first upsert. *)
Lemma indexDocument_embeds_before_upserts (documentId text : string) (w : W) :
  exists t1 t2,
    trace (RAGService.indexDocument svc documentId text w) = t1 ++ t2 /\
    noUpsert t1 /\ noEmbed t2.
Proof.
  destruct (indexDocument_run documentId text w) as [[Ht _]|[chunks [_ Hrun]]].
  - exists [], []. rewrite Ht. repeat split; constructor.
  - pose proof (embedChunks_noUpsert svc documentId chunks 0 [] w) as Hu.
    destruct (RAGService.embedChunks svc documentId chunks 0 [] w)
      as [[[vectors|e] w1] t1]; cbn [trace snd] in Hu; rewrite Hrun.
    + exists t1, (trace (RAGService.commitVectors svc vectors w1)).
      split; [reflexivity|]. split; [exact Hu|apply commitVectors_noEmbed].
    + exists t1, []. cbn [trace snd]. rewrite app_nil_r.
      repeat split; [exact Hu|constructor].
Qed.

(** Once the vectors are built, the first batch is sent to the index
    whatever [describeIndexStats] answered: no answer stops the upsert. *)
Lemma commitVectors_upserts (v : Vector) (vs : list Vector) (w : W) :
  exists rest,
    trace (RAGService.commitVectors svc (v :: vs) w)
    = EvDescribeIndexStats (fst (describeIndexStats svc w))
        :: EvUpsert (JS.slice (v :: vs) 0 50)
             (fst (upsert svc (JS.slice (v :: vs) 0 50) (snd (describeIndexStats svc w))))
        :: rest.
Proof.
  unfold RAGService.commitVectors.
  pose proof (checkDimension_never_throws svc (v :: vs) w) as Hr.
  pose proof (checkDimension_trace svc (v :: vs) w) as Ht.
  assert (Hw : world (RAGService.checkDimension svc (v :: vs) w)
               = snd (describeIndexStats svc w)).
  { unfold RAGService.checkDimension, try_catch, bind, call, world.
    destruct (describeIndexStats svc w) as [[stats|e] w1]; cbn.
    - destruct (negb _); reflexivity.
    - reflexivity. }
  rewrite (bind_trace_ok _ _ _ _ Hr), Ht, Hw.
  destruct (bind_trace_prefix (RAGService._batchUpsert svc (v :: vs))
              (fun _ => bind (sleep 3000) (fun _ =>
                 bind (RAGService.verifyUpload svc (v :: vs)) (fun _ =>
                 ret (map id (v :: vs)))))
              (snd (describeIndexStats svc w))) as [rest1 ->].
  unfold RAGService._batchUpsert.
  cbn [List.length RAGService.batchLoop Nat.ltb Nat.leb].
  change (Z.of_nat 0) with 0. change (Z.of_nat (0 + RAGService.BATCH_SIZE)) with 50.
  match goal with
  | |- context [trace (bind ?m ?k ?w1)] =>
      destruct (bind_trace_prefix m k w1) as [rest2 ->]
  end.
  rewrite call_trace. cbn [app]. eexists. reflexivity.
Qed.
End IndexDocumentClaims.

Lemma indexDocument_embedding_failure_aborts_witness :
  is_throw (result (RAGService.indexDocument (Memory.services 384 noEmbedding)
                      "doc1" "short text" [])) = true /\
  noUpsert (trace (RAGService.indexDocument (Memory.services 384 noEmbedding)
                     "doc1" "short text" [])).
Proof.
  apply (indexDocument_embedding_failure_aborts (Memory.services 384 noEmbedding)
           "doc1" "short text" [] "short text"
           (Throw "the embedding provider is not reachable")).
  - vm_compute. left. reflexivity.
  - reflexivity.
Defined.

(** C1 at the failing input: the index reports dimension 384, the
    embeddings have 3 components.  [indexDocument] still sends the record
    to the index, which now holds it, and returns its id as a success. *)
Theorem indexDocument_dimension_mismatch_upserts :
  let run := RAGService.indexDocument (Memory.services 384 threeDimensions)
               "doc1" "short text" [] in
  result run = Ok ["doc1_chunk_0"%string] /\
  world run = [doc1_chunk_0] /\
  firstn 3 (trace run)
  = [EvEmbed "short text" (Ok (JsArray [1%float; 0%float; 0%float]));
     EvDescribeIndexStats (Ok (mkIndexStats (Some 384) (Some 0)));
     EvUpsert [doc1_chunk_0] (Ok tt)].
Proof.
  cbv zeta. repeat split; vm_compute; reflexivity.
Qed.

(** ** The loop of [_batchUpsert] ends by its own test *)

Lemma bind_ext {W A B} (m : M W A) (k k' : A -> M W B) (w : W) :
  (forall a w1, k a w1 = k' a w1) -> bind m k w = bind m k' w.
Proof.
  intros H. unfold bind. destruct (m w) as [[[a|e] w1] t1]; [|reflexivity].
  rewrite H. reflexivity.
Qed.

(** More fuel than the number of vectors left changes nothing: the bound
    that [_batchUpsert] gives the loop is never what stops it. *)
Lemma batchLoop_fuel {W} (svc : Services W) (vectors : list Vector) (extra : nat) :
  forall (fuel i : nat) (w : W),
    (List.length vectors <= i + fuel)%nat ->
    RAGService.batchLoop svc (fuel + extra) vectors i w
    = RAGService.batchLoop svc fuel vectors i w.
Proof.
  induction fuel as [|fuel IH]; intros i w Hfuel.
  - cbn [Nat.add RAGService.batchLoop].
    destruct extra as [|extra]; [reflexivity|]. cbn [RAGService.batchLoop].
    destruct (Nat.ltb_spec i (List.length vectors)); [lia|reflexivity].
  - cbn [Nat.add RAGService.batchLoop].
    destruct (Nat.ltb_spec i (List.length vectors)); [|reflexivity].
    apply bind_ext. intros _ w1. apply bind_ext. intros _ w2.
    apply IH. unfold RAGService.BATCH_SIZE. lia.
Qed.

(** ** [queryDocuments] *)



Lemma StronglySorted_firstn {A} (R : A -> A -> Prop) (n : nat) (l : list A) :
  StronglySorted R l -> StronglySorted R (firstn n l).
Proof.
  intros Hs. revert n. induction Hs as [|a l Hs IH Hall]; intros [|n]; cbn; try constructor.
  - apply IH.
  - rewrite Forall_forall in *. intros x Hx. apply Hall. eapply In_firstn, Hx.
Qed.


Section QueryDocuments.
Context {W : Type} (svc : Services W).





End QueryDocuments.


(** The run of the witness: the record without a text, which has the
    highest score, is left out, and two results are returned of four. *)
Example queryDocuments_five_records :
  RAGService.queryDocuments (Memory.services 384 threeDimensions)
    "what" (Some "doc1"%string) 2 fiveRecords
  = (Ok [mkRetrievalResult "doc1_chunk_2" 1%float "gamma"
           (mkMatchMetadata (Some "doc1"%string) (Some 2%nat) (Some "gamma"%string));
         mkRetrievalResult "doc1_chunk_4" 0x1.999999999999ap-1%float "epsilon"
           (mkMatchMetadata (Some "doc1"%string) (Some 4%nat) (Some "epsilon"%string))],
     fiveRecords,
     [EvEmbed "what" (Ok (JsArray [1%float; 0%float; 0%float]));
      EvQuery (QueryByVector (JsArray [1%float; 0%float; 0%float]) 10 true
                 (Some "doc1"%string))
              (Ok (mkQueryResults
                     (Some [Memory.asMatch 1%float
                              (doc1Record 0 [1%float; 0%float; 0%float] EmptyString);
                            Memory.asMatch 1%float
                              (doc1Record 2 [1%float; 0%float; 0%float] "gamma");
                            Memory.asMatch 0x1.999999999999ap-1%float
                              (doc1Record 4 [4%float; 3%float; 0%float] "epsilon");
                            Memory.asMatch 0x1.3333333333333p-1%float
                              (doc1Record 1 [3%float; 4%float; 0%float] "beta");
                            Memory.asMatch 0%float
                              (doc1Record 3 [0%float; 1%float; 0%float] "delta")])))]).
Proof. vm_compute. reflexivity. Qed.


(** ** The query route *)

Lemma vectorContext_within_budget (topChunks : list RetrievalResult) (chunkSize topK : Z) :
  0 <= chunkSize * topK ->
  JS.length (QueryRoute.vectorContext topChunks chunkSize topK) <= chunkSize * topK.
Proof.
  intros Hbudget. unfold QueryRoute.vectorContext.
  destruct (chunkSize * topK <? _) eqn:E.
  - apply substring0_length_le, Hbudget.
  - apply Z.ltb_ge in E. exact E.
Qed.

Lemma directContext_within_budget (documentId : option string)
      (docsWithText : list Document) (chunkSize topK : Z) :
  0 <= chunkSize * topK ->
  JS.length (QueryRoute.directContext documentId docsWithText chunkSize topK)
  <= chunkSize * topK.
Proof.
  intros Hbudget. unfold QueryRoute.directContext.
  destruct (QueryRoute.specific documentId).
  - destruct docsWithText; [exact Hbudget|apply substring0_length_le, Hbudget].
  - apply substring0_length_le, Hbudget.
Qed.

Lemma length_append (a b : string) :
  String.length (a ++ b) = (String.length a + String.length b)%nat.
Proof.
  induction a as [|c a IH]; cbn; [reflexivity|now rewrite IH].
Qed.

Section QueryRouteClaims.
Context {W : Type} (svc : Services W) (db : Backend W).

(** One property of single events, through the retrieval, the vector
    search of the handler and the saving of the conversation. *)
Lemma queryDocuments_every (P : event -> Prop) (question : string)
      (documentId : option string) (topK : Z) :
  (forall text r, P (EvEmbed text r)) ->
  (forall options r, P (EvQuery options r)) ->
  (forall r, P (EvDescribeIndexStats r)) ->
  every P (RAGService.queryDocuments svc question documentId topK).
Proof.
  intros He Hq Hd. unfold RAGService.queryDocuments.
  destruct (JS.blank question); [apply every_ret|].
  apply every_bind; [apply every_call; apply He|].
  intros embedding.
  assert (Hlog : every P (bind (RAGService.logIndexStats svc)
                                (fun _ => ret (@nil RetrievalResult)))).
  { apply every_bind; [|intros; apply every_ret].
    apply every_try_catch; [|intros; apply every_ret].
    apply every_bind; [apply every_call; apply Hd|intros; apply every_ret]. }
  destruct embedding; [apply every_throw|apply every_throw| |].
  all: apply every_bind; [apply every_call; apply Hq|].
  all: intros results.
  all: destruct (matches results) as [[|m ms]|]; [exact Hlog|apply every_ret|exact Hlog].
Qed.

Lemma ragSearch_every (P : event -> Prop) (question : string)
      (documentId : option string) (documents : list Document) (chunkSize topK : Z) :
  (forall text r, P (EvEmbed text r)) ->
  (forall options r, P (EvQuery options r)) ->
  (forall r, P (EvDescribeIndexStats r)) ->
  every P (QueryRoute.ragSearch svc question documentId documents chunkSize topK).
Proof.
  intros He Hq Hd. unfold QueryRoute.ragSearch.
  apply every_try_catch; [|intros; apply every_ret].
  destruct (QueryRoute.specific documentId); [|apply every_ret].
  apply every_bind; [apply queryDocuments_every; assumption|].
  intros [|chunk chunks]; apply every_ret.
Qed.

Lemma saveConversation_every (P : event -> Prop) (req : QueryRoute.Request) (q : string)
      (documents : list Document) (answer : string) :
  (forall conversation r,
      QueryRoute.specific (QueryRoute.req_documentId req) <> None ->
      conv_userId conversation = QueryRoute.userId req ->
      conv_question conversation = q ->
      conv_title conversation
      = (if 60 <? JS.length q then (JS.substring0 q 60 ++ "...")%string else q) ->
      P (EvConversationCreate conversation r)) ->
  every P (QueryRoute.saveConversation db req q documents answer).
Proof.
  intros Hc. unfold QueryRoute.saveConversation.
  apply every_try_catch; [|intros; apply every_ret].
  destruct (QueryRoute.specific _) eqn:Hs; [|apply every_ret].
  destruct documents; [apply every_ret|].
  apply every_bind; [|intros; apply every_ret].
  apply every_call. intros r. apply Hc; [discriminate|reflexivity..].
Qed.


(** The vector search never throws, and the context it leaves is within
    the budget. *)
Lemma ragSearch_within_budget (question : string) (documentId : option string)
      (documents : list Document) (chunkSize topK : Z) (w : W) :
  0 <= chunkSize * topK ->
  exists context sources usedRAG,
    result (QueryRoute.ragSearch svc question documentId documents chunkSize topK w)
    = Ok (context, sources, usedRAG) /\
    JS.length context <= chunkSize * topK.
Proof.
  intros Hbudget. unfold QueryRoute.ragSearch, try_catch.
  destruct (QueryRoute.specific documentId) as [d|].
  - unfold bind.
    destruct (RAGService.queryDocuments svc question (Some d) topK w)
      as [[[[|chunk chunks]|e] w1] t1]; cbn.
    + exists EmptyString, [], false. split; [reflexivity|exact Hbudget].
    + eexists _, _, _. split; [reflexivity|].
      apply vectorContext_within_budget, Hbudget.
    + exists EmptyString, [], false. split; [reflexivity|exact Hbudget].
  - cbn. exists EmptyString, [], false. split; [reflexivity|exact Hbudget].
Qed.

Lemma budget_settingsUsed (req : QueryRoute.Request) :
  QueryRoute.u_chunkSize (QueryRoute.settingsUsed req)
  * QueryRoute.u_topK (QueryRoute.settingsUsed req)
  = budget req.
Proof.
  unfold budget, requested, QueryRoute.settingsUsed.
  destruct (QueryRoute.settings req) as [s|]; [|reflexivity].
  cbn. destruct (QueryRoute.chunkSize s), (QueryRoute.topK s); reflexivity.
Qed.

Lemma carrying_userPrompt (context question : string) :
  QueryRoute.userPrompt context question = carrying context question.
Proof. reflexivity. Qed.

(** C7, amended.  When the budget [chunkSize * topK] of the request is not
    negative, every completion request of every run of the handler carries
    a context of at most [chunkSize * topK] characters: on the vector
    path, which cuts the joined chunks at the budget, and on the
    direct-text path. *)
Theorem context_within_budget :
  forall req : QueryRoute.Request,
    0 <= budget req ->
    every (withinBudget req) (QueryRoute.postQuery svc db req).
Proof.
  intros req Hbudget. rewrite <- budget_settingsUsed in Hbudget.
  unfold QueryRoute.postQuery.
  apply every_try_catch; [|intros; apply every_ret].
  destruct (QueryRoute.question req) as [|q|] eqn:Hq;
    [apply every_ret| |apply every_throw].
  destruct (JS.blank q); [apply every_ret|].
  unfold QueryRoute.answerQuestion.
  apply every_bind; [apply every_call; intros; exact I|].
  intros [|document documents]; [apply every_ret|].
  destruct (filter QueryRoute.hasTextContent (document :: documents)) as [|doc rest];
    [apply every_ret|].
  apply (every_bind_post _
           (fun searched =>
              JS.length (fst (fst searched))
              <= QueryRoute.u_chunkSize (QueryRoute.settingsUsed req)
                 * QueryRoute.u_topK (QueryRoute.settingsUsed req))).
  { apply ragSearch_every; intros; exact I. }
  { intros w searched Hsearched.
    destruct (ragSearch_within_budget q (QueryRoute.req_documentId req) (document :: documents)
                _ _ w Hbudget) as [context [sources [usedRAG [Hres Hlen]]]].
    rewrite Hres in Hsearched. inversion Hsearched; subst. exact Hlen. }
  intros [[context sources] usedRAG] Hlen. cbn [fst snd] in Hlen.
  apply every_bind.
  { apply every_call. intros r. cbn [withinBudget userContent].
    eexists _, q. split; [exact Hq|]. split; [apply carrying_userPrompt|].
    rewrite <- budget_settingsUsed. fold (JS.length
      (QueryRoute.finalContext (context, sources, usedRAG) (QueryRoute.req_documentId req)
         (doc :: rest) (QueryRoute.u_chunkSize (QueryRoute.settingsUsed req))
         (QueryRoute.u_topK (QueryRoute.settingsUsed req)))).
    unfold QueryRoute.finalContext.
    destruct (negb usedRAG || negb (JS.truthy context)).
    - apply directContext_within_budget, Hbudget.
    - exact Hlen. }
  intros choices. apply every_bind.
  { unfold QueryRoute.firstContent.
    destruct choices as [|[content|] choices]; [apply every_throw|apply every_ret|apply every_throw]. }
  intros answer. apply every_bind.
  { destruct (QueryRoute.specific _); [apply every_call; intros; exact I|apply every_ret]. }
  intros _. apply every_bind; [|intros conversationId; apply every_ret].
  apply saveConversation_every. intros; exact I.
Qed.
End QueryRouteClaims.

Section Fallback.
Context {W : Type} (svc : Services W) (db : Backend W).

(** When the retrieval gives nothing or throws, the vector search of the
    handler leaves an empty context, no source, and [usedRAG] false. *)
Lemma ragSearch_nothing_retrieved (q d : string) (documentId : option string)
      (documents : list Document) (chunkSize topK : Z) (w w1 : W)
      (retrieved : outcome (list RetrievalResult)) (t1 : list event) :
  QueryRoute.specific documentId = Some d ->
  RAGService.queryDocuments svc q (Some d) topK w = (retrieved, w1, t1) ->
  retrieved = Ok [] \/ is_throw retrieved = true ->
  QueryRoute.ragSearch svc q documentId documents chunkSize topK w
  = (Ok (EmptyString, [], false), w1, t1).
Proof.
  intros Hspecific Hquery Hnothing.
  unfold QueryRoute.ragSearch, try_catch. rewrite Hspecific.
  unfold bind. rewrite Hquery.
  destruct Hnothing as [->|Hthrow].
  - cbn. rewrite app_nil_r. reflexivity.
  - destruct retrieved as [chunks|e]; [discriminate|].
    cbn. rewrite app_nil_r. reflexivity.
Qed.

Lemma hasTextContent_storesText (d : Document) :
  QueryRoute.hasTextContent d = true <-> exists text, storesText d text.
Proof.
  unfold QueryRoute.hasTextContent, storesText.
  destruct (textContent d) as [t|]; [|split; [discriminate|intros [text [H _]]; discriminate]].
  split.
  - intros H. apply andb_prop in H. destruct H as [_ H]. apply Z.ltb_lt in H.
    exists t. split; [reflexivity|]. intros Hempty. rewrite Hempty in H. cbn in H. lia.
  - intros [text [Htext Htrim]]. injection Htext as <-.
    destruct t as [|c t]; [now contradiction Htrim|]. cbn [JS.truthy andb].
    apply Z.ltb_lt. unfold JS.length.
    destruct (JS.trim (String c t)); [now contradiction Htrim|]. cbn. lia.
Qed.

Lemma specific_named (documentId : option string) (d : string) :
  documentId = Some d -> d <> EmptyString -> d <> "all"%string ->
  QueryRoute.specific documentId = Some d.
Proof.
  intros -> Hempty Hall. unfold QueryRoute.specific.
  destruct d as [|c d]; [contradiction|]. cbn [JS.truthy andb].
  destruct (String.eqb_spec (String c d) "all"); [contradiction|reflexivity].
Qed.

Lemma topK_settingsUsed (req : QueryRoute.Request) :
  QueryRoute.u_topK (QueryRoute.settingsUsed req) = requested QueryRoute.topK 3 req.
Proof.
  unfold requested, QueryRoute.settingsUsed.
  destruct (QueryRoute.settings req) as [s|]; [|reflexivity].
  cbn. destruct (QueryRoute.topK s); reflexivity.
Qed.

(** The events of saving the conversation are no failures of the
    handler. *)
Lemma saveConversation_run (req : QueryRoute.Request) (q : string)
      (documents : list Document) (answer : string) (w : W) :
  exists conversationId w1 t1,
    QueryRoute.saveConversation db req q documents answer w = (Ok conversationId, w1, t1) /\
    existsb handlerFailed t1 = false.
Proof.
  unfold QueryRoute.saveConversation, try_catch.
  destruct (QueryRoute.specific _); [|eexists _, _, _; split; reflexivity].
  destruct documents as [|d documents]; [eexists _, _, _; split; reflexivity|].
  unfold bind, call.
  destruct (conversationCreate db _ w) as [[newId|e] w1];
    eexists _, _, _; split; reflexivity.
Qed.

(** C6, amended.  The question is asked about one document [d], the
    first of the documents found that stores a text is [doc], and the
    retrieval [queryDocuments] returns the empty list or throws.  Then
    the handler asks for one completion, whose user message carries the
    first [chunkSize * topK] characters of the text stored in [doc].  Its
    response is either the success with the trimmed content of the
    completion as answer, no source and the method "direct", no call
    having failed; or the 500 response, the completion or the update of
    the query counter having failed. *)
Theorem retrieval_failure_answers_from_direct_text :
  forall (req : QueryRoute.Request) (q d text : string) (w w1 w2 : W)
         (before after : list Document) (doc : Document)
         (retrieved : outcome (list RetrievalResult)) (t2 : list event),
    QueryRoute.question req = QueryRoute.QString q ->
    JS.blank q = false ->
    QueryRoute.req_documentId req = Some d ->
    d <> EmptyString ->
    d <> "all"%string ->
    documentFind db (QueryRoute.userId req) (Some d) w = (Ok (before ++ doc :: after), w1) ->
    Forall (fun other => forall t, ~ storesText other t) before ->
    storesText doc text ->
    RAGService.queryDocuments svc q (Some d) (requested QueryRoute.topK 3 req) w1
    = (retrieved, w2, t2) ->
    (retrieved = Ok [] \/ is_throw retrieved = true) ->
    exists (request : CompletionRequest) (completed : outcome (list (option string)))
           (t3 : list event) (response : QueryRoute.Response),
      userContent request
      = carrying (String.substring 0 (Z.to_nat (budget req)) text) q /\
      fst (chatCompletion db request w2) = completed /\
      result (QueryRoute.postQuery svc db req w) = Ok response /\
      trace (QueryRoute.postQuery svc db req w)
      = EvDocumentFind (QueryRoute.userId req) (Some d) (Ok (before ++ doc :: after))
          :: t2 ++ EvChatCompletion request completed :: t3 /\
      match response with
      | QueryRoute.Answered answer sources _ method _ _ _ =>
          exists content choices,
            completed = Ok (Some content :: choices) /\
            answer = JS.trim content /\
            sources = [] /\
            method = "direct"%string /\
            existsb handlerFailed t3 = false
      | QueryRoute.ServerError _ _ =>
          existsb handlerFailed (EvChatCompletion request completed :: t3) = true
      | _ => False
      end.
Proof.
  intros req q d text w w1 w2 before after doc retrieved t2
         Hq Hblank Hd Hempty Hall Hfind Hbefore Hdoc Hquery Hnothing.
  pose proof (specific_named _ _ Hd Hempty Hall) as Hspecific.
  rewrite <- topK_settingsUsed in Hquery.
  assert (Hdocs : filter QueryRoute.hasTextContent (before ++ doc :: after)
                  = doc :: filter QueryRoute.hasTextContent after).
  { rewrite filter_app.
    assert (Hnone : filter QueryRoute.hasTextContent before = []).
    { clear - Hbefore. induction Hbefore as [|other before Hother _ IH]; [reflexivity|].
      cbn [filter]. destruct (QueryRoute.hasTextContent other) eqn:E; [|exact IH].
      apply hasTextContent_storesText in E. destruct E as [t Ht]. now apply Hother in Ht. }
    rewrite Hnone. cbn [app filter].
    assert (Hhas : QueryRoute.hasTextContent doc = true)
      by (apply hasTextContent_storesText; now exists text).
    now rewrite Hhas. }
  remember (before ++ doc :: after) as documents eqn:Hdocuments.
  destruct documents as [|document others]; [destruct before; discriminate|].
  clear Hdocuments. set (documents := document :: others) in *.
  set (used := QueryRoute.settingsUsed req).
  set (request :=
         mkCompletionRequest (QueryRoute.u_aiModel used) QueryRoute.systemInstruction
           (QueryRoute.userPrompt
              (String.substring 0 (Z.to_nat (budget req)) text) q)
           (QueryRoute.u_maxTokens used) (QueryRoute.u_temperature used)).
  exists request, (fst (chatCompletion db request w2)).
  assert (Hrun :
            exists t3 response w',
              QueryRoute.postQuery svc db req w
              = (Ok response, w',
                 EvDocumentFind (QueryRoute.userId req) (Some d) (Ok documents)
                   :: t2 ++ EvChatCompletion request (fst (chatCompletion db request w2))
                   :: t3) /\
              match response with
              | QueryRoute.Answered answer sources _ method _ _ _ =>
                  exists content choices,
                    fst (chatCompletion db request w2) = Ok (Some content :: choices) /\
                    answer = JS.trim content /\
                    sources = [] /\
                    method = "direct"%string /\
                    existsb handlerFailed t3 = false
              | QueryRoute.ServerError _ _ =>
                  existsb handlerFailed
                          (EvChatCompletion request (fst (chatCompletion db request w2)) :: t3)
                  = true
              | _ => False
              end).
  { unfold QueryRoute.postQuery, try_catch. rewrite Hq, Hblank.
    unfold QueryRoute.answerQuestion. fold used. rewrite Hspecific.
    rewrite (bind_call_ok _ _ _ _ _ _ Hfind).
    subst documents. rewrite Hdocs.
    unfold bind at 1.
    rewrite (ragSearch_nothing_retrieved q d _ _ _ _ w1 w2 retrieved t2
               Hspecific Hquery Hnothing).
    assert (Hcontext :
              QueryRoute.finalContext (EmptyString, @nil QueryRoute.Source, false)
                (QueryRoute.req_documentId req)
                (doc :: filter QueryRoute.hasTextContent after)
                (QueryRoute.u_chunkSize used) (QueryRoute.u_topK used)
              = String.substring 0 (Z.to_nat (budget req)) text).
    { unfold QueryRoute.finalContext, QueryRoute.directContext.
      rewrite Hspecific. cbn [negb orb]. unfold QueryRoute.textOf, JS.substring0.
      destruct Hdoc as [-> _]. cbn [QueryRoute.orDefault].
      subst used. now rewrite budget_settingsUsed. }
    rewrite Hcontext. fold request.
    destruct (chatCompletion db request w2) as [[choices|e] w3] eqn:Hchat; cbn [fst].
    - rewrite (bind_call_ok _ _ _ _ _ _ Hchat).
      destruct choices as [|[content|] choices]; cbn [QueryRoute.firstContent].
      + unfold bind, throw, ret. cbn [app]. rewrite app_nil_r.
        eexists [], _, _. split; reflexivity.
      + rewrite bind_ret.
        destruct (findByIdAndUpdate db d w3) as [[u|e] w4] eqn:Hupdate.
        * rewrite (bind_call_ok _ _ _ _ _ _ Hupdate).
          destruct (saveConversation_run req q (document :: others) (JS.trim content) w4)
            as [conversationId [w5 [t5 [Hsave Hnofail]]]].
          unfold bind, ret. rewrite Hsave. cbn [app fst snd]. rewrite app_nil_r.
          eexists (EvFindByIdAndUpdate d (Ok u) :: t5), _, _. split; [reflexivity|].
          exists content, choices. repeat split; try reflexivity. exact Hnofail.
        * rewrite (bind_call_throw _ _ _ _ _ _ Hupdate).
          unfold ret. cbn [app]. rewrite app_nil_r.
          eexists [EvFindByIdAndUpdate d (Throw e)], _, _. split; reflexivity.
      + unfold bind, throw, ret. cbn [app]. rewrite app_nil_r.
        eexists [], _, _. split; reflexivity.
    - rewrite (bind_call_throw _ _ _ _ _ _ Hchat).
      unfold ret. cbn [app]. rewrite app_nil_r.
      eexists [], _, _. split; reflexivity. }
  destruct Hrun as [t3 [response [w' [Hrun Hresponse]]]].
  exists t3, response. rewrite Hrun. unfold result, trace. cbn [fst snd].
  split; [reflexivity|]. split; [reflexivity|]. split; [reflexivity|].
  split; [reflexivity|exact Hresponse].
Qed.
End Fallback.

(** A budget of 8 characters: on the vector path the two chunks joined
    have 19 characters, on the direct-text path (the index is empty) the
    stored text has 10. *)
Lemma context_within_budget_witness :
  Forall (withinBudget smallBudget)
         (trace (QueryRoute.postQuery (Memory.services 384 threeDimensions)
                   (Memory.backend [storedDocument]) smallBudget fiveRecords)) /\
  Forall (withinBudget smallBudget)
         (trace (QueryRoute.postQuery (Memory.services 384 threeDimensions)
                   (Memory.backend [storedDocument]) smallBudget [])).
Proof.
  split.
  - apply (context_within_budget (Memory.services 384 threeDimensions)
             (Memory.backend [storedDocument]) smallBudget).
    vm_compute. discriminate.
  - apply (context_within_budget (Memory.services 384 threeDimensions)
             (Memory.backend [storedDocument]) smallBudget).
    vm_compute. discriminate.
Defined.

(** The two runs of the witness: each asks for one completion, over a
    context cut at 8 characters. *)
Example vector_context_is_cut :
  prompts (trace (QueryRoute.postQuery (Memory.services 384 threeDimensions)
                    (Memory.backend [storedDocument]) smallBudget fiveRecords))
  = [carrying ("gamma" ++ newline ++ newline ++ "-") "what?"] /\
  exists response,
    result (QueryRoute.postQuery (Memory.services 384 threeDimensions)
              (Memory.backend [storedDocument]) smallBudget fiveRecords)
    = Ok response /\
    QueryRoute.method response = Some "vector"%string.
Proof.
  split; [vm_compute; reflexivity|].
  eexists. split; [vm_compute; reflexivity|reflexivity].
Qed.

Example direct_context_is_cut :
  prompts (trace (QueryRoute.postQuery (Memory.services 384 threeDimensions)
                    (Memory.backend [storedDocument]) smallBudget []))
  = [carrying "short te" "what?"] /\
  exists response,
    result (QueryRoute.postQuery (Memory.services 384 threeDimensions)
              (Memory.backend [storedDocument]) smallBudget [])
    = Ok response /\
    QueryRoute.method response = Some "direct"%string.
Proof.
  split; [vm_compute; reflexivity|].
  eexists. split; [vm_compute; reflexivity|reflexivity].
Qed.

(** C7 as stated fails for a negative budget: with [chunkSize = -1] and
    the default [topK = 3] the budget is -3, and the handler asks for a
    completion over the empty context, which has 0 characters. *)
Lemma context_exceeds_negative_budget :
  budget negativeChunkSize = -3 /\
  prompts (trace (QueryRoute.postQuery (Memory.services 384 threeDimensions)
                    (Memory.backend [storedDocument]) negativeChunkSize []))
  = [carrying EmptyString "what?"] /\
  ~ Forall (withinBudget negativeChunkSize)
           (trace (QueryRoute.postQuery (Memory.services 384 threeDimensions)
                     (Memory.backend [storedDocument]) negativeChunkSize [])).
Proof.
  split; [reflexivity|]. split; [vm_compute; reflexivity|].
  intros Hall. rewrite Forall_forall in Hall.
  assert (Hin : exists request r,
             In (EvChatCompletion request r)
                (trace (QueryRoute.postQuery (Memory.services 384 threeDimensions)
                          (Memory.backend [storedDocument]) negativeChunkSize []))).
  { eexists _, _. vm_compute. do 4 right. left. reflexivity. }
  destruct Hin as [request [r Hin]].
  destruct (Hall _ Hin) as [context [q [_ [_ Hlength]]]].
  change (budget negativeChunkSize) with (-3) in Hlength. lia.
Qed.

(** The index is empty, so that the retrieval returns the empty list; the
    budget of 8 characters cuts the stored text of 10. *)
Lemma retrieval_failure_answers_from_direct_text_witness :
  exists (request : CompletionRequest) (response : QueryRoute.Response),
    userContent request = carrying "short te" "what?" /\
    result (QueryRoute.postQuery (Memory.services 384 threeDimensions)
              (Memory.backend [storedDocument]) smallBudget [])
    = Ok response /\
    QueryRoute.method response = Some "direct"%string.
Proof.
  edestruct (retrieval_failure_answers_from_direct_text
               (Memory.services 384 threeDimensions) (Memory.backend [storedDocument])
               smallBudget "what?" "doc1" "short text" [] [] [] [] [] storedDocument)
    as [request [completed [t3 [response [Hcontent [_ [Hresult _]]]]]]].
  - reflexivity.
  - reflexivity.
  - reflexivity.
  - discriminate.
  - discriminate.
  - reflexivity.
  - constructor.
  - split; [reflexivity|vm_compute; discriminate].
  - reflexivity.
  - left. reflexivity.
  - exists request, response. split; [exact Hcontent|]. split; [exact Hresult|].
    vm_compute in Hresult. injection Hresult as <-. reflexivity.
Defined.

(** The embedding provider is down, so that the retrieval throws. *)
Example retrieval_throws_answers_from_direct_text :
  is_throw (result (RAGService.queryDocuments (Memory.services 384 noEmbedding)
                      "what?" (Some "doc1"%string) 2 fiveRecords)) = true /\
  prompts (trace (QueryRoute.postQuery (Memory.services 384 noEmbedding)
                    (Memory.backend [storedDocument]) smallBudget fiveRecords))
  = [carrying "short te" "what?"] /\
  exists response,
    result (QueryRoute.postQuery (Memory.services 384 noEmbedding)
              (Memory.backend [storedDocument]) smallBudget fiveRecords)
    = Ok response /\
    QueryRoute.method response = Some "direct"%string /\
    QueryRoute.success response = true.
Proof.
  split; [reflexivity|]. split; [vm_compute; reflexivity|].
  eexists. split; [vm_compute; reflexivity|]. split; reflexivity.
Qed.

(** C6 as stated fails when the model cannot be reached: the retrieval
    returns the empty list, the handler falls back to the direct text, and
    the completion throws: the response is the 500 one. *)
Lemma retrieval_failure_with_the_model_down :
  result (RAGService.queryDocuments (Memory.services 384 threeDimensions)
            "what?" (Some "doc1"%string) 3 [])
  = Ok [] /\
  prompts (trace (QueryRoute.postQuery (Memory.services 384 threeDimensions)
                    modelIsDown questionAboutDoc1 []))
  = [carrying "short text" "what?"] /\
  exists answer,
    result (QueryRoute.postQuery (Memory.services 384 threeDimensions)
              modelIsDown questionAboutDoc1 [])
    = Ok (QueryRoute.ServerError "the model is not reachable" answer) /\
    QueryRoute.status (QueryRoute.ServerError "the model is not reachable" answer) = 500.
Proof.
  split; [reflexivity|]. split; [vm_compute; reflexivity|].
  eexists. split; [vm_compute; reflexivity|reflexivity].
Qed.

(** ** The order of binary64 numbers

    [findSimilar] sorts with the comparator [b.score - a.score]: what the
    sort does depends on the sign of a floating-point difference.  The
    operations of [float] are specified by their counterparts on
    [spec_float]; over these, the difference [y - x] is above zero exactly
    when [x] is below [y], and the comparison of two numbers is the
    comparison of their values scaled to integers. *)

Section SpecOrder.
Variables prec emax : Z.
Hypothesis Hprec : 0 < prec.
Hypothesis Hemax : prec < emax.

Abbreviation emin := (SpecFloat.emin prec emax).
Abbreviation fexp := (SpecFloat.fexp prec emax).

Lemma digits2_pos_bounds (m : positive) :
  2 ^ (Z.pos (digits2_pos m) - 1) <= Z.pos m < 2 ^ Z.pos (digits2_pos m).
Proof.
  induction m as [m IH|m IH|]; cbn [digits2_pos].
  - rewrite Pos2Z.inj_succ.
    replace (Z.succ (Z.pos (digits2_pos m)) - 1) with (Z.succ (Z.pos (digits2_pos m) - 1)) by lia.
    rewrite !Z.pow_succ_r by lia. lia.
  - rewrite Pos2Z.inj_succ.
    replace (Z.succ (Z.pos (digits2_pos m)) - 1) with (Z.succ (Z.pos (digits2_pos m) - 1)) by lia.
    rewrite !Z.pow_succ_r by lia. lia.
  - cbn. lia.
Qed.

(** A canonical mantissa: at most [prec] digits, and exactly [prec] above
    the least exponent. *)
Lemma canonical_bounds (m : positive) (e : Z) :
  canonical_mantissa prec emax m e = true ->
  emin <= e /\ Z.pos (digits2_pos m) <= prec /\
  (emin < e -> Z.pos (digits2_pos m) = prec).
Proof.
  unfold canonical_mantissa, SpecFloat.fexp. intros H. apply Z.eqb_eq in H. lia.
Qed.

Lemma finite_scaled_bounds (m : positive) (e : Z) :
  bounded prec emax m e = true ->
  0 < Z.pos m * 2 ^ (e - emin) < 2 ^ (emax - emin).
Proof.
  unfold bounded. intros H. apply andb_true_iff in H. destruct H as [Hc He].
  apply Z.leb_le in He. apply canonical_bounds in Hc. destruct Hc as [Hmin [Hd _]].
  pose proof (digits2_pos_bounds m) as [_ Hm].
  split.
  - apply Z.mul_pos_pos; [lia|]. apply Z.pow_pos_nonneg; lia.
  - apply Z.lt_le_trans with (2 ^ prec * 2 ^ (e - emin)).
    + apply Z.mul_lt_mono_pos_r; [apply Z.pow_pos_nonneg; lia|].
      apply Z.lt_le_trans with (2 ^ Z.pos (digits2_pos m)); [exact Hm|].
      apply Z.pow_le_mono_r; lia.
    + rewrite <- Z.pow_add_r by lia. apply Z.pow_le_mono_r; lia.
Qed.

(** Two canonical mantissas compare by exponent first. *)
Lemma canonical_lt_exponent (m1 m2 : positive) (e1 e2 : Z) :
  canonical_mantissa prec emax m1 e1 = true ->
  canonical_mantissa prec emax m2 e2 = true ->
  e1 < e2 ->
  Z.pos m1 * 2 ^ (e1 - emin) < Z.pos m2 * 2 ^ (e2 - emin).
Proof.
  intros H1 H2 Hlt.
  apply canonical_bounds in H1, H2.
  destruct H1 as [Hmin1 [Hd1 _]]. destruct H2 as [Hmin2 [_ Hd2]].
  specialize (Hd2 ltac:(lia)).
  pose proof (digits2_pos_bounds m1) as [_ Hm1].
  pose proof (digits2_pos_bounds m2) as [Hm2 _]. rewrite Hd2 in Hm2.
  replace (e2 - emin) with ((e2 - e1) + (e1 - emin)) by lia.
  rewrite Z.pow_add_r by lia. rewrite Z.mul_assoc.
  apply Z.mul_lt_mono_pos_r; [apply Z.pow_pos_nonneg; lia|].
  apply Z.lt_le_trans with (2 ^ prec).
  - apply Z.lt_le_trans with (2 ^ Z.pos (digits2_pos m1)); [exact Hm1|].
    apply Z.pow_le_mono_r; lia.
  - replace prec with ((prec - 1) + 1) at 1 by lia.
    rewrite Z.pow_add_r by lia.
    assert (H0 : 0 <= 2 ^ (prec - 1)) by (apply Z.pow_nonneg; lia).
    assert (H1 : 2 ^ 1 <= 2 ^ (e2 - e1)) by (apply Z.pow_le_mono_r; lia).
    assert (H2 : 0 <= 2 ^ 1) by (apply Z.pow_nonneg; lia).
    apply Z.mul_le_mono_nonneg; assumption.
Qed.

Lemma finite_compare (m1 m2 : positive) (e1 e2 : Z) :
  canonical_mantissa prec emax m1 e1 = true ->
  canonical_mantissa prec emax m2 e2 = true ->
  match e1 ?= e2 with
  | Lt => Lt
  | Gt => Gt
  | Eq => Pos.compare_cont Eq m1 m2
  end = (Z.pos m1 * 2 ^ (e1 - emin) ?= Z.pos m2 * 2 ^ (e2 - emin)).
Proof.
  intros H1 H2.
  destruct (Z.compare_spec e1 e2) as [->|Hlt|Hgt].
  - change (Pos.compare_cont Eq m1 m2) with (Z.pos m1 ?= Z.pos m2).
    pose proof (canonical_bounds _ _ H2) as [Hmin _].
    apply Zmult_compare_compat_r. apply Z.lt_gt, Z.pow_pos_nonneg; lia.
  - symmetry. apply Z.compare_lt_iff. now apply canonical_lt_exponent.
  - symmetry. apply Z.compare_gt_iff. now apply canonical_lt_exponent.
Qed.

Lemma SFcompare_scaled (x y : spec_float) :
  SpecFloat.valid_binary prec emax x = true -> SpecFloat.valid_binary prec emax y = true ->
  notNaN x -> notNaN y ->
  SFcompare x y = Some (scaled prec emax x ?= scaled prec emax y).
Proof.
  assert (Hinf : 0 < 2 ^ (emax - emin)) by (apply Z.pow_pos_nonneg; unfold SpecFloat.emin; lia).
  intros Hx Hy Nx Ny.
  destruct x as [sx|sx| |sx mx ex], y as [sy|sy| |sy my ey];
    try contradiction; cbn [SFcompare scaled SpecFloat.valid_binary] in *.
  all: try (pose proof (finite_scaled_bounds _ _ Hx) as Bx).
  all: try (pose proof (finite_scaled_bounds _ _ Hy) as By).
  all: try (destruct sx); try (destruct sy); cbn [cond_Zopp]; f_equal; symmetry.
  all: try reflexivity.
  all: try (apply Z.compare_lt_iff; lia).
  all: try (apply Z.compare_gt_iff; lia).
  all: try (apply Z.compare_eq_iff; lia).
  - (* both negative *)
    unfold bounded in Hx, Hy.
    apply andb_true_iff in Hx, Hy. destruct Hx as [Cx _], Hy as [Cy _].
    rewrite <- Z.compare_opp, !Z.opp_involutive.
    rewrite <- (finite_compare my mx ey ex Cy Cx).
    rewrite (Z.compare_antisym ey ex).
    destruct (ey ?= ex); cbn; try reflexivity.
    rewrite Pos.compare_cont_antisym. reflexivity.
  - unfold bounded in Hx, Hy.
    apply andb_true_iff in Hx, Hy. destruct Hx as [Cx _], Hy as [Cy _].
    symmetry. now apply finite_compare.
Qed.

(** *** Subtraction *)

Lemma iter_xO_value (m d : positive) :
  Z.pos (Pos.iter xO m d) = Z.pos m * 2 ^ Z.pos d.
Proof.
  induction d as [|d IH] using Pos.peano_ind.
  - cbn. lia.
  - rewrite Pos.iter_succ, Pos2Z.inj_succ, Z.pow_succ_r by lia.
    rewrite Pos2Z.inj_xO, IH. lia.
Qed.

Lemma shl_align_value (m : positive) (e ez : Z) :
  ez <= e -> Z.pos (fst (shl_align m e ez)) = Z.pos m * 2 ^ (e - ez).
Proof.
  intros Hle. unfold shl_align.
  destruct (ez - e) as [|d|d] eqn:E; cbn [fst]; try lia.
  - replace (e - ez) with 0 by lia. lia.
  - rewrite iter_xO_value. replace (e - ez) with (Z.pos d) by lia. reflexivity.
Qed.

Lemma shl_align_exponent (m : positive) (e ez : Z) :
  emin <= e -> emin <= ez -> emin <= snd (shl_align m e ez).
Proof.
  intros He Hez. unfold shl_align. destruct (ez - e); cbn [snd]; assumption.
Qed.

Lemma shr_1_m (mrs : shr_record) :
  0 <= shr_m mrs -> shr_m (shr_1 mrs) = shr_m mrs / 2.
Proof.
  destruct mrs as [m r s]. cbn [shr_m]. intros Hm.
  destruct m as [|[p|p|]|p]; cbn [shr_1 shr_m]; try lia; try reflexivity.
  - apply Z.div_unique with 1; lia.
  - apply Z.div_unique with 0; lia.
Qed.

Lemma iter_shr_1_m (p : positive) :
  forall mrs : shr_record,
    0 <= shr_m mrs ->
    shr_m (iter_pos shr_1 p mrs) = shr_m mrs / 2 ^ Z.pos p.
Proof.
  assert (Hstep : forall mrs, 0 <= shr_m mrs -> 0 <= shr_m (shr_1 mrs)).
  { intros mrs H. rewrite shr_1_m by assumption. apply Z.div_pos; lia. }
  assert (HxI : forall q, 2 ^ Z.pos q~1 = 2 * (2 ^ Z.pos q * 2 ^ Z.pos q)).
  { intros q. change (Z.pos q~1) with (Z.succ (2 * Z.pos q)).
    rewrite Z.pow_succ_r by lia. now rewrite Z.pow_twice_r. }
  assert (HxO : forall q, 2 ^ Z.pos q~0 = 2 ^ Z.pos q * 2 ^ Z.pos q).
  { intros q. change (Z.pos q~0) with (2 * Z.pos q). now rewrite Z.pow_twice_r. }
  assert (Hpow : forall q, 0 < 2 ^ Z.pos q) by (intros; apply Z.pow_pos_nonneg; lia).
  induction p as [p IH|p IH|]; intros mrs Hm; cbn [iter_pos].
  - assert (H1 : 0 <= shr_m (iter_pos shr_1 p (shr_1 mrs))).
    { rewrite IH by auto. apply Z.div_pos; auto. }
    rewrite IH by assumption. rewrite IH by auto. rewrite shr_1_m by assumption.
    rewrite HxI. pose proof (Hpow p).
    rewrite !Z.div_div by lia. f_equal; ring.
  - assert (H1 : 0 <= shr_m (iter_pos shr_1 p mrs)).
    { rewrite IH by auto. apply Z.div_pos; auto. }
    rewrite IH by assumption. rewrite IH by auto.
    rewrite HxO. pose proof (Hpow p).
    rewrite !Z.div_div by lia. reflexivity.
  - rewrite shr_1_m by assumption. reflexivity.
Qed.

Lemma shr_record_of_loc_m (m : Z) (l : location) : shr_m (shr_record_of_loc m l) = m.
Proof. destruct l as [|[| |]]; reflexivity. Qed.

(** Shifting to the canonical exponent keeps a positive mantissa positive,
    at an exponent that is still at least [emin]. *)
Lemma shr_fexp_positive (m : positive) (e : Z) (l : location) :
  emin <= e ->
  0 < shr_m (fst (shr_fexp prec emax (Z.pos m) e l)) /\
  emin <= snd (shr_fexp prec emax (Z.pos m) e l).
Proof.
  intros He. unfold shr_fexp, shr, SpecFloat.fexp. cbn [Zdigits2].
  pose proof (digits2_pos_bounds m) as [Hlow _].
  destruct (Z.max (Z.pos (digits2_pos m) + e - prec) emin - e) as [|n|n] eqn:En;
    cbn [fst snd]; rewrite ?shr_record_of_loc_m; try lia.
  split; [|lia].
  rewrite iter_shr_1_m by (rewrite shr_record_of_loc_m; lia).
  rewrite shr_record_of_loc_m.
  apply Z.div_str_pos. split; [apply Z.pow_pos_nonneg; lia|].
  apply Z.le_trans with (2 ^ (Z.pos (digits2_pos m) - 1)); [|exact Hlow].
  apply Z.pow_le_mono_r; lia.
Qed.

Lemma round_nearest_even_positive (m : Z) (l : location) :
  0 < m -> 0 < round_nearest_even m l.
Proof.
  intros Hm. unfold round_nearest_even.
  destruct l as [|[| |]]; try lia. destruct (Z.even m); lia.
Qed.

(** The rounding of a positive mantissa at an exponent of at least [emin]
    is never zero and never NaN. *)
Lemma binary_round_aux_sign (s : bool) (m : positive) (e : Z) (l : location) :
  emin <= e ->
  (exists m' e', binary_round_aux prec emax s (Z.pos m) e l = S754_finite s m' e') \/
  binary_round_aux prec emax s (Z.pos m) e l = S754_infinity s.
Proof.
  intros He. unfold binary_round_aux.
  pose proof (shr_fexp_positive m e l He) as [Hm1 He1].
  destruct (shr_fexp prec emax (Z.pos m) e l) as [mrs1 e1]. cbn [fst snd] in *.
  pose proof (round_nearest_even_positive (shr_m mrs1) (loc_of_shr_record mrs1) Hm1) as Hr.
  destruct (round_nearest_even (shr_m mrs1) (loc_of_shr_record mrs1)) as [|m2|m2]; try lia.
  pose proof (shr_fexp_positive m2 e1 loc_Exact He1) as [Hm2 He2].
  destruct (shr_fexp prec emax (Z.pos m2) e1 loc_Exact) as [mrs2 e2]. cbn [fst snd] in *.
  destruct (shr_m mrs2) as [|m3|m3]; try lia.
  destruct (e2 <=? emax - prec); [left; eauto|right; reflexivity].
Qed.

Lemma binary_round_sign (s : bool) (m : positive) (e : Z) :
  emin <= e ->
  (exists m' e', binary_round prec emax s m e = S754_finite s m' e') \/
  binary_round prec emax s m e = S754_infinity s.
Proof.
  intros He. unfold binary_round.
  pose proof (shl_align_exponent m e (SpecFloat.fexp prec emax (Z.pos (digits2_pos m) + e)) He) as Hz.
  destruct (shl_align m e _) as [mz ez]. cbn [snd] in Hz.
  apply binary_round_aux_sign. apply Hz. unfold SpecFloat.fexp. lia.
Qed.

(** Whatever a negative mantissa rounds to, it is not above zero. *)
Lemma binary_round_aux_negative (m e : Z) (l : location) :
  SFltb (S754_zero false) (binary_round_aux prec emax true m e l) = false.
Proof.
  unfold binary_round_aux.
  destruct (shr_fexp prec emax m e l) as [mrs1 e1].
  destruct (shr_fexp prec emax _ e1 loc_Exact) as [mrs2 e2].
  destruct (shr_m mrs2); [reflexivity| |reflexivity].
  destruct (e2 <=? emax - prec); reflexivity.
Qed.

Lemma binary_round_negative (m : positive) (e : Z) :
  SFltb (S754_zero false) (binary_round prec emax true m e) = false.
Proof.
  unfold binary_round. destruct (shl_align _ _ _) as [mz ez].
  apply binary_round_aux_negative.
Qed.

(** The difference [y - x] is above zero exactly when [x] is below [y]. *)
Lemma SFsub_above_zero (x y : spec_float) :
  SpecFloat.valid_binary prec emax x = true ->
  SpecFloat.valid_binary prec emax y = true ->
  SFltb (S754_zero false) (SFsub prec emax y x) = SFltb x y.
Proof.
  intros Hx Hy.
  destruct x as [sx|sx| |sx mx ex], y as [sy|sy| |sy my ey];
    try (destruct sx); try (destruct sy); try reflexivity.
  all: unfold SFltb at 2.
  all: rewrite (SFcompare_scaled _ _ Hx Hy I I).
  all: cbn [SpecFloat.valid_binary] in Hx, Hy.
  all: pose proof (finite_scaled_bounds _ _ Hx) as Bx.
  all: pose proof (finite_scaled_bounds _ _ Hy) as By.
  all: unfold bounded in Hx, Hy; apply andb_true_iff in Hx, Hy.
  all: destruct Hx as [Cx _], Hy as [Cy _].
  all: pose proof (canonical_bounds _ _ Cx) as [Ex _].
  all: pose proof (canonical_bounds _ _ Cy) as [Ey _].
  all: cbn [SFsub scaled cond_Zopp].
  all: assert (Hez : emin <= Z.min ey ex) by lia.
  all: assert (Hpow : 0 < 2 ^ (Z.min ey ex - emin)) by (apply Z.pow_pos_nonneg; lia).
  all: assert (Vx : Z.pos (fst (shl_align mx ex (Z.min ey ex))) * 2 ^ (Z.min ey ex - emin)
                    = Z.pos mx * 2 ^ (ex - emin))
    by (rewrite shl_align_value by lia; rewrite <- Z.mul_assoc, <- Z.pow_add_r by lia;
        do 2 f_equal; lia).
  all: assert (Vy : Z.pos (fst (shl_align my ey (Z.min ey ex))) * 2 ^ (Z.min ey ex - emin)
                    = Z.pos my * 2 ^ (ey - emin))
    by (rewrite shl_align_value by lia; rewrite <- Z.mul_assoc, <- Z.pow_add_r by lia;
        do 2 f_equal; lia).
  all: set (ax := Z.pos (fst (shl_align mx ex (Z.min ey ex)))) in *.
  all: set (ay := Z.pos (fst (shl_align my ey (Z.min ey ex)))) in *.
  all: set (k := 2 ^ (Z.min ey ex - emin)) in *.
  all: set (vx := Z.pos mx * 2 ^ (ex - emin)) in *.
  all: set (vy := Z.pos my * 2 ^ (ey - emin)) in *.
  all: match goal with
       | |- SFltb _ (binary_normalize _ _ ?d _ _) = _ =>
           remember d as D eqn:Ed;
           assert (HD : D * k = d * k) by (rewrite Ed; reflexivity);
           clear Ed
       end.
  all: destruct D as [|p|p]; cbn [binary_normalize].
  all: try (assert (Hs : 0 < Z.pos p * k) by (apply Z.mul_pos_pos; lia)).
  all: try (assert (Hn : Z.neg p * k < 0) by (apply Z.mul_neg_pos; lia)).
  all: rewrite ?binary_round_negative.
  all: try (destruct (binary_round_sign false p (Z.min ey ex) Hez) as [[m' [e' ->]]| ->]).
  all: cbn [SFltb SFcompare].
  all: symmetry.
  all: try (destruct (Z.compare_spec (- vx) (- vy)); try reflexivity; exfalso; lia).
  all: try (destruct (Z.compare_spec (- vx) vy); try reflexivity; exfalso; lia).
  all: try (destruct (Z.compare_spec vx (- vy)); try reflexivity; exfalso; lia).
  all: try (destruct (Z.compare_spec vx vy); try reflexivity; exfalso; lia).
Qed.
End SpecOrder.

Lemma isNumber_notNaN (a : float) : isNumber a <-> notNaN (Prim2SF a).
Proof.
  unfold isNumber, is_nan. rewrite eqb_spec. unfold SFeqb. split.
  - destruct (Prim2SF a); cbn; try discriminate; trivial.
  - intros Hn.
    rewrite (SFcompare_scaled prec emax eq_refl eq_refl _ _
               (Prim2SF_valid a) (Prim2SF_valid a) Hn Hn).
    rewrite Z.compare_refl. reflexivity.
Qed.

Lemma compare_rank (a b : float) :
  isNumber a -> isNumber b ->
  SFcompare (Prim2SF a) (Prim2SF b) = Some (rank a ?= rank b).
Proof.
  intros Ha Hb. apply isNumber_notNaN in Ha, Hb.
  apply (SFcompare_scaled prec emax eq_refl eq_refl); auto using Prim2SF_valid.
Qed.

Lemma compare_numbers (a b : float) :
  SFcompare (Prim2SF a) (Prim2SF b) <> None -> isNumber a /\ isNumber b.
Proof.
  intros H. rewrite !isNumber_notNaN.
  destruct (Prim2SF a), (Prim2SF b); cbn in *; try tauto.
Qed.

Lemma ltb_true (a b : float) :
  (a <? b)%float = true -> isNumber a /\ isNumber b /\ rank a < rank b.
Proof.
  rewrite ltb_spec. unfold SFltb. intros H.
  destruct (compare_numbers a b) as [Ha Hb].
  { destruct (SFcompare _ _); discriminate. }
  rewrite (compare_rank a b Ha Hb) in H.
  destruct (Z.compare_spec (rank a) (rank b)); try discriminate. auto.
Qed.

Lemma ltb_false (a b : float) :
  isNumber a -> isNumber b -> (a <? b)%float = false -> rank b <= rank a.
Proof.
  intros Ha Hb. rewrite ltb_spec. unfold SFltb. rewrite (compare_rank a b Ha Hb).
  destruct (Z.compare_spec (rank a) (rank b)); try discriminate; lia.
Qed.

Lemma leb_rank (a b : float) :
  isNumber a -> isNumber b -> ((a <=? b)%float = true <-> rank a <= rank b).
Proof.
  intros Ha Hb. rewrite leb_spec. unfold SFleb. rewrite (compare_rank a b Ha Hb).
  destruct (Z.compare_spec (rank a) (rank b)); split; intros; try discriminate;
    try reflexivity; lia.
Qed.

Lemma eqb_true (a b : float) : (a =? b)%float = true -> rank a = rank b.
Proof.
  rewrite eqb_spec. unfold SFeqb. intros H.
  destruct (compare_numbers a b) as [Ha Hb].
  { destruct (SFcompare _ _); discriminate. }
  rewrite (compare_rank a b Ha Hb) in H.
  destruct (Z.compare_spec (rank a) (rank b)); try discriminate. assumption.
Qed.

(** The comparator's result [b - a] is positive exactly when [a < b]. *)
Lemma sub_above_zero (a b : float) : (0 <? b - a)%float = (a <? b)%float.
Proof.
  rewrite !ltb_spec, sub_spec.
  change (Prim2SF 0) with (S754_zero false).
  apply (SFsub_above_zero prec emax eq_refl eq_refl); apply Prim2SF_valid.
Qed.

(** ** [findSimilar] *)

Lemma insert_permutation {A} (compare : A -> A -> float) (x : A) (l : list A) :
  Permutation (JS.insert compare x l) (x :: l).
Proof.
  induction l as [|y l IH]; cbn [JS.insert]; [reflexivity|].
  destruct (0 <? compare x y)%float; [|reflexivity].
  rewrite IH. apply perm_swap.
Qed.

Lemma sort_permutation {A} (compare : A -> A -> float) (l : list A) :
  Permutation (JS.sort compare l) l.
Proof.
  induction l as [|x l IH]; cbn; [reflexivity|].
  rewrite insert_permutation. now constructor.
Qed.

Section Ranking.
Import EmbeddingService.

(** With the comparator of [findSimilar], an element moves past the
    elements of a strictly higher score. *)
Lemma insert_byScoreDescending (x y : Scored) (l : list Scored) :
  JS.insert byScoreDescending x (y :: l)
  = if (s_score x <? s_score y)%float
    then y :: JS.insert byScoreDescending x l
    else x :: y :: l.
Proof.
  cbn [JS.insert]. unfold byScoreDescending at 1. rewrite sub_above_zero. reflexivity.
Qed.

Lemma insert_descending (x : Scored) (l : list Scored) :
  isNumber (s_score x) -> numbers l -> descending l ->
  descending (JS.insert byScoreDescending x l).
Proof.
  intros Hx Hl Hsorted. induction Hsorted as [|y l Hsorted IH Hall].
  - repeat constructor.
  - rewrite insert_byScoreDescending.
    inversion Hl as [|? ? Hy Hl']; subst.
    destruct (s_score x <? s_score y)%float eqn:Hlt.
    + constructor; [now apply IH|].
      apply (Permutation_Forall (Permutation_sym (insert_permutation _ x l))).
      constructor; [|assumption].
      apply ltb_true in Hlt. apply leb_rank; [assumption..|lia].
    + apply ltb_false in Hlt; [|assumption..].
      constructor; [now constructor|].
      constructor; [apply leb_rank; assumption|].
      rewrite Forall_forall in *. intros z Hz.
      specialize (Hall z Hz). specialize (Hl' z Hz). cbn beta in Hall, Hl'.
      apply leb_rank in Hall; [|assumption..].
      apply leb_rank; [assumption..|lia].
Qed.

Lemma sort_descending (l : list Scored) :
  numbers l -> descending (JS.sort byScoreDescending l).
Proof.
  induction 1 as [|x l Hx Hl IH]; cbn; [constructor|].
  apply insert_descending; [assumption| |assumption].
  apply (Permutation_Forall (Permutation_sym (sort_permutation _ l))), Hl.
Qed.

(** Stability: among the results of one score, the order is that of the
    input. *)
Lemma insert_stable (score : float) (x : Scored) (l : list Scored) :
  filter (scoreIs score) (JS.insert byScoreDescending x l)
  = filter (scoreIs score) (x :: l).
Proof.
  induction l as [|y l IH]; [reflexivity|].
  rewrite insert_byScoreDescending.
  destruct (s_score x <? s_score y)%float eqn:Hlt; [|reflexivity].
  cbn [filter] in *. rewrite IH.
  destruct (scoreIs score y) eqn:Hy; [|reflexivity].
  destruct (scoreIs score x) eqn:Hx; [|reflexivity].
  exfalso. unfold scoreIs in Hx, Hy.
  apply eqb_true in Hx, Hy. apply ltb_true in Hlt. lia.
Qed.

Lemma sort_stable (score : float) (l : list Scored) :
  filter (scoreIs score) (JS.sort byScoreDescending l) = filter (scoreIs score) l.
Proof.
  induction l as [|x l IH]; [reflexivity|].
  cbn [JS.sort fold_right]. fold (JS.sort byScoreDescending l).
  rewrite insert_stable. cbn [filter]. rewrite IH. reflexivity.
Qed.

(** Scoring keeps the candidates, one result each, in their order. *)
Lemma scoreAll_texts (queryEmbedding : JsEmbedding) (documents : list Candidate) :
  forall scored,
    scoreAll queryEmbedding documents = Ok scored ->
    map s_text scored = map c_text documents /\
    Forall2 (fun d r => similarityTo queryEmbedding d = Ok (s_score r)) documents scored.
Proof.
  induction documents as [|d documents IH]; cbn [scoreAll]; intros scored H.
  - inversion H. split; constructor.
  - destruct (similarityTo queryEmbedding d) as [score|] eqn:Hscore; [|discriminate].
    destruct (scoreAll queryEmbedding documents) as [rest|]; [|discriminate].
    inversion H; subst. destruct (IH rest eq_refl) as [Htexts Hscores].
    cbn. split; [now f_equal|]. constructor; assumption.
Qed.

Context {W : Type} (svc : Services W).

Lemma embedText_ok (text : string) (w w1 : W) (vecA : list float) :
  JS.blank text = false ->
  embedQuery svc text w = (Ok (JsArray vecA), w1) ->
  embedText svc text w = (Ok (JsArray vecA), w1, [EvEmbed text (Ok (JsArray vecA))]).
Proof.
  intros Hblank Hembed. unfold embedText, try_catch. rewrite Hblank.
  rewrite (bind_call_ok _ _ _ _ _ _ Hembed). reflexivity.
Qed.

(** The ranking of [findSimilar].  When the query is embedded and every
    candidate is scored with a number (no score is NaN), [findSimilar]
    returns, for a count [topK] that is not negative, the first [topK] of
    the scored candidates rearranged from the highest score down,
    candidates of equal score in the order of the input. *)
Theorem findSimilar_ranked :
  forall (query : string) (documents : list Candidate) (topK : Z) (w w1 : W)
         (vecA : list float) (scored : list Scored),
    JS.blank query = false ->
    0 <= topK ->
    embedQuery svc query w = (Ok (JsArray vecA), w1) ->
    scoreAll (JsArray vecA) documents = Ok scored ->
    numbers scored ->
    let ranked := JS.sort byScoreDescending scored in
    result (findSimilar svc query documents topK w) = Ok (firstn (Z.to_nat topK) ranked) /\
    Permutation ranked scored /\
    descending ranked /\
    (forall score, filter (scoreIs score) ranked = filter (scoreIs score) scored) /\
    descending (firstn (Z.to_nat topK) ranked).
Proof.
  intros query documents topK w w1 vecA scored Hblank HtopK Hembed Hscored Hnumbers ranked.
  split; [|split; [|split; [|split]]].
  - unfold findSimilar, try_catch, bind.
    rewrite (embedText_ok query w w1 vecA Hblank Hembed).
    rewrite Hscored. cbn. rewrite slice_from_start by assumption. reflexivity.
  - apply sort_permutation.
  - apply sort_descending, Hnumbers.
  - intros score. apply sort_stable.
  - apply StronglySorted_firstn, sort_descending, Hnumbers.
Qed.
End Ranking.

Lemma findSimilar_ranked_witness :
  result (EmbeddingService.findSimilar (Memory.services 384 threeDimensions)
            "what" candidates 3 [])
  = Ok [EmbeddingService.mkScored "beta" 1%float;
        EmbeddingService.mkScored "delta" 1%float;
        EmbeddingService.mkScored "gamma" 0x1.3333333333333p-1%float].
Proof.
  refine (proj1 (findSimilar_ranked (Memory.services 384 threeDimensions)
                   "what" candidates 3 [] [] [1%float; 0%float; 0%float]
                   [EmbeddingService.mkScored "alpha" 0%float;
                    EmbeddingService.mkScored "beta" 1%float;
                    EmbeddingService.mkScored "gamma" 0x1.3333333333333p-1%float;
                    EmbeddingService.mkScored "delta" 1%float]
                   _ _ _ _ _)).
  - reflexivity.
  - lia.
  - reflexivity.
  - reflexivity.
  - repeat constructor.
Defined.

(** ** [findSimilar] with a candidate of zero magnitude *)

Lemma leb_true_numbers (a b : float) :
  (a <=? b)%float = true -> isNumber a /\ isNumber b.
Proof.
  rewrite leb_spec. unfold SFleb. intros H. apply compare_numbers.
  destruct (SFcompare _ _); discriminate.
Qed.

(** A list of two or more results that goes from the highest score down
    holds no NaN. *)
Lemma descending_numbers (l : list EmbeddingService.Scored) :
  descending l -> (2 <= List.length l)%nat -> numbers l.
Proof.
  intros Hsorted. induction Hsorted as [|a l Hsorted IH Hall]; intros Hlen.
  - cbn in Hlen. lia.
  - assert (Hrest : numbers l).
    { unfold numbers. rewrite Forall_forall. intros z Hz.
      rewrite Forall_forall in Hall.
      apply (leb_true_numbers _ _ (Hall z Hz)). }
    constructor; [|exact Hrest].
    destruct l as [|b l]; [cbn in Hlen; lia|].
    inversion Hall as [|? ? Hb _]; subst.
    apply (leb_true_numbers _ _ Hb).
Qed.

(** C9 at the failing input: one candidate has an embedding of zero
    magnitude.  Its score is NaN, every comparison with it is a tie, and
    the candidate of score 0.6 is returned before the one of score 1; no
    arrangement of these scores goes from the highest down. *)
Theorem findSimilar_nan_score_unranked :
  result (EmbeddingService.findSimilar (Memory.services 384 threeDimensions)
            "what" withZeroVector 3 [])
  = Ok scoredWithNaN /\
  (forall arrangement, Permutation arrangement scoredWithNaN -> ~ descending arrangement).
Proof.
  split; [vm_compute; reflexivity|].
  intros arrangement Hperm Hsorted.
  assert (Hlen : (2 <= List.length arrangement)%nat).
  { rewrite (Permutation_length Hperm). cbn. lia. }
  pose proof (descending_numbers arrangement Hsorted Hlen) as Hnumbers.
  apply (Permutation_Forall Hperm) in Hnumbers.
  inversion Hnumbers as [|? ? _ Hrest]; subst.
  inversion Hrest as [|? ? Hnan _]; subst.
  discriminate Hnan.
Qed.

(** * Further properties *)

(** ** The ids of the records *)

Lemma to_uint_not_Nil (n : nat) : Nat.to_uint n <> Decimal.Nil.
Proof.
  assert (E : Nat.to_uint n = Decimal.unorm (Nat.to_uint n)).
  { rewrite <- Unsigned.to_of, Unsigned.of_to. reflexivity. }
  rewrite E. unfold Decimal.unorm. destruct (Decimal.nzhead _); discriminate.
Qed.

Lemma showNat_injective (i j : nat) : JS.showNat i = JS.showNat j -> i = j.
Proof.
  unfold JS.showNat. intros H.
  apply Unsigned.to_uint_inj.
  pose proof (NilZero.usu _ (to_uint_not_Nil i)) as Hi.
  pose proof (NilZero.usu _ (to_uint_not_Nil j)) as Hj.
  rewrite H in Hi. rewrite Hi in Hj. now inversion Hj.
Qed.

Lemma append_cancel_l (s a b : string) : (s ++ a)%string = (s ++ b)%string -> a = b.
Proof.
  induction s as [|c s IH]; cbn; intros H; [assumption|].
  inversion H. auto.
Qed.

Lemma chunkId_injective (documentId : string) (i j : nat) :
  chunkId documentId i = chunkId documentId j -> i = j.
Proof.
  unfold chunkId. intros H. apply append_cancel_l in H.
  apply (append_cancel_l "_chunk_") in H. now apply showNat_injective.
Qed.

Lemma nonBlankFrom_bound (chunks : list string) :
  forall i, Forall (fun p => (i <= fst p)%nat) (nonBlankFrom chunks i).
Proof.
  induction chunks as [|c rest IH]; intros i; cbn; [constructor|].
  assert (H : Forall (fun p => (i <= fst p)%nat) (nonBlankFrom rest (S i))).
  { eapply Forall_impl; [|apply IH]. cbn. intros; lia. }
  destruct (JS.blank c); [assumption|]. constructor; [cbn; lia|assumption].
Qed.

Lemma nonBlankFrom_NoDup (chunks : list string) :
  forall i, NoDup (map fst (nonBlankFrom chunks i)).
Proof.
  induction chunks as [|c rest IH]; intros i; cbn; [constructor|].
  destruct (JS.blank c); [apply IH|]. cbn. constructor; [|apply IH].
  intros Hin. apply in_map_iff in Hin. destruct Hin as [p [Hp Hin]].
  pose proof (nonBlankFrom_bound rest (S i)) as Hb.
  rewrite Forall_forall in Hb. specialize (Hb p Hin). lia.
Qed.

Lemma NoDup_map_injective {A B} (f : A -> B) (l : list A) :
  (forall x y, f x = f y -> x = y) -> NoDup l -> NoDup (map f l).
Proof.
  intros Hinj. induction 1 as [|x l Hx Hl IH]; cbn; constructor; [|assumption].
  intros Hin. apply in_map_iff in Hin. destruct Hin as [y [Hy Hin]].
  apply Hinj in Hy. subst. contradiction.
Qed.

(** ** The batches of [_batchUpsert] *)

Lemma slice_window {A} (l : list A) (i n : nat) :
  JS.slice l (Z.of_nat i) (Z.of_nat (i + n)) = firstn n (skipn i l).
Proof.
  unfold JS.slice. cbv zeta.
  destruct (Z.ltb_spec (Z.of_nat i) 0); [lia|].
  destruct (Z.ltb_spec (Z.of_nat (i + n)) 0); [lia|].
  destruct (Nat.le_gt_cases (List.length l) i) as [Hout|Hin].
  - rewrite !(skipn_all2 l) by lia. now rewrite !firstn_nil.
  - rewrite (Z.min_l (Z.of_nat i)) by lia. rewrite Nat2Z.id.
    destruct (Nat.le_gt_cases (List.length l) (i + n)) as [Hlong|Hshort].
    + rewrite Z.min_r by lia.
      rewrite !firstn_all2; [reflexivity| |]; rewrite length_skipn; lia.
    + rewrite Z.min_l by lia. f_equal. lia.
Qed.

Lemma upserted_app (t1 t2 : list event) : upserted (t1 ++ t2) = upserted t1 ++ upserted t2.
Proof. unfold upserted. apply flat_map_app. Qed.

Section Batch.
Context {W : Type} (svc : Services W).

(** One iteration of the loop, by the answer of the index. *)
Lemma batchLoop_step (fuel : nat) (vectors : list Vector) (i : nat) (w : W) :
  (i < List.length vectors)%nat ->
  let batch := firstn RAGService.BATCH_SIZE (skipn i vectors) in
  RAGService.batchLoop svc (S fuel) vectors i w
  = match upsert svc batch w with
    | (Ok u, w1) =>
        let '(r, w2, t2) := RAGService.batchLoop svc fuel vectors (i + RAGService.BATCH_SIZE) w1 in
        (r, w2, EvUpsert batch (Ok u) :: EvSleep 1000 :: t2)
    | (Throw e, w1) => (Throw e, w1, [EvUpsert batch (Throw e)])
    end.
Proof.
  intros Hi batch. cbn [RAGService.batchLoop].
  destruct (Nat.ltb_spec i (List.length vectors)); [|lia].
  rewrite slice_window. fold batch.
  unfold bind, call, sleep.
  destruct (upsert svc batch w) as [[u|e] w1]; [|reflexivity].
  destruct (RAGService.batchLoop svc fuel vectors (i + RAGService.BATCH_SIZE) w1)
    as [[r w2] t2]. reflexivity.
Qed.

Lemma batchLoop_done (fuel : nat) (vectors : list Vector) (i : nat) (w : W) :
  (List.length vectors <= i)%nat ->
  RAGService.batchLoop svc fuel vectors i w = (Ok tt, w, []).
Proof.
  intros Hi. destruct fuel as [|fuel]; cbn [RAGService.batchLoop]; [reflexivity|].
  destruct (Nat.ltb_spec i (List.length vectors)); [lia|reflexivity].
Qed.

Lemma batchLoop_batchSized (vectors : list Vector) :
  forall (fuel i : nat), every batchSized (RAGService.batchLoop svc fuel vectors i).
Proof.
  induction fuel as [|fuel IH]; intros i w; [constructor|].
  destruct (Nat.le_gt_cases (List.length vectors) i) as [Hout|Hin].
  { rewrite batchLoop_done by assumption. constructor. }
  rewrite batchLoop_step by assumption. cbn zeta.
  assert (Hsize : (1 <= List.length (firstn RAGService.BATCH_SIZE (skipn i vectors)) <= 50)%nat).
  { rewrite length_firstn, length_skipn. unfold RAGService.BATCH_SIZE. lia. }
  destruct (upsert svc _ w) as [[u|e] w1].
  - specialize (IH (i + RAGService.BATCH_SIZE)%nat w1).
    destruct (RAGService.batchLoop svc fuel vectors _ w1) as [[r w2] t2].
    cbn [trace snd] in *. constructor; [exact Hsize|]. constructor; [exact I|exact IH].
  - cbn [trace snd]. constructor; [exact Hsize|constructor].
Qed.

(** What the loop has sent when it ends normally: the vectors from [i]
    on, in their order. *)
Lemma batchLoop_ok (vectors : list Vector) :
  forall (fuel i : nat) (w w1 : W) (t : list event),
    (List.length vectors <= i + fuel)%nat ->
    RAGService.batchLoop svc fuel vectors i w = (Ok tt, w1, t) ->
    upserted t = skipn i vectors.
Proof.
  induction fuel as [|fuel IH]; intros i w w1 t Hfuel Hrun.
  - rewrite batchLoop_done in Hrun by lia. inversion Hrun; subst.
    rewrite skipn_all2 by lia. reflexivity.
  - destruct (Nat.le_gt_cases (List.length vectors) i) as [Hout|Hin].
    { rewrite batchLoop_done in Hrun by lia. inversion Hrun; subst.
      rewrite skipn_all2 by lia. reflexivity. }
    rewrite batchLoop_step in Hrun by assumption. cbn zeta in Hrun.
    destruct (upsert svc _ w) as [[u|e] w2]; [|discriminate].
    destruct (RAGService.batchLoop svc fuel vectors (i + RAGService.BATCH_SIZE) w2)
      as [[r w3] t3] eqn:Hrest.
    injection Hrun as Hr Hw Ht. subst r w3 t.
    change (upserted (EvUpsert ?b (Ok u) :: EvSleep 1000 :: t3))
      with (firstn RAGService.BATCH_SIZE (skipn i vectors) ++ upserted t3).
    assert (Hfuel' : (List.length vectors <= i + RAGService.BATCH_SIZE + fuel)%nat)
      by (unfold RAGService.BATCH_SIZE; lia).
    rewrite (IH _ _ _ _ Hfuel' Hrest).
    rewrite <- (firstn_skipn RAGService.BATCH_SIZE (skipn i vectors)) at 2.
    rewrite skipn_skipn. f_equal. f_equal. lia.
Qed.

(** The loop throws only what an upsert threw, and that upsert is its last
    event; an upsert that failed ends the loop. *)
Lemma batchLoop_throw (vectors : list Vector) :
  forall (fuel i : nat) (w : W),
    match RAGService.batchLoop svc fuel vectors i w with
    | (Ok _, _, t) => forall batch e, ~ In (EvUpsert batch (Throw e)) t
    | (Throw e, _, t) =>
        exists batch t1,
          t = t1 ++ [EvUpsert batch (Throw e)] /\
          forall batch' e', ~ In (EvUpsert batch' (Throw e')) t1
    end.
Proof.
  induction fuel as [|fuel IH]; intros i w.
  - cbn. intros batch e [].
  - destruct (Nat.le_gt_cases (List.length vectors) i) as [Hout|Hin].
    { rewrite batchLoop_done by assumption. intros batch e []. }
    rewrite batchLoop_step by assumption. cbn zeta.
    destruct (upsert svc _ w) as [[u|e] w1].
    + specialize (IH (i + RAGService.BATCH_SIZE)%nat w1).
      destruct (RAGService.batchLoop svc fuel vectors _ w1) as [[[u'|e] w2] t2].
      * intros batch e [H|[H|H]]; try discriminate. exact (IH batch e H).
      * destruct IH as [batch [t1 [-> Hclean]]].
        exists batch, (EvUpsert (firstn RAGService.BATCH_SIZE (skipn i vectors)) (Ok u)
                         :: EvSleep 1000 :: t1).
        split; [reflexivity|].
        intros batch' e' [H|[H|H]]; try discriminate. exact (Hclean batch' e' H).
    + exists (firstn RAGService.BATCH_SIZE (skipn i vectors)), [].
      split; [reflexivity|]. intros batch' e' [].
Qed.
End Batch.

(** ** Runs of [indexDocument] *)

Lemma every_impl {W A} (P Q : event -> Prop) (m : M W A) :
  (forall e, P e -> Q e) -> every P m -> every Q m.
Proof.
  intros H Hm w. eapply Forall_impl; [exact H|apply Hm].
Qed.

Lemma noUpsert_upserted (t : list event) : noUpsert t -> upserted t = [].
Proof.
  induction 1 as [|e t He _ IH]; [reflexivity|].
  cbn [upserted flat_map]. fold (upserted t). rewrite IH.
  destruct e; try reflexivity. discriminate He.
Qed.

Lemma noUpsert_not_In (t : list event) (batch : list Vector) (r : outcome unit) :
  noUpsert t -> ~ In (EvUpsert batch r) t.
Proof.
  unfold noUpsert. rewrite Forall_forall. intros H Hin.
  specialize (H _ Hin). discriminate H.
Qed.

Section Index.
Context {W : Type} (svc : Services W).

Lemma checkDimension_noUpsert (vectors : list Vector) :
  every notUpsert (RAGService.checkDimension svc vectors).
Proof.
  intros w. rewrite checkDimension_trace. repeat constructor.
Qed.

Lemma verifyUpload_noUpsert (vectors : list Vector) :
  every notUpsert (RAGService.verifyUpload svc vectors).
Proof.
  unfold RAGService.verifyUpload.
  apply every_try_catch; [|intros _; apply every_ret].
  apply every_bind; [apply every_call; reflexivity|].
  intros _. apply every_bind; [apply every_call; reflexivity|].
  intros _. apply every_ret.
Qed.

(** The embedding loop, when it ends normally: one record per chunk that
    is not blank, in the order of the chunks, and one embedding call per
    record. *)
Lemma embedChunks_built (documentId : string) (chunks : list string) :
  forall (i : nat) (vectors built : list Vector) (w w1 : W) (t : list event),
    RAGService.embedChunks svc documentId chunks i vectors w = (Ok built, w1, t) ->
    exists new,
      built = vectors ++ new /\
      Forall2 (builtFrom documentId) (nonBlankFrom chunks i) new /\
      t = map embedEvent new.
Proof.
  induction chunks as [|chunk rest IH]; intros i vectors built w w1 t;
    cbn [RAGService.embedChunks nonBlankFrom].
  - unfold ret. intros H. inversion H; subst. exists [].
    split; [now rewrite app_nil_r|]. split; constructor.
  - destruct (JS.blank chunk); [apply IH|].
    destruct (embedQuery svc chunk w) as [[embedding|e] w2] eqn:Hembed.
    + rewrite (bind_call_ok _ _ _ _ _ _ Hembed).
      destruct (RAGService.validEmbedding embedding) eqn:Hvalid; cbn [negb].
      * destruct (RAGService.embedChunks svc documentId rest (S i) _ w2)
          as [[r w3] t3] eqn:Hrest.
        intros H. inversion H; subst.
        destruct (IH _ _ _ _ _ _ Hrest) as [new [Hbuilt [Hnew Ht]]].
        exists (RAGService.chunkVector documentId i chunk embedding :: new).
        destruct embedding as [| | |[|x xs]]; try discriminate.
        split; [rewrite Hbuilt, <- app_assoc; reflexivity|]. split.
        -- constructor; [|assumption].
           split; [reflexivity|]. split; [reflexivity|]. discriminate.
        -- rewrite Ht. reflexivity.
      * unfold throw. discriminate.
    + rewrite (bind_call_throw _ _ _ _ _ _ Hembed). discriminate.
Qed.

(** The shape of a run of [commitVectors] on vectors: the dimension check,
    the batches, and, when no upsert failed, the pause and the
    verification. *)
Lemma commitVectors_run (v : Vector) (vs : list Vector) (w : W) :
  exists wD tD rB wB tB,
    RAGService.checkDimension svc (v :: vs) w = (Ok tt, wD, tD) /\
    RAGService._batchUpsert svc (v :: vs) wD = (rB, wB, tB) /\
    match rB with
    | Throw e => RAGService.commitVectors svc (v :: vs) w = (Throw e, wB, tD ++ tB)
    | Ok _ =>
        exists wV tV,
          RAGService.verifyUpload svc (v :: vs) wB = (Ok tt, wV, tV) /\
          RAGService.commitVectors svc (v :: vs) w
          = (Ok (map id (v :: vs)), wV, tD ++ tB ++ EvSleep 3000 :: tV)
    end.
Proof.
  pose proof (checkDimension_never_throws svc (v :: vs) w) as HD.
  destruct (RAGService.checkDimension svc (v :: vs) w) as [[rD wD] tD] eqn:ED.
  cbn in HD. subst rD.
  destruct (RAGService._batchUpsert svc (v :: vs) wD) as [[rB wB] tB] eqn:EB.
  exists wD, tD, rB, wB, tB. split; [reflexivity|]. split; [exact EB|].
  unfold RAGService.commitVectors, bind. rewrite ED, EB.
  destruct rB as [u|e]; [|reflexivity].
  pose proof (verifyUpload_never_throws svc (v :: vs) wB) as HV.
  destruct (RAGService.verifyUpload svc (v :: vs) wB) as [[rV wV] tV] eqn:EV.
  cbn in HV. subst rV.
  exists wV, tV. split; [reflexivity|].
  unfold sleep, ret. rewrite EV, app_nil_r. reflexivity.
Qed.

Lemma commitVectors_ok (vectors : list Vector) (w w1 : W) (ids : list string)
      (t : list event) :
  RAGService.commitVectors svc vectors w = (Ok ids, w1, t) ->
  vectors <> [] /\ ids = map id vectors /\ upserted t = vectors.
Proof.
  destruct vectors as [|v vs]; [discriminate|]. intros Hrun.
  destruct (commitVectors_run v vs w) as [wD [tD [rB [wB [tB [HD [HB Hrest]]]]]]].
  destruct rB as [u|e]; [|rewrite Hrest in Hrun; discriminate].
  destruct Hrest as [wV [tV [HV Hcommit]]].
  rewrite Hcommit in Hrun. injection Hrun as Hids Hw Ht. subst ids w1 t.
  split; [discriminate|]. split; [reflexivity|].
  pose proof (checkDimension_noUpsert (v :: vs) w) as HnD.
  pose proof (verifyUpload_noUpsert (v :: vs) wB) as HnV.
  rewrite HD in HnD. rewrite HV in HnV. cbn [trace snd] in HnD, HnV.
  destruct u.
  unfold RAGService._batchUpsert in HB.
  apply batchLoop_ok in HB; [|lia].
  rewrite !upserted_app.
  change (upserted (EvSleep 3000 :: tV)) with (upserted tV).
  rewrite (noUpsert_upserted _ HnD), (noUpsert_upserted _ HnV), HB, app_nil_r.
  reflexivity.
Qed.

(** A successful run of [indexDocument], taken apart. *)
Lemma indexDocument_ok (documentId text : string) (w : W) (ids : list string) :
  result (RAGService.indexDocument svc documentId text w) = Ok ids ->
  exists chunks vectors,
    splitText svc 500 100 text = Ok chunks /\
    vectors <> [] /\
    Forall2 (builtFrom documentId) (nonBlankFrom chunks 0) vectors /\
    ids = map id vectors /\
    upserted (trace (RAGService.indexDocument svc documentId text w)) = vectors /\
    filter is_embed (trace (RAGService.indexDocument svc documentId text w))
    = map embedEvent vectors.
Proof.
  intros Hok.
  destruct (indexDocument_run svc documentId text w) as [[_ Hthrow]|[chunks [Hsplit Hrun]]].
  { rewrite Hok in Hthrow. discriminate. }
  destruct (RAGService.embedChunks svc documentId chunks 0 [] w)
    as [[[vectors|e] w1] t1] eqn:Hembed.
  2: { rewrite Hrun in Hok. discriminate. }
  destruct (embedChunks_built _ _ _ _ _ _ _ _ Hembed) as [new [Hbuilt [Hnew Ht1]]].
  cbn [app] in Hbuilt. subst new.
  destruct (RAGService.commitVectors svc vectors w1) as [[r2 w2] t2] eqn:Hcommit.
  cbn [result world trace fst snd] in Hrun. rewrite Hrun in Hok |- *.
  cbn [result trace fst snd] in Hok |- *. subst r2.
  destruct (commitVectors_ok _ _ _ _ _ Hcommit) as [Hne [Hids Hsent]].
  exists chunks, vectors. repeat split; try assumption.
  - rewrite upserted_app, Hsent.
    pose proof (embedChunks_noUpsert svc documentId chunks 0 [] w) as Hn.
    rewrite Hembed in Hn. cbn [trace snd] in Hn.
    rewrite (noUpsert_upserted _ Hn). reflexivity.
  - rewrite filter_app.
    pose proof (commitVectors_noEmbed svc vectors w1) as Hn.
    rewrite Hcommit in Hn. cbn [trace snd] in Hn.
    assert (H2 : filter is_embed t2 = []).
    { clear -Hn. induction Hn as [|e t He _ IH]; [reflexivity|].
      cbn [filter]. unfold notEmbed in He. rewrite He. exact IH. }
    rewrite H2, app_nil_r, Ht1.
    clear. induction vectors as [|v vs IH]; [reflexivity|].
    cbn [map filter embedEvent is_embed]. f_equal. exact IH.
Qed.
End Index.

Lemma builtFrom_ids (documentId : string) (chunks : list (nat * string))
      (vectors : list Vector) :
  Forall2 (builtFrom documentId) chunks vectors ->
  map id vectors = map (fun p => chunkId documentId (fst p)) chunks.
Proof.
  induction 1 as [|p v chunks vectors [Hid _] _ IH]; [reflexivity|].
  cbn [map]. now rewrite Hid, IH.
Qed.

Section IndexDocumentFurther.
Context {W : Type} (svc : Services W).

(** When [indexDocument] succeeds, the ids it returns are those of the
    records it has sent to the index, in the order sent; there is at least
    one, and no id occurs twice. *)
Theorem indexDocument_returns_upserted_ids :
  forall (documentId text : string) (w : W) (ids : list string),
    result (RAGService.indexDocument svc documentId text w) = Ok ids ->
    map id (upserted (trace (RAGService.indexDocument svc documentId text w))) = ids /\
    ids <> [] /\
    NoDup ids.
Proof.
  intros documentId text w ids Hok.
  destruct (indexDocument_ok svc documentId text w ids Hok)
    as [chunks [vectors [_ [Hne [Hbuilt [Hids [Hsent _]]]]]]].
  rewrite Hsent. split; [now symmetry|]. split.
  - subst ids. destruct vectors; [contradiction|discriminate].
  - subst ids. rewrite (builtFrom_ids _ _ _ Hbuilt).
    rewrite <- (map_map fst (chunkId documentId)).
    apply NoDup_map_injective; [apply chunkId_injective|apply nonBlankFrom_NoDup].
Qed.

(** When [indexDocument] succeeds, the records it has sent to the index
    are, in order, one per chunk of the text that is not blank: for the
    chunk at position [i] a record with the id [documentId_chunk_i], the
    metadata [documentId], [i] and the chunk's text, and as values the
    non-empty embedding that the one embedding call for that chunk
    returned. *)
Theorem indexDocument_one_record_per_chunk :
  forall (documentId text : string) (w : W) (ids : list string),
    result (RAGService.indexDocument svc documentId text w) = Ok ids ->
    exists chunks,
      splitText svc 500 100 text = Ok chunks /\
      Forall2 (builtFrom documentId) (nonBlankFrom chunks 0)
              (upserted (trace (RAGService.indexDocument svc documentId text w))) /\
      filter is_embed (trace (RAGService.indexDocument svc documentId text w))
      = map embedEvent (upserted (trace (RAGService.indexDocument svc documentId text w))).
Proof.
  intros documentId text w ids Hok.
  destruct (indexDocument_ok svc documentId text w ids Hok)
    as [chunks [vectors [Hsplit [_ [Hbuilt [_ [Hsent Hembeds]]]]]]].
  exists chunks. rewrite Hsent. auto.
Qed.

Lemma commitVectors_batchSized (vectors : list Vector) :
  every batchSized (RAGService.commitVectors svc vectors).
Proof.
  unfold RAGService.commitVectors. destruct vectors as [|v vs]; [apply every_throw|].
  apply every_bind.
  { apply (every_impl notUpsert); [|apply checkDimension_noUpsert].
    intros [] H; try exact I; discriminate H. }
  intros _. apply every_bind; [apply batchLoop_batchSized|].
  intros _. apply every_bind; [apply every_sleep; exact I|].
  intros _. apply every_bind; [|intros _; apply every_ret].
  apply (every_impl notUpsert); [|apply verifyUpload_noUpsert].
  intros [] H; try exact I; discriminate H.
Qed.

(** In every run of [indexDocument], whatever its outcome, each upsert
    carries at least one record and at most [BATCH_SIZE] = 50. *)
Theorem indexDocument_batches_of_at_most_50 :
  forall (documentId text : string),
    every batchSized (RAGService.indexDocument svc documentId text).
Proof.
  intros documentId text. unfold RAGService.indexDocument.
  destruct (JS.blank text); [apply every_throw|].
  apply every_bind.
  { unfold RAGService.splitDocument. destruct (splitText svc 500 100 text);
      [apply every_ret|apply every_throw]. }
  intros [|chunk chunks]; [apply every_throw|].
  apply every_bind; [|intros vectors; apply commitVectors_batchSized].
  apply (every_impl notUpsert); [|apply embedChunks_noUpsert].
  intros [] H; try exact I; discriminate H.
Qed.

Lemma commitVectors_notDelete (vectors : list Vector) :
  every notDelete (RAGService.commitVectors svc vectors).
Proof.
  unfold RAGService.commitVectors. destruct vectors as [|v vs]; [apply every_throw|].
  apply every_bind.
  { intros w. rewrite checkDimension_trace. repeat constructor. }
  intros _. apply every_bind.
  { unfold RAGService._batchUpsert. generalize 0%nat.
    induction (List.length (v :: vs)) as [|fuel IH]; intros i; cbn [RAGService.batchLoop];
      [apply every_ret|].
    destruct (i <? _)%nat; [|apply every_ret].
    apply every_bind; [apply every_call; intros; exact I|].
    intros _. apply every_bind; [apply every_sleep; exact I|].
    intros _. apply IH. }
  intros _. apply every_bind; [apply every_sleep; exact I|].
  intros _. apply every_bind; [|intros _; apply every_ret].
  unfold RAGService.verifyUpload.
  apply every_try_catch; [|intros _; apply every_ret].
  apply every_bind; [apply every_call; intros; exact I|].
  intros _. apply every_bind; [apply every_call; intros; exact I|].
  intros _. apply every_ret.
Qed.

Lemma embedChunks_embeds (documentId : string) (chunks : list string) :
  forall (i : nat) (vectors : list Vector),
    every (fun e => is_embed e = true)
          (RAGService.embedChunks svc documentId chunks i vectors).
Proof.
  induction chunks as [|chunk rest IH]; intros i vectors; cbn [RAGService.embedChunks].
  - apply every_ret.
  - destruct (JS.blank chunk); [apply IH|].
    apply every_bind; [apply every_call; reflexivity|].
    intros embedding. destruct (negb _); [apply every_throw|apply IH].
Qed.

Lemma indexDocument_notDelete (documentId text : string) :
  every notDelete (RAGService.indexDocument svc documentId text).
Proof.
  unfold RAGService.indexDocument.
  destruct (JS.blank text); [apply every_throw|].
  apply every_bind.
  { unfold RAGService.splitDocument. destruct (splitText svc 500 100 text);
      [apply every_ret|apply every_throw]. }
  intros [|chunk chunks]; [apply every_throw|].
  apply every_bind; [|intros vectors; apply commitVectors_notDelete].
  apply (every_impl (fun e => is_embed e = true)); [|apply embedChunks_embeds].
  intros [] H; try exact I; discriminate H.
Qed.

(** What an upsert decides, in a run of [indexDocument] that reached the
    upserts: the run throws what the first failed upsert threw, that upsert
    being its last event; it succeeds when no upsert failed. *)
Lemma indexDocument_upserts (documentId text : string) (w : W)
      (batch : list Vector) (r : outcome unit) :
  In (EvUpsert batch r) (trace (RAGService.indexDocument svc documentId text w)) ->
  match result (RAGService.indexDocument svc documentId text w) with
  | Ok _ =>
      forall batch' e',
        ~ In (EvUpsert batch' (Throw e'))
             (trace (RAGService.indexDocument svc documentId text w))
  | Throw e =>
      exists batch' t1,
        trace (RAGService.indexDocument svc documentId text w)
        = t1 ++ [EvUpsert batch' (Throw e)] /\
        forall batch'' e'', ~ In (EvUpsert batch'' (Throw e'')) t1
  end.
Proof.
  intros Hin.
  destruct (indexDocument_run svc documentId text w) as [[Ht _]|[chunks [_ Hrun]]].
  { rewrite Ht in Hin. destruct Hin. }
  pose proof (embedChunks_noUpsert svc documentId chunks 0 [] w) as Hn.
  destruct (RAGService.embedChunks svc documentId chunks 0 [] w)
    as [[[vectors|e] w1] t1]; cbn [trace snd] in Hn.
  2: { rewrite Hrun in Hin. exfalso. exact (noUpsert_not_In _ _ _ Hn Hin). }
  rewrite Hrun in Hin |- *. cbn [result trace fst snd] in Hin |- *.
  destruct vectors as [|v vs].
  { cbn in Hin. rewrite app_nil_r in Hin. exfalso. exact (noUpsert_not_In _ _ _ Hn Hin). }
  destruct (commitVectors_run svc v vs w1) as [wD [tD [rB [wB [tB [HD [HB Hrest]]]]]]].
  pose proof (checkDimension_noUpsert svc (v :: vs) w1) as HnD.
  rewrite HD in HnD. cbn [trace snd] in HnD.
  pose proof (batchLoop_throw svc (v :: vs) (List.length (v :: vs)) 0 wD) as Hloop.
  unfold RAGService._batchUpsert in HB. rewrite HB in Hloop.
  destruct rB as [u|e].
  - destruct Hrest as [wV [tV [HV Hcommit]]]. rewrite Hcommit. cbn [result trace fst snd].
    pose proof (verifyUpload_noUpsert svc (v :: vs) wB) as HnV.
    rewrite HV in HnV. cbn [trace snd] in HnV.
    intros batch' e' H.
    apply in_app_or in H. destruct H as [H|H]; [exact (noUpsert_not_In _ _ _ Hn H)|].
    apply in_app_or in H. destruct H as [H|H]; [exact (noUpsert_not_In _ _ _ HnD H)|].
    apply in_app_or in H. destruct H as [H|[H|H]];
      [exact (Hloop _ _ H)|discriminate H|exact (noUpsert_not_In _ _ _ HnV H)].
  - rewrite Hrest. cbn [result trace fst snd].
    destruct Hloop as [batch' [tB1 [-> Hclean]]].
    exists batch', (t1 ++ tD ++ tB1). split; [now rewrite !app_assoc|].
    intros batch'' e'' H.
    apply in_app_or in H. destruct H as [H|H]; [exact (noUpsert_not_In _ _ _ Hn H)|].
    apply in_app_or in H. destruct H as [H|H]; [exact (noUpsert_not_In _ _ _ HnD H)|].
    exact (Hclean _ _ H).
Qed.

(** When an upsert fails during [indexDocument], the call throws that
    upsert's error and the failed upsert is the last thing it did: no batch
    is sent after it.  The batches sent before it are not taken back: no
    run of [indexDocument] deletes from the index. *)
Theorem indexDocument_upsert_failure_aborts :
  forall (documentId text : string) (w : W) (batch : list Vector) (e : string),
    In (EvUpsert batch (Throw e)) (trace (RAGService.indexDocument svc documentId text w)) ->
    result (RAGService.indexDocument svc documentId text w) = Throw e /\
    (exists before,
        trace (RAGService.indexDocument svc documentId text w)
        = before ++ [EvUpsert batch (Throw e)] /\
        forall batch' e', ~ In (EvUpsert batch' (Throw e')) before) /\
    Forall notDelete (trace (RAGService.indexDocument svc documentId text w)).
Proof.
  intros documentId text w batch e Hin.
  pose proof (indexDocument_upserts documentId text w batch (Throw e) Hin) as H.
  pose proof (indexDocument_notDelete documentId text w) as Hd.
  destruct (RAGService.indexDocument svc documentId text w) as [[[ids|e'] w1] t].
  - cbn [result trace fst snd] in *. exfalso. exact (H _ _ Hin).
  - cbn [result trace fst snd] in *.
    destruct H as [batch' [t1 [Ht Hclean]]]. subst t.
    apply in_app_or in Hin. destruct Hin as [Hin|[Hin|[]]].
    + exfalso. exact (Hclean _ _ Hin).
    + inversion Hin; subst. split; [reflexivity|]. split; [|exact Hd].
      exists t1. split; [reflexivity|exact Hclean].
Qed.

(** Once [indexDocument] has sent a batch, only a failed upsert makes it
    fail: when every upsert of the run succeeded, the call returns
    normally, whatever [describeIndexStats] and the verification query
    answered or threw. *)
Theorem indexDocument_fails_only_by_upsert :
  forall (documentId text : string) (w : W) (batch : list Vector) (r : outcome unit),
    In (EvUpsert batch r) (trace (RAGService.indexDocument svc documentId text w)) ->
    (forall batch' e',
        ~ In (EvUpsert batch' (Throw e'))
             (trace (RAGService.indexDocument svc documentId text w))) ->
    exists ids, result (RAGService.indexDocument svc documentId text w) = Ok ids.
Proof.
  intros documentId text w batch r Hin Hclean.
  pose proof (indexDocument_upserts documentId text w batch r Hin) as H.
  destruct (RAGService.indexDocument svc documentId text w) as [[[ids|e'] w1] t].
  - exists ids. reflexivity.
  - cbn [result trace fst snd] in *. exfalso.
    destruct H as [batch' [t1 [Ht _]]]. subst t.
    apply (Hclean batch' e'). apply in_or_app. right. left. reflexivity.
Qed.
End IndexDocumentFurther.

Lemma indexDocument_returns_upserted_ids_witness :
  map id (upserted (trace (RAGService.indexDocument (Memory.services 384 threeDimensions)
                             "doc1" "short text" [])))
  = ["doc1_chunk_0"%string] /\
  ["doc1_chunk_0"%string] <> [] /\
  NoDup ["doc1_chunk_0"%string].
Proof.
  apply (indexDocument_returns_upserted_ids (Memory.services 384 threeDimensions)
           "doc1" "short text" [] ["doc1_chunk_0"%string]).
  vm_compute. reflexivity.
Defined.

Lemma indexDocument_one_record_per_chunk_witness :
  exists chunks,
    TextChunker.splitText 500 100 "short text" = Ok chunks /\
    Forall2 (builtFrom "doc1") (nonBlankFrom chunks 0)
            (upserted (trace (RAGService.indexDocument (Memory.services 384 threeDimensions)
                                "doc1" "short text" []))) /\
    filter is_embed (trace (RAGService.indexDocument (Memory.services 384 threeDimensions)
                              "doc1" "short text" []))
    = map embedEvent
          (upserted (trace (RAGService.indexDocument (Memory.services 384 threeDimensions)
                              "doc1" "short text" []))).
Proof.
  apply (indexDocument_one_record_per_chunk (Memory.services 384 threeDimensions)
           "doc1" "short text" [] ["doc1_chunk_0"%string]).
  vm_compute. reflexivity.
Defined.

Lemma indexDocument_upsert_failure_aborts_witness :
  result (RAGService.indexDocument (rejecting threeDimensions) "doc1" "short text" [])
  = Throw "the index rejected the upsert".
Proof.
  refine (proj1 (indexDocument_upsert_failure_aborts (rejecting threeDimensions)
                   "doc1" "short text" [] [doc1_chunk_0]
                   "the index rejected the upsert" _)).
  vm_compute. right. right. left. reflexivity.
Defined.

Lemma indexDocument_fails_only_by_upsert_witness :
  exists ids,
    result (RAGService.indexDocument (writeOnly threeDimensions) "doc1" "short text" [])
    = Ok ids.
Proof.
  apply (indexDocument_fails_only_by_upsert (writeOnly threeDimensions)
           "doc1" "short text" [] [doc1_chunk_0] (Ok tt)).
  - vm_compute. right. right. left. reflexivity.
  - vm_compute. intros batch' e' H.
    repeat (destruct H as [H|H]; [discriminate H|]). exact H.
Defined.

(** ** Which failures make a computation throw *)

Section ThrowsWhen.
Context {W : Type} (failed : event -> bool).

Lemma throwsWhen_ret {A} (a : A) : throwsWhen (W := W) failed false (ret a).
Proof. intros w. reflexivity. Qed.

Lemma throwsWhen_throw {A} (e : string) : throwsWhen failed true (@throw W A e).
Proof. intros w. reflexivity. Qed.

Lemma throwsWhen_bind {A B} (already : bool) (m : M W A) (k : A -> M W B) :
  throwsWhen failed already m ->
  (forall a, throwsWhen failed already (k a)) ->
  throwsWhen failed already (bind m k).
Proof.
  intros Hm Hk w. specialize (Hm w). unfold bind.
  destruct (m w) as [[[a|e] w1] t1]; cbn [result trace fst snd is_throw] in *.
  - specialize (Hk a w1).
    destruct (k a w1) as [[r w2] t2]; cbn [result trace fst snd] in *.
    rewrite existsb_app, Hk.
    destruct already; [discriminate Hm|]. cbn [orb] in *. now rewrite <- Hm.
  - exact Hm.
Qed.

Lemma throwsWhen_call {A B} (f : W -> outcome A * W) (log : outcome A -> event)
      (k : A -> M W B) :
  (forall e, failed (log (Throw e)) = true) ->
  (forall a, throwsWhen failed (failed (log (Ok a))) (k a)) ->
  throwsWhen failed false (bind (call f log) k).
Proof.
  intros Hthrow Hk w. unfold bind, call.
  destruct (f w) as [[a|e] w1]; cbn [result trace fst snd is_throw].
  - specialize (Hk a w1).
    destruct (k a w1) as [[r w2] t2]; cbn [result trace fst snd app existsb orb] in *.
    exact Hk.
  - cbn. now rewrite Hthrow.
Qed.

(** A [try] whose [catch] returns, around calls that are no failures. *)
Lemma throwsWhen_caught {A} (m : M W A) (a : A) :
  every (fun e => failed e = false) m ->
  throwsWhen failed false (try_catch m (fun _ => ret a)).
Proof.
  intros Hm w. specialize (Hm w). unfold try_catch.
  assert (Hclean : forall t, Forall (fun e => failed e = false) t -> existsb failed t = false).
  { induction 1 as [|e t He _ IH]; [reflexivity|]. cbn. now rewrite He, IH. }
  destruct (m w) as [[[x|e] w1] t1]; cbn [result trace fst snd is_throw orb ret] in *.
  - symmetry. now apply Hclean.
  - rewrite app_nil_r. symmetry. now apply Hclean.
Qed.
End ThrowsWhen.

Section Returns.
Context {W : Type}.

Lemma returns_ret {A} (Q : A -> Prop) (a : A) : Q a -> returns (W := W) Q (ret a).
Proof. intros H w a' E. inversion E. now subst. Qed.

Lemma returns_throw {A} (Q : A -> Prop) (e : string) : returns Q (@throw W A e).
Proof. intros w a E. discriminate E. Qed.

Lemma returns_bind {A B} (P : A -> Prop) (Q : B -> Prop) (m : M W A) (k : A -> M W B) :
  returns P m -> (forall a, P a -> returns Q (k a)) -> returns Q (bind m k).
Proof.
  intros Hm Hk w b. specialize (Hm w). unfold bind, result in *.
  destruct (m w) as [[[a|e] w1] t1]; cbn [fst] in *; [|discriminate].
  specialize (Hk a (Hm a eq_refl) w1 b). unfold result in Hk.
  destruct (k a w1) as [[r w2] t2]. exact Hk.
Qed.

Lemma returns_try_catch {A} (Q : A -> Prop) (m : M W A) (h : string -> M W A) :
  returns Q m -> (forall e, returns Q (h e)) -> returns Q (try_catch m h).
Proof.
  intros Hm Hh w a. specialize (Hm w). unfold try_catch, result in *.
  destruct (m w) as [[[x|e] w1] t1]; cbn [fst] in *; [apply Hm|].
  specialize (Hh e w1 a). unfold result in Hh.
  destruct (h e w1) as [[r w2] t2]. exact Hh.
Qed.

Lemma returns_any {A} (m : M W A) : returns (fun _ => True) m.
Proof. intros w a _. exact I. Qed.
End Returns.

(** ** Failures of [queryDocuments] *)

Section Query.
Context {W : Type} (svc : Services W).

(** [queryDocuments] throws exactly when the embedding call threw or
    resolved to null, or the query of the index threw; an index that
    answers no match, and a [describeIndexStats] that then fails, are no
    errors. *)
Theorem queryDocuments_throws_iff_retrieval_failed :
  forall (question : string) (documentId : option string) (topK : Z) (w : W),
    is_throw (result (RAGService.queryDocuments svc question documentId topK w))
    = existsb retrievalFailed
              (trace (RAGService.queryDocuments svc question documentId topK w)).
Proof.
  intros question documentId topK.
  change (throwsWhen retrievalFailed false
            (RAGService.queryDocuments svc question documentId topK)).
  unfold RAGService.queryDocuments.
  destruct (JS.blank question); [apply throwsWhen_ret|].
  apply throwsWhen_call; [reflexivity|].
  intros embedding.
  assert (Hquery :
            throwsWhen retrievalFailed false
              (bind (call (query svc (QueryByVector embedding (Z.max topK 10) true
                                        (RAGService.filterFor documentId)))
                          (EvQuery (QueryByVector embedding (Z.max topK 10) true
                                      (RAGService.filterFor documentId))))
                    (fun results =>
                       match matches results with
                       | None | Some [] =>
                           bind (RAGService.logIndexStats svc) (fun _ => ret [])
                       | Some ms =>
                           ret (JS.slice (map RAGService.toResult
                                            (filter RAGService.hasText ms)) 0 topK)
                       end))).
  { apply throwsWhen_call; [reflexivity|].
    intros results. cbn [retrievalFailed].
    assert (Hlog : throwsWhen retrievalFailed false
                     (bind (RAGService.logIndexStats svc)
                           (fun _ => ret (@nil RetrievalResult)))).
    { apply throwsWhen_bind; [|intros; apply throwsWhen_ret].
      apply throwsWhen_caught.
      apply every_bind; [apply every_call; reflexivity|intros; apply every_ret]. }
    destruct (matches results) as [[|m ms]|]; [exact Hlog|apply throwsWhen_ret|exact Hlog]. }
  destruct embedding; cbn [retrievalFailed];
    [apply throwsWhen_throw|apply throwsWhen_throw|exact Hquery..].
Qed.
End Query.

(** ** The calls of the query route *)

Section Route.
Context {W : Type} (svc : Services W) (db : Backend W).

(** One property of single events, through the whole handler. *)
Lemma postQuery_every (P : event -> Prop) (req : QueryRoute.Request) :
  (forall text r, QueryRoute.specific (QueryRoute.req_documentId req) <> None ->
                  P (EvEmbed text r)) ->
  (forall options r, QueryRoute.specific (QueryRoute.req_documentId req) <> None ->
                     P (EvQuery options r)) ->
  (forall r, QueryRoute.specific (QueryRoute.req_documentId req) <> None ->
             P (EvDescribeIndexStats r)) ->
  (forall u byId r, P (EvDocumentFind u byId r)) ->
  (forall request r, P (EvChatCompletion request r)) ->
  (forall d r, QueryRoute.specific (QueryRoute.req_documentId req) <> None ->
               P (EvFindByIdAndUpdate d r)) ->
  (forall conversation r q,
      QueryRoute.question req = QueryRoute.QString q ->
      QueryRoute.specific (QueryRoute.req_documentId req) <> None ->
      conv_userId conversation = QueryRoute.userId req ->
      conv_question conversation = q ->
      conv_title conversation
      = (if 60 <? JS.length q then (JS.substring0 q 60 ++ "...")%string else q) ->
      P (EvConversationCreate conversation r)) ->
  every P (QueryRoute.postQuery svc db req).
Proof.
  intros He Hq Hd Hf Hc Hu Hs. unfold QueryRoute.postQuery.
  apply every_try_catch; [|intros; apply every_ret].
  destruct (QueryRoute.question req) as [|q|] eqn:Hquestion;
    [apply every_ret| |apply every_throw].
  destruct (JS.blank q); [apply every_ret|].
  unfold QueryRoute.answerQuestion.
  apply every_bind; [apply every_call; apply Hf|].
  intros [|document documents]; [apply every_ret|].
  destruct (filter QueryRoute.hasTextContent (document :: documents)) as [|doc rest];
    [apply every_ret|].
  apply every_bind.
  { unfold QueryRoute.ragSearch.
    apply every_try_catch; [|intros; apply every_ret].
    destruct (QueryRoute.specific _) eqn:Hspecific; [|apply every_ret].
    apply every_bind; [|intros [|chunk chunks]; apply every_ret].
    apply queryDocuments_every; intros; [apply He|apply Hq|apply Hd]; discriminate. }
  intros searched. apply every_bind; [apply every_call; apply Hc|].
  intros choices. apply every_bind.
  { unfold QueryRoute.firstContent.
    destruct choices as [|[content|] choices];
      [apply every_throw|apply every_ret|apply every_throw]. }
  intros answer. apply every_bind.
  { destruct (QueryRoute.specific _) eqn:Hspecific; [|apply every_ret].
    apply every_call. intros r. apply Hu. discriminate. }
  intros _. apply every_bind; [|intros; apply every_ret].
  apply saveConversation_every. intros conversation r Hsp Huser Hquest Htitle.
  now apply (Hs conversation r q).
Qed.

(** The query route reads the vector index and never writes to it: no run
    of the handler sends an upsert or a deletion. *)
Theorem postQuery_never_writes_index :
  forall req : QueryRoute.Request, every notWrite (QueryRoute.postQuery svc db req).
Proof.
  intros req. apply postQuery_every; intros; exact I.
Qed.

(** A question about all documents (no [documentId], or 'all') involves no
    retrieval: the handler calls the document search and the completion
    and nothing else: no embedding, no query of the index, no update of a
    query counter, no conversation saved. *)
Theorem postQuery_all_documents_no_retrieval :
  forall req : QueryRoute.Request,
    QueryRoute.specific (QueryRoute.req_documentId req) = None ->
    every findOrCompletion (QueryRoute.postQuery svc db req).
Proof.
  intros req Hall. apply postQuery_every; intros; try exact I; contradiction.
Qed.

(** Every conversation the handler saves belongs to the user of the
    request and carries the question as asked; its title is the question
    when that has at most 60 characters, and never has more than 63. *)
Theorem postQuery_saved_conversation :
  forall req : QueryRoute.Request, every (conversationOf req) (QueryRoute.postQuery svc db req).
Proof.
  intros req. apply postQuery_every; intros; try exact I.
  cbn [conversationOf]. subst q. split; [assumption|]. split; [assumption|].
  match goal with H : conv_title _ = _ |- _ => rewrite H end.
  destruct (Z.ltb_spec 60 (JS.length (conv_question conversation))).
  - split; [|lia]. unfold JS.length, JS.substring0.
    rewrite length_append, substring_prefix_length. cbn. lia.
  - split; [lia|reflexivity].
Qed.
End Route.

(** ** The responses of the query route *)

Lemma throwsWhen_thrown {W A B} (failed : event -> bool) (m : M W A) (k : A -> M W B) :
  throwsWhen failed true m -> throwsWhen failed true (bind m k).
Proof.
  intros Hm w. specialize (Hm w). unfold bind.
  destruct (m w) as [[[a|e] w1] t1]; cbn [result trace fst snd is_throw orb] in *;
    [discriminate Hm|reflexivity].
Qed.

Lemma completions_app (t1 t2 : list event) :
  completions (t1 ++ t2) = (completions t1 + completions t2)%nat.
Proof. unfold completions. now rewrite filter_app, length_app. Qed.

Section AtMost.
Context {W : Type}.

Lemma atMost_ret {A} (a : A) : atMost (W := W) 0 (ret a).
Proof. intros w. cbn. lia. Qed.

Lemma atMost_weaken {A} (a b : nat) (m : M W A) : (a <= b)%nat -> atMost a m -> atMost b m.
Proof. intros Hab Hm w. specialize (Hm w). lia. Qed.

Lemma atMost_none {A} (m : M W A) :
  every (fun e => is_completion e = false) m -> atMost 0 m.
Proof.
  intros Hm w. specialize (Hm w). unfold completions.
  induction Hm as [|e t He _ IH]; [cbn; lia|].
  cbn [filter]. now rewrite He.
Qed.

Lemma atMost_bind {A B} (a b : nat) (m : M W A) (k : A -> M W B) :
  atMost a m -> (forall x, atMost b (k x)) -> atMost (a + b) (bind m k).
Proof.
  intros Hm Hk w. specialize (Hm w). unfold bind.
  destruct (m w) as [[[x|e] w1] t1]; cbn [trace snd] in *; [|lia].
  specialize (Hk x w1). destruct (k x w1) as [[r w2] t2]. cbn [trace snd] in *.
  rewrite completions_app. lia.
Qed.

Lemma atMost_try_catch {A} (a b : nat) (m : M W A) (h : string -> M W A) :
  atMost a m -> (forall e, atMost b (h e)) -> atMost (a + b) (try_catch m h).
Proof.
  intros Hm Hh w. specialize (Hm w). unfold try_catch.
  destruct (m w) as [[[x|e] w1] t1]; cbn [trace snd] in *; [lia|].
  specialize (Hh e w1). destruct (h e w1) as [[r w2] t2]. cbn [trace snd] in *.
  rewrite completions_app. lia.
Qed.
End AtMost.

Section Respond.
Context {W : Type} (svc : Services W) (db : Backend W).

Lemma answerQuestion_throwsWhen (req : QueryRoute.Request) (q : string) :
  throwsWhen handlerFailed false (QueryRoute.answerQuestion svc db req q).
Proof.
  unfold QueryRoute.answerQuestion.
  apply throwsWhen_call; [reflexivity|].
  intros [|document documents]; cbn [handlerFailed]; [apply throwsWhen_ret|].
  destruct (filter QueryRoute.hasTextContent (document :: documents)) as [|doc rest];
    [apply throwsWhen_ret|].
  apply throwsWhen_bind.
  { apply throwsWhen_caught.
    destruct (QueryRoute.specific _); [|apply every_ret].
    apply every_bind; [|intros [|chunk chunks]; apply every_ret].
    apply queryDocuments_every; reflexivity. }
  intros searched. apply throwsWhen_call; [reflexivity|].
  intros [|[content|] choices]; cbn [handlerFailed QueryRoute.firstContent].
  - apply throwsWhen_thrown, throwsWhen_throw.
  - apply throwsWhen_bind; [apply throwsWhen_ret|].
    intros answer.
    assert (Hsave : forall documents' : list Document,
               throwsWhen handlerFailed false
                 (bind (QueryRoute.saveConversation db req q documents' answer)
                       (fun conversationId =>
                          ret (QueryRoute.Answered answer (snd (fst searched)) conversationId
                                 (if snd searched then "vector" else "direct")%string
                                 (List.length (doc :: rest))
                                 (map originalName (doc :: rest))
                                 (QueryRoute.settingsUsed req))))).
    { intros documents'. apply throwsWhen_bind; [|intros; apply throwsWhen_ret].
      unfold QueryRoute.saveConversation. apply throwsWhen_caught.
      destruct (QueryRoute.specific _); [|apply every_ret].
      destruct documents'; [apply every_ret|].
      apply every_bind; [apply every_call; reflexivity|intros; apply every_ret]. }
    destruct (QueryRoute.specific _).
    + apply throwsWhen_call; [reflexivity|]. intros u. apply Hsave.
    + apply throwsWhen_bind; [apply throwsWhen_ret|]. intros u. apply Hsave.
  - apply throwsWhen_thrown, throwsWhen_throw.
Qed.

Lemma answerQuestion_not_500 (req : QueryRoute.Request) (q : string) :
  returns (fun response => QueryRoute.status response <> 500)
          (QueryRoute.answerQuestion svc db req q).
Proof.
  unfold QueryRoute.answerQuestion.
  apply (returns_bind (fun _ => True)); [apply returns_any|].
  intros [|document documents] _; [apply returns_ret; discriminate|].
  destruct (filter QueryRoute.hasTextContent (document :: documents)) as [|doc rest];
    [apply returns_ret; discriminate|].
  apply (returns_bind (fun _ => True)); [apply returns_any|]. intros searched _.
  apply (returns_bind (fun _ => True)); [apply returns_any|]. intros choices _.
  apply (returns_bind (fun _ => True)); [apply returns_any|]. intros answer _.
  apply (returns_bind (fun _ => True)); [apply returns_any|]. intros u _.
  apply (returns_bind (fun _ => True)); [apply returns_any|]. intros conversationId _.
  apply returns_ret. discriminate.
Qed.

(** The handler always answers: no exception leaves it.  Its answer is a
    500 exactly when the question is a truthy value that is no string
    (the check of the question then throws), or the search of the document
    store threw, the completion threw or came without a content in its
    first choice, or the update of the query counter threw.  No failure
    of the retrieval and no failure to save the conversation makes the
    request fail. *)
Theorem postQuery_responds_500_iff_handler_failed :
  forall (req : QueryRoute.Request) (w : W),
    exists response,
      result (QueryRoute.postQuery svc db req w) = Ok response /\
      (QueryRoute.status response =? 500)
      = questionWithoutTrim req
        || existsb handlerFailed (trace (QueryRoute.postQuery svc db req w)).
Proof.
  intros req w. unfold QueryRoute.postQuery, try_catch, questionWithoutTrim.
  destruct (QueryRoute.question req) as [|q|].
  - eexists. split; reflexivity.
  - set (inner := if JS.blank q then ret (QueryRoute.BadRequest "Question is required")
                  else QueryRoute.answerQuestion svc db req q).
    assert (Hthrows : throwsWhen handlerFailed false inner).
    { subst inner.
      destruct (JS.blank q); [apply throwsWhen_ret|apply answerQuestion_throwsWhen]. }
    assert (Hstatus : returns (fun response => QueryRoute.status response <> 500) inner).
    { subst inner.
      destruct (JS.blank q); [apply returns_ret; discriminate|apply answerQuestion_not_500]. }
    specialize (Hthrows w). specialize (Hstatus w).
    destruct (inner w) as [[[response|e] w1] t1];
      cbn [result trace fst snd is_throw orb ret] in *.
    + exists response. split; [reflexivity|].
      rewrite <- Hthrows. apply Z.eqb_neq. now apply Hstatus.
    + eexists. split; [reflexivity|]. rewrite app_nil_r, <- Hthrows. reflexivity.
  - eexists. split; reflexivity.
Qed.

(** A request with a question that is falsy, or a blank string, is
    answered 400 before anything is called: no event, and the world as it
    was. *)
Lemma postQuery_question_required :
  forall (req : QueryRoute.Request) (w : W),
    QueryRoute.question req <> QueryRoute.QTruthy ->
    (forall q, QueryRoute.question req = QueryRoute.QString q -> JS.blank q = true) ->
    QueryRoute.postQuery svc db req w
    = (Ok (QueryRoute.BadRequest "Question is required"), w, []).
Proof.
  intros req w Htext Hblank. unfold QueryRoute.postQuery, try_catch.
  destruct (QueryRoute.question req) as [|q|]; [reflexivity| |contradiction].
  rewrite (Hblank q eq_refl). reflexivity.
Qed.

(** When the user's search finds no document, or none with a text, the
    handler answers 200 without success and without an answer from the
    model: the search of the document store is its only call. *)
Theorem postQuery_nothing_to_search :
  forall (req : QueryRoute.Request) (q : string) (w w1 : W) (documents : list Document),
    QueryRoute.question req = QueryRoute.QString q ->
    JS.blank q = false ->
    documentFind db (QueryRoute.userId req)
                 (QueryRoute.specific (QueryRoute.req_documentId req)) w
    = (Ok documents, w1) ->
    filter QueryRoute.hasTextContent documents = [] ->
    exists message answer,
      QueryRoute.postQuery svc db req w
      = (Ok (QueryRoute.NoAnswer message answer), w1,
         [EvDocumentFind (QueryRoute.userId req)
                         (QueryRoute.specific (QueryRoute.req_documentId req))
                         (Ok documents)]).
Proof.
  intros req q w w1 documents Hq Hblank Hfind Hnone.
  unfold QueryRoute.postQuery, try_catch. rewrite Hq, Hblank.
  unfold QueryRoute.answerQuestion.
  rewrite (bind_call_ok _ _ _ _ _ _ Hfind).
  destruct documents as [|document documents]; [eexists _, _; reflexivity|].
  rewrite Hnone. eexists _, _. reflexivity.
Qed.

Lemma ragSearch_sources (question : string) (documentId : option string)
      (documents : list Document) (chunkSize topK : Z) :
  1 <= topK ->
  returns (fun searched =>
             (snd searched = false /\ snd (fst searched) = []) \/
             (snd searched = true /\ snd (fst searched) <> [] /\
              Z.of_nat (List.length (snd (fst searched))) <= topK /\
              Forall (fun s => JS.length (QueryRoute.src_text s) <= 303)
                     (snd (fst searched))))
          (QueryRoute.ragSearch svc question documentId documents chunkSize topK).
Proof.
  intros HtopK. unfold QueryRoute.ragSearch.
  apply returns_try_catch; [|intros; apply returns_ret; left; split; reflexivity].
  destruct (QueryRoute.specific documentId);
    [|apply returns_ret; left; split; reflexivity].
  apply (returns_bind (fun _ => True)); [apply returns_any|].
  intros [|chunk chunks] _; apply returns_ret; [left; split; reflexivity|].
  right. cbn [fst snd]. split; [reflexivity|].
  rewrite slice_from_start by lia. split; [|split].
  - destruct (Z.to_nat topK) eqn:E; [lia|]. discriminate.
  - rewrite length_map, length_firstn. lia.
  - rewrite Forall_forall. intros source Hsource. apply in_map_iff in Hsource.
    destruct Hsource as [c [<- _]]. cbn [QueryRoute.sourceOf QueryRoute.src_text].
    unfold JS.length, JS.substring0. rewrite length_append, substring_prefix_length.
    cbn. lia.
Qed.

(** With a count [topK] of at least 1, the sources of an answer agree with
    its method: a direct answer lists no source; a vector answer lists at
    least one and at most [topK], each a preview of at most 303
    characters. *)
Theorem postQuery_sources_agree_with_method :
  forall (req : QueryRoute.Request) (w : W) (response : QueryRoute.Response),
    1 <= QueryRoute.u_topK (QueryRoute.settingsUsed req) ->
    result (QueryRoute.postQuery svc db req w) = Ok response ->
    sourcesAgree (QueryRoute.u_topK (QueryRoute.settingsUsed req)) response.
Proof.
  intros req w response HtopK. revert w response.
  change (returns (sourcesAgree (QueryRoute.u_topK (QueryRoute.settingsUsed req)))
                  (QueryRoute.postQuery svc db req)).
  unfold QueryRoute.postQuery.
  apply returns_try_catch; [|intros; apply returns_ret; exact I].
  destruct (QueryRoute.question req) as [|q|];
    [apply returns_ret; exact I| |apply returns_throw].
  destruct (JS.blank q); [apply returns_ret; exact I|].
  unfold QueryRoute.answerQuestion.
  apply (returns_bind (fun _ => True)); [apply returns_any|].
  intros [|document documents] _; [apply returns_ret; exact I|].
  destruct (filter QueryRoute.hasTextContent (document :: documents)) as [|doc rest];
    [apply returns_ret; exact I|].
  eapply returns_bind; [apply ragSearch_sources; exact HtopK|].
  intros [[context sources] usedRAG] Hsearched. cbn [fst snd] in Hsearched.
  apply (returns_bind (fun _ => True)); [apply returns_any|]. intros choices _.
  apply (returns_bind (fun _ => True)); [apply returns_any|]. intros answer _.
  apply (returns_bind (fun _ => True)); [apply returns_any|]. intros u _.
  apply (returns_bind (fun _ => True)); [apply returns_any|]. intros conversationId _.
  apply returns_ret. cbn [sourcesAgree fst snd].
  destruct Hsearched as [[-> ->]|[-> H]]; [left; split; reflexivity|right].
  split; [reflexivity|exact H].
Qed.

(** A request costs at most one completion: no run of the handler asks the
    model twice. *)
Theorem postQuery_at_most_one_completion :
  forall (req : QueryRoute.Request) (w : W),
    (completions (trace (QueryRoute.postQuery svc db req w)) <= 1)%nat.
Proof.
  intros req. change (atMost 1 (QueryRoute.postQuery svc db req)).
  unfold QueryRoute.postQuery.
  apply (atMost_try_catch 1 0); [|intros; apply atMost_ret].
  destruct (QueryRoute.question req) as [|q|];
    [apply (atMost_weaken 0), atMost_ret; lia| |intros w; cbn; lia].
  destruct (JS.blank q); [apply (atMost_weaken 0), atMost_ret; lia|].
  unfold QueryRoute.answerQuestion.
  apply (atMost_bind 0 1); [apply atMost_none, every_call; reflexivity|].
  intros [|document documents]; [apply (atMost_weaken 0), atMost_ret; lia|].
  destruct (filter QueryRoute.hasTextContent (document :: documents)) as [|doc rest];
    [apply (atMost_weaken 0), atMost_ret; lia|].
  apply (atMost_bind 0 1); [apply atMost_none, ragSearch_every; reflexivity|].
  intros searched. apply (atMost_bind 1 0).
  { intros w. rewrite call_trace. cbn. lia. }
  intros choices. apply atMost_none.
  apply every_bind.
  { unfold QueryRoute.firstContent.
    destruct choices as [|[content|] choices];
      [apply every_throw|apply every_ret|apply every_throw]. }
  intros answer. apply every_bind.
  { destruct (QueryRoute.specific _); [apply every_call; reflexivity|apply every_ret]. }
  intros _. apply every_bind; [|intros; apply every_ret].
  apply saveConversation_every. reflexivity.
Qed.
End Respond.

(** A question that is no string: the check of the question throws, the
    handler answers 500 and has called nothing. *)
Example postQuery_question_is_a_number :
  exists answer,
    QueryRoute.postQuery (Memory.services 384 threeDimensions)
      (Memory.backend [storedDocument]) questionIsANumber [doc1_chunk_0]
    = (Ok (QueryRoute.ServerError "question.trim is not a function" answer),
       [doc1_chunk_0], []).
Proof. eexists. reflexivity. Qed.

Lemma postQuery_all_documents_no_retrieval_witness :
  Forall findOrCompletion
         (trace (QueryRoute.postQuery (Memory.services 384 threeDimensions)
                   (Memory.backend [storedDocument]) questionAboutAll [doc1_chunk_0])).
Proof.
  apply (postQuery_all_documents_no_retrieval (Memory.services 384 threeDimensions)
           (Memory.backend [storedDocument]) questionAboutAll).
  reflexivity.
Defined.

Lemma postQuery_nothing_to_search_witness :
  exists message answer,
    QueryRoute.postQuery (Memory.services 384 threeDimensions) (Memory.backend [])
      questionAboutDoc1 []
    = (Ok (QueryRoute.NoAnswer message answer), [],
       [EvDocumentFind "user1" (Some "doc1"%string) (Ok [])]).
Proof.
  apply (postQuery_nothing_to_search (Memory.services 384 threeDimensions)
           (Memory.backend []) questionAboutDoc1 "what?" [] [] []).
  - reflexivity.
  - reflexivity.
  - reflexivity.
  - reflexivity.
Defined.

Lemma postQuery_sources_agree_with_method_witness :
  exists response,
    result (QueryRoute.postQuery (Memory.services 384 threeDimensions)
              (Memory.backend [storedDocument]) questionAboutDoc1 [doc1_chunk_0])
    = Ok response /\
    QueryRoute.method response = Some "vector"%string /\
    sourcesAgree 3 response.
Proof.
  eexists. split; [vm_compute; reflexivity|]. split; [reflexivity|].
  apply (postQuery_sources_agree_with_method (Memory.services 384 threeDimensions)
           (Memory.backend [storedDocument]) questionAboutDoc1 [doc1_chunk_0]).
  - vm_compute. discriminate.
  - vm_compute. reflexivity.
Defined.

(** ** Symmetry of [cosineSimilarity] *)

(** The product of two binary64 numbers does not depend on their order. *)
Lemma SFmul_comm (prec emax : Z) (x y : spec_float) :
  SFmul prec emax x y = SFmul prec emax y x.
Proof.
  destruct x as [sx|sx| |sx mx ex], y as [sy|sy| |sy my ey]; cbn [SFmul];
    try reflexivity; try (now rewrite xorb_comm).
  rewrite xorb_comm, Pos.mul_comm, Z.add_comm. reflexivity.
Qed.

Lemma mul_comm (a b : float) : (a * b)%float = (b * a)%float.
Proof.
  apply Prim2SF_inj. rewrite !mul_spec. apply SFmul_comm.
Qed.

Lemma accumulate_swap (vecA vecB : list float) :
  forall dotProduct normA normB : float,
    EmbeddingService.accumulate vecB vecA dotProduct normB normA
    = let '(d, na, nb) := EmbeddingService.accumulate vecA vecB dotProduct normA normB in
      (d, nb, na).
Proof.
  revert vecB. induction vecA as [|a vecA IH]; intros [|b vecB] dotProduct normA normB;
    cbn [EmbeddingService.accumulate]; try reflexivity.
  rewrite (mul_comm b a). apply IH.
Qed.

(** [cosineSimilarity] is symmetric: the two vectors can be exchanged, for
    the value returned (NaN included) and for the error thrown. *)
Theorem cosineSimilarity_symmetric :
  forall vecA vecB : list float,
    EmbeddingService.cosineSimilarity vecA vecB = EmbeddingService.cosineSimilarity vecB vecA.
Proof.
  intros vecA vecB. unfold EmbeddingService.cosineSimilarity.
  rewrite (Nat.eqb_sym (List.length vecB)).
  destruct (negb _); [reflexivity|].
  rewrite (accumulate_swap vecA vecB).
  destruct (EmbeddingService.accumulate vecA vecB 0 0 0) as [[d na] nb].
  now rewrite (mul_comm (sqrt nb)).
Qed.

(** ** Errors and results of [findSimilar] *)

Lemma slice_head {A} (l : list A) (n : Z) : exists m, JS.slice l 0 n = firstn m l.
Proof.
  unfold JS.slice. cbv zeta.
  assert (H0 : (0 <? 0) = false) by reflexivity. rewrite H0.
  rewrite (Z.min_l 0) by lia. cbn [Z.to_nat skipn]. eexists. reflexivity.
Qed.

Section Similar.
Import EmbeddingService.
Context {W : Type} (svc : Services W).

Lemma scoreAll_mismatch (vecA : list float) (documents : list Candidate) (doc : Candidate) :
  In doc documents ->
  List.length (c_embedding doc) <> List.length vecA ->
  scoreAll (JsArray vecA) documents = Throw "Vectors must have the same length".
Proof.
  intros Hin Hlen. induction documents as [|d documents IH]; [destruct Hin|].
  cbn [scoreAll similarityTo].
  destruct (Nat.eq_dec (List.length vecA) (List.length (c_embedding d))) as [Heq|Hneq].
  - rewrite (cosineSimilarity_same_length _ _ Heq).
    destruct (accumulate _ _ _ _ _) as [[dp na] nb].
    destruct Hin as [->|Hin]; [congruence|]. now rewrite (IH Hin).
  - now rewrite (cosineSimilarity_length_mismatch _ _ Hneq).
Qed.

(** One candidate whose embedding has another length than the embedding of
    the query makes the whole search fail: [findSimilar] throws, once the
    query is embedded, and returns none of the other candidates. *)
Theorem findSimilar_length_mismatch_fails :
  forall (query : string) (documents : list Candidate) (topK : Z) (w w1 : W)
         (vecA : list float) (doc : Candidate),
    JS.blank query = false ->
    embedQuery svc query w = (Ok (JsArray vecA), w1) ->
    In doc documents ->
    List.length (c_embedding doc) <> List.length vecA ->
    findSimilar svc query documents topK w
    = (Throw "Failed to find similar documents: Vectors must have the same length",
       w1, [EvEmbed query (Ok (JsArray vecA))]).
Proof.
  intros query documents topK w w1 vecA doc Hblank Hembed Hin Hlen.
  unfold findSimilar, try_catch, bind.
  rewrite (embedText_ok svc query w w1 vecA Hblank Hembed).
  rewrite (scoreAll_mismatch vecA documents doc Hin Hlen). reflexivity.
Qed.

Lemma embedText_result (text : string) (w : W) (embedding : JsEmbedding) :
  result (embedText svc text w) = Ok embedding ->
  JS.blank text = false /\
  embedText svc text w
  = (Ok embedding, snd (embedQuery svc text w), [EvEmbed text (Ok embedding)]).
Proof.
  unfold embedText, try_catch.
  destruct (JS.blank text); [discriminate|].
  unfold bind, call.
  destruct (embedQuery svc text w) as [[[| | |v]|e] w1]; cbn; try discriminate.
  - intros H. inversion H. split; reflexivity.
  - intros H. inversion H. split; reflexivity.
Qed.

(** Whatever the scores, NaN included, [findSimilar] invents nothing: when
    it succeeds it has embedded the query once, and what it returns is the
    head of a rearrangement of the candidates, each with its text and its
    similarity to the query; for a count [topK] that is not negative, at
    most [topK] of them. *)
Theorem findSimilar_returns_scored_candidates :
  forall (query : string) (documents : list Candidate) (topK : Z) (w : W)
         (results : list Scored),
    result (findSimilar svc query documents topK w) = Ok results ->
    exists queryEmbedding scored rest,
      trace (findSimilar svc query documents topK w) = [EvEmbed query (Ok queryEmbedding)] /\
      Forall2 (fun d r => c_text d = s_text r /\
                          similarityTo queryEmbedding d = Ok (s_score r))
              documents scored /\
      Permutation (results ++ rest) scored /\
      (0 <= topK -> Z.of_nat (List.length results) <= topK).
Proof.
  intros query documents topK w results Hok.
  unfold findSimilar, try_catch, bind in Hok |- *.
  pose proof (embedText_result query w) as Hembed.
  destruct (embedText svc query w) as [[[queryEmbedding|e] w1] t1];
    cbn [result fst] in Hembed.
  2: { cbn in Hok. discriminate. }
  destruct (Hembed queryEmbedding eq_refl) as [_ Hrun].
  injection Hrun as _ Ht. subst t1.
  destruct (scoreAll queryEmbedding documents) as [scored|e] eqn:Hscored.
  2: { cbn in Hok. discriminate. }
  cbn in Hok |- *. inversion Hok as [Hresults]. clear Hok.
  destruct (slice_head (JS.sort byScoreDescending scored) topK) as [m Hm].
  exists queryEmbedding, scored, (skipn m (JS.sort byScoreDescending scored)).
  split; [reflexivity|]. split; [|split].
  - clear -Hscored. revert scored Hscored.
    induction documents as [|d documents IH]; cbn [scoreAll]; intros scored H.
    + inversion H. constructor.
    + destruct (similarityTo queryEmbedding d) as [score|] eqn:Hscore; [|discriminate].
      destruct (scoreAll queryEmbedding documents) as [others|]; [|discriminate].
      inversion H; subst. constructor; [split; [reflexivity|assumption]|now apply IH].
  - rewrite Hm, firstn_skipn. apply sort_permutation.
  - intros HtopK. apply slice_length_le, HtopK.
Qed.
End Similar.

Lemma findSimilar_length_mismatch_fails_witness :
  EmbeddingService.findSimilar (Memory.services 384 threeDimensions)
    "what" withShortVector 3 []
  = (Throw "Failed to find similar documents: Vectors must have the same length",
     [], [EvEmbed "what" (Ok (JsArray [1%float; 0%float; 0%float]))]).
Proof.
  apply (findSimilar_length_mismatch_fails (Memory.services 384 threeDimensions)
           "what" withShortVector 3 [] [] [1%float; 0%float; 0%float]
           (EmbeddingService.mkCandidate "short" [1%float; 0%float])).
  - reflexivity.
  - reflexivity.
  - right. left. reflexivity.
  - discriminate.
Defined.

Lemma findSimilar_returns_scored_candidates_witness :
  exists queryEmbedding scored rest,
    trace (EmbeddingService.findSimilar (Memory.services 384 threeDimensions)
             "what" withZeroVector 3 [])
    = [EvEmbed "what" (Ok queryEmbedding)] /\
    Forall2 (fun d r => EmbeddingService.c_text d = EmbeddingService.s_text r /\
                        EmbeddingService.similarityTo queryEmbedding d
                        = Ok (EmbeddingService.s_score r))
            withZeroVector scored /\
    Permutation (scoredWithNaN ++ rest) scored /\
    (0 <= 3 -> Z.of_nat (List.length scoredWithNaN) <= 3).
Proof.
  apply (findSimilar_returns_scored_candidates (Memory.services 384 threeDimensions)
           "what" withZeroVector 3 [] scoredWithNaN).
  vm_compute. reflexivity.
Defined.

(** ** [healthCheck] and the health routes *)

Section Health.
Context {W : Type} (svc : Services W).

(** A run of [healthCheck]: it ends normally, and with [true] exactly when
    both probes were made and answered. *)
Lemma healthCheck_run (w : W) :
  exists healthy w1 t1,
    RAGService.healthCheck svc w = (Ok healthy, w1, t1) /\
    (healthy = true <-> probesAnswered svc w t1).
Proof.
  unfold RAGService.healthCheck, try_catch, bind, call, probesAnswered.
  destruct (embedQuery svc "test" w) as [[embedding|e] w1] eqn:Hembed.
  - destruct embedding as [| | |values]; cbn.
    + eexists _, _, _. split; [reflexivity|]. split; [discriminate|].
      intros [embedding0 [stats0 [w3 [w4 [Heq [Hnull _]]]]]].
      injection Heq as <- <-. contradiction.
    + eexists _, _, _. split; [reflexivity|]. split; [discriminate|].
      intros [embedding0 [stats0 [w3 [w4 [Heq [_ [Hundefined _]]]]]]].
      injection Heq as <- <-. contradiction.
    + destruct (describeIndexStats svc w1) as [[stats|e] w2] eqn:Hstats; cbn;
        eexists _, _, _; (split; [reflexivity|]).
      * split; [intros _|reflexivity].
        exists JsOther, stats, w1, w2. repeat split; try discriminate. exact Hstats.
      * split; [discriminate|].
        intros [embedding0 [stats0 [w3 [w4 [Heq [_ [_ [Hstats' _]]]]]]]].
        injection Heq as <- <-. rewrite Hstats in Hstats'. discriminate.
    + destruct (describeIndexStats svc w1) as [[stats|e] w2] eqn:Hstats; cbn;
        eexists _, _, _; (split; [reflexivity|]).
      * split; [intros _|reflexivity].
        exists (JsArray values), stats, w1, w2. repeat split; try discriminate. exact Hstats.
      * split; [discriminate|].
        intros [embedding0 [stats0 [w3 [w4 [Heq [_ [_ [Hstats' _]]]]]]]].
        injection Heq as <- <-. rewrite Hstats in Hstats'. discriminate.
  - cbn. eexists _, _, _. split; [reflexivity|]. split; [discriminate|].
    intros [embedding0 [stats [w3 [w4 [Heq _]]]]]. discriminate.
Qed.

(** [healthCheck] never throws.  It answers [true] exactly when both of
    its probes were made and answered: the embedding provider resolved
    'test' to something other than null and undefined, and the index then
    resolved [describeIndexStats]; these two calls are then all it did. *)
Theorem healthCheck_true_iff_probes_answered :
  forall w : W,
    exists healthy,
      result (RAGService.healthCheck svc w) = Ok healthy /\
      (healthy = true <-> probesAnswered svc w (trace (RAGService.healthCheck svc w))).
Proof.
  intros w. destruct (healthCheck_run w) as [healthy [w1 [t1 [Hrun Hhealthy]]]].
  exists healthy. rewrite Hrun. split; [reflexivity|exact Hhealthy].
Qed.

(** The health route of routes/health.js reports Pinecone as 'connected'
    whatever [healthCheck] found, [false] included: it awaits the check
    and does not read its answer. *)
Theorem pineconeStatus_always_connected :
  forall w : W, result (HealthRoute.pineconeStatus svc w) = Ok "connected"%string.
Proof.
  intros w. unfold HealthRoute.pineconeStatus, try_catch, bind.
  destruct (healthCheck_run w) as [healthy [w1 [t1 [Hrun _]]]].
  rewrite Hrun. reflexivity.
Qed.

(** The health route of server.js reports Pinecone as 'connected' when
    both probes of [healthCheck] were made and answered, and as 'error'
    otherwise; it never reports an error message, since [healthCheck]
    never throws. *)
Theorem serverPineconeStatus_connected_or_error :
  forall w : W,
    (result (HealthRoute.serverPineconeStatus svc w) = Ok "connected"%string /\
     probesAnswered svc w (trace (HealthRoute.serverPineconeStatus svc w))) \/
    (result (HealthRoute.serverPineconeStatus svc w) = Ok "error"%string /\
     ~ probesAnswered svc w (trace (HealthRoute.serverPineconeStatus svc w))).
Proof.
  intros w. unfold HealthRoute.serverPineconeStatus, try_catch, bind.
  destruct (healthCheck_run w) as [healthy [w1 [t1 [Hrun Hhealthy]]]].
  rewrite Hrun. cbn [ret result trace fst snd].
  rewrite app_nil_r. destruct healthy.
  - left. split; [reflexivity|]. now apply Hhealthy.
  - right. split; [reflexivity|]. intros Hprobes. apply Hhealthy in Hprobes. discriminate.
Qed.

Lemma embedChunks_empty_embeddings (documentId : string) (chunks : list string) :
  (forall text w, fst (embedQuery svc text w) = Ok (JsArray [])) ->
  forall (i : nat) (vectors : list Vector) (w : W),
    match result (RAGService.embedChunks svc documentId chunks i vectors w) with
    | Ok built => built = vectors
    | Throw _ => True
    end.
Proof.
  intros Hempty. induction chunks as [|chunk rest IH]; intros i vectors w;
    cbn [RAGService.embedChunks].
  - reflexivity.
  - destruct (JS.blank chunk); [apply IH|].
    unfold bind, call. specialize (Hempty chunk w).
    destruct (embedQuery svc chunk w) as [r w1]. cbn [fst] in Hempty. subst r.
    cbn. exact I.
Qed.

(** [healthCheck] asks less of the embedding provider than indexing does.
    With a provider that resolves every call to the empty array, and an
    index that answers [describeIndexStats], [healthCheck] answers [true]
    while every call of [indexDocument] throws. *)
Theorem healthCheck_passes_where_indexing_fails :
  (forall text w, fst (embedQuery svc text w) = Ok (JsArray [])) ->
  (forall w, is_throw (fst (describeIndexStats svc w)) = false) ->
  forall (documentId text : string) (w : W),
    result (RAGService.healthCheck svc w) = Ok true /\
    is_throw (result (RAGService.indexDocument svc documentId text w)) = true.
Proof.
  intros Hempty Hstats documentId text w. split.
  - unfold RAGService.healthCheck, try_catch, bind, call.
    specialize (Hempty "test"%string w).
    destruct (embedQuery svc "test" w) as [r w1]. cbn [fst] in Hempty. subst r.
    specialize (Hstats w1). destruct (describeIndexStats svc w1) as [[stats|e] w2];
      [reflexivity|discriminate Hstats].
  - destruct (indexDocument_run svc documentId text w) as [[_ Hthrow]|[chunks [_ Hrun]]];
      [exact Hthrow|].
    pose proof (embedChunks_empty_embeddings documentId chunks Hempty 0 [] w) as Hbuilt.
    destruct (RAGService.embedChunks svc documentId chunks 0 [] w) as [[[vectors|e] w1] t1];
      cbn [result fst] in Hbuilt; rewrite Hrun; [|reflexivity].
    subst vectors. reflexivity.
Qed.
End Health.

(** Two runs of the health check: with an index that answers, and with
    one that does not answer [describeIndexStats], which the route of
    server.js reports as an error and the route of routes/health.js as
    connected. *)
Example healthCheck_runs :
  RAGService.healthCheck (Memory.services 384 threeDimensions) []
  = (Ok true, [],
     [EvEmbed "test" (Ok (JsArray [1%float; 0%float; 0%float]));
      EvDescribeIndexStats (Ok (mkIndexStats (Some 384) (Some 0)))]) /\
  RAGService.healthCheck (writeOnly threeDimensions) []
  = (Ok false, [],
     [EvEmbed "test" (Ok (JsArray [1%float; 0%float; 0%float]));
      EvDescribeIndexStats (Throw "describeIndexStats timed out")]) /\
  result (HealthRoute.serverPineconeStatus (writeOnly threeDimensions) [])
  = Ok "error"%string /\
  result (HealthRoute.pineconeStatus (writeOnly threeDimensions) [])
  = Ok "connected"%string.
Proof. repeat split; reflexivity. Qed.

Lemma healthCheck_passes_where_indexing_fails_witness :
  result (RAGService.healthCheck (Memory.services 384 emptyEmbedding) []) = Ok true /\
  is_throw (result (RAGService.indexDocument (Memory.services 384 emptyEmbedding)
                      "doc1" "short text" [])) = true.
Proof.
  apply (healthCheck_passes_where_indexing_fails (Memory.services 384 emptyEmbedding)).
  - intros text w. reflexivity.
  - intros w. reflexivity.
Defined.

(** ** Step 4 of the upload route *)

Section Upload.
Context {W : Type} (svc : Services W).
Context (save : string -> list string -> W -> outcome unit * W).

Lemma queryDocuments_noUpsert (question : string) (documentId : option string) (topK : Z) :
  every notUpsert (RAGService.queryDocuments svc question documentId topK).
Proof. apply queryDocuments_every; reflexivity. Qed.

(** The verification query of the route, caught. *)
Lemma verification_run (vectorIds : list string) (documentId : string) (w : W) :
  exists i w1 t1,
    try_catch
      (bind (RAGService.queryDocuments svc "test query" (Some documentId) 1)
            (fun _ => ret (UploadRoute.mkIndexing true vectorIds None)))
      (fun message => ret (UploadRoute.mkIndexing true vectorIds (Some message))) w
    = (Ok i, w1, t1) /\
    UploadRoute.indexingSuccess i = true /\
    UploadRoute.document_vectorIds i = vectorIds /\
    noUpsert t1.
Proof.
  unfold try_catch, bind.
  pose proof (queryDocuments_noUpsert "test query" (Some documentId) 1 w) as Hn.
  destruct (RAGService.queryDocuments svc "test query" (Some documentId) 1 w)
    as [[[chunks|e] w1] t1]; cbn [trace snd] in Hn; cbn; rewrite app_nil_r;
    eexists _, _, _; (split; [reflexivity|]); repeat split; assumption.
Qed.

(** The runs of step 4 on a text long enough to be indexed. *)
Lemma indexUploaded_run (documentId textContent : string) (w : W) :
  JS.truthy textContent && (50 <? JS.length (JS.trim textContent)) = true ->
  match RAGService.indexDocument svc documentId textContent w with
  | (Throw e, w1, t1) =>
      UploadRoute.indexUploaded svc save documentId textContent w
      = (Ok (UploadRoute.mkIndexing false [] (Some e)), w1, t1)
  | (Ok [], w1, t1) =>
      UploadRoute.indexUploaded svc save documentId textContent w
      = (Ok (UploadRoute.mkIndexing false [] (Some "No vectors created"%string)), w1, t1)
  | (Ok vectorIds, w1, t1) =>
      match save documentId vectorIds w1 with
      | (Throw e, w2) =>
          UploadRoute.indexUploaded svc save documentId textContent w
          = (Ok (UploadRoute.mkIndexing false vectorIds (Some e)), w2, t1)
      | (Ok _, w2) =>
          exists i w3 t3,
            UploadRoute.indexUploaded svc save documentId textContent w
            = (Ok i, w3, t1 ++ t3) /\
            UploadRoute.indexingSuccess i = true /\
            UploadRoute.document_vectorIds i = vectorIds /\
            noUpsert t3
      end
  end.
Proof.
  intros Hlong.
  assert (Hunfold :
            UploadRoute.indexUploaded svc save documentId textContent w
            = let '(r, w1, t1) := RAGService.indexDocument svc documentId textContent w in
              match r with
              | Throw e => (Ok (UploadRoute.mkIndexing false [] (Some e)), w1, t1)
              | Ok [] =>
                  (Ok (UploadRoute.mkIndexing false []
                         (Some "No vectors created"%string)), w1, t1)
              | Ok vectorIds =>
                  match save documentId vectorIds w1 with
                  | (Throw e, w2) =>
                      (Ok (UploadRoute.mkIndexing false vectorIds (Some e)), w2, t1)
                  | (Ok _, w2) =>
                      let '(r3, w3, t3) :=
                        try_catch
                          (bind (RAGService.queryDocuments svc "test query"
                                   (Some documentId) 1)
                                (fun _ => ret (UploadRoute.mkIndexing true vectorIds None)))
                          (fun message =>
                             ret (UploadRoute.mkIndexing true vectorIds (Some message))) w2 in
                      (r3, w3, t1 ++ t3)
                  end
              end).
  { unfold UploadRoute.indexUploaded. rewrite Hlong.
    unfold try_catch at 1, bind at 1.
    destruct (RAGService.indexDocument svc documentId textContent w)
      as [[[[|i0 ids]|e] w1] t1].
    - cbn. rewrite ?app_nil_r. reflexivity.
    - unfold try_catch at 1, bind at 1, quiet.
      destruct (save documentId (i0 :: ids) w1) as [[u|e] w2].
      + destruct (verification_run (i0 :: ids) documentId w2)
          as [i [w3 [t3 [Hrun _]]]].
        rewrite Hrun. cbn. reflexivity.
      + cbn. rewrite ?app_nil_r. reflexivity.
    - cbn. rewrite ?app_nil_r. reflexivity. }
  rewrite Hunfold. clear Hunfold.
  destruct (RAGService.indexDocument svc documentId textContent w)
    as [[[[|i0 ids]|e] w1] t1]; try reflexivity.
  destruct (save documentId (i0 :: ids) w1) as [[u|e] w2]; [|reflexivity].
  destruct (verification_run (i0 :: ids) documentId w2)
    as [i [w3 [t3 [Hrun [Hs [Hv Hn]]]]]].
  rewrite Hrun. exists i, w3, t3. repeat split; assumption.
Qed.

(** Step 4 of the upload never throws, so a failure of the indexing never
    fails the upload.  What it reports is consistent: it reports no error
    only when it reports success, and when it reports success the vector
    ids it has put on the document are the ids of the records that this
    run sent to the index, at least one. *)
Theorem indexUploaded_never_throws :
  forall (documentId textContent : string) (w : W),
    exists i,
      result (UploadRoute.indexUploaded svc save documentId textContent w) = Ok i /\
      (UploadRoute.indexingError i = None -> UploadRoute.indexingSuccess i = true) /\
      (UploadRoute.indexingSuccess i = true ->
       UploadRoute.document_vectorIds i <> [] /\
       UploadRoute.document_vectorIds i
       = map id (upserted (trace (UploadRoute.indexUploaded svc save documentId
                                    textContent w)))).
Proof.
  intros documentId textContent w.
  destruct (JS.truthy textContent && (50 <? JS.length (JS.trim textContent))) eqn:Hlong.
  2: { unfold UploadRoute.indexUploaded. rewrite Hlong.
       eexists. split; [reflexivity|]. split; discriminate. }
  pose proof (indexUploaded_run documentId textContent w Hlong) as Hrun.
  pose proof (indexDocument_ok svc documentId textContent w) as Hok.
  destruct (RAGService.indexDocument svc documentId textContent w)
    as [[[vectorIds|e] w1] t1]; cbn [result trace fst snd] in Hok.
  2: { rewrite Hrun. eexists. split; [reflexivity|]. split; discriminate. }
  destruct (Hok vectorIds eq_refl) as [chunks [vectors [_ [Hne [_ [Hids [Hsent _]]]]]]].
  destruct vectorIds as [|i0 ids].
  { destruct vectors; [contradiction|discriminate]. }
  destruct (save documentId (i0 :: ids) w1) as [[u|e] w2].
  2: { rewrite Hrun. eexists. split; [reflexivity|]. split; discriminate. }
  destruct Hrun as [i [w3 [t3 [Hrun [Hs [Hv Hn]]]]]].
  rewrite Hrun. exists i. cbn [result trace fst snd].
  split; [reflexivity|]. split; [intros _; exact Hs|]. intros _.
  rewrite Hv. split; [discriminate|].
  rewrite upserted_app, Hsent, (noUpsert_upserted _ Hn), app_nil_r.
  exact Hids.
Qed.

(** A text of at most 50 characters after trimming is not indexed: step 4
    calls nothing and reports 'Text too short for indexing'. *)
Lemma indexUploaded_short_text :
  forall (documentId textContent : string) (w : W),
    JS.length (JS.trim textContent) <= 50 ->
    UploadRoute.indexUploaded svc save documentId textContent w
    = (Ok (UploadRoute.mkIndexing false [] (Some "Text too short for indexing"%string)),
       w, []).
Proof.
  intros documentId textContent w Hshort. unfold UploadRoute.indexUploaded.
  destruct (Z.ltb_spec 50 (JS.length (JS.trim textContent))); [lia|].
  rewrite andb_false_r. reflexivity.
Qed.

(** When the document cannot be saved after its text was indexed, the
    upload reports the document as not indexed, with the error of the
    save, while the records are in the index: they were sent, and the run
    deletes nothing.  The response still counts them in [vectorCount]. *)
Theorem indexUploaded_save_failure_leaves_vectors :
  forall (documentId textContent : string) (w w1 w2 : W) (vectorIds : list string)
         (t : list event) (e : string),
    50 < JS.length (JS.trim textContent) ->
    RAGService.indexDocument svc documentId textContent w = (Ok vectorIds, w1, t) ->
    save documentId vectorIds w1 = (Throw e, w2) ->
    UploadRoute.indexAndRespond svc save documentId textContent w
    = (Ok (UploadRoute.mkUploaded "Document uploaded (indexing pending)"
             (0 <? JS.length textContent) (JS.length textContent) false
             (Z.of_nat (List.length vectorIds)) (Some e)),
       w2, t) /\
    map id (upserted t) = vectorIds /\
    vectorIds <> [] /\
    Forall notDelete t.
Proof.
  intros documentId textContent w w1 w2 vectorIds t e Hlong Hindex Hsave.
  pose proof (indexDocument_ok svc documentId textContent w vectorIds) as Hok.
  pose proof (indexDocument_notDelete svc documentId textContent w) as Hd.
  rewrite Hindex in Hok, Hd. cbn [result trace fst snd] in Hok, Hd.
  destruct (Hok eq_refl) as [chunks [vectors [_ [Hne [_ [Hids [Hsent _]]]]]]].
  assert (Hids' : vectorIds <> []).
  { subst vectorIds. destruct vectors; [contradiction|discriminate]. }
  split; [|split; [|split]]; [|now rewrite Hsent|exact Hids'|exact Hd].
  assert (Htruthy : JS.truthy textContent = true).
  { destruct textContent; [cbn in Hlong; lia|reflexivity]. }
  assert (Hcond : JS.truthy textContent && (50 <? JS.length (JS.trim textContent)) = true).
  { rewrite Htruthy. destruct (Z.ltb_spec 50 (JS.length (JS.trim textContent))); [reflexivity|lia]. }
  pose proof (indexUploaded_run documentId textContent w Hcond) as Hrun.
  rewrite Hindex in Hrun.
  destruct vectorIds as [|i0 ids]; [contradiction|].
  rewrite Hsave in Hrun.
  unfold UploadRoute.indexAndRespond, bind. rewrite Hrun.
  cbn. rewrite app_nil_r. reflexivity.
Qed.
End Upload.

Lemma indexUploaded_save_failure_leaves_vectors_witness :
  result (UploadRoute.indexAndRespond (Memory.services 384 threeDimensions) saveFails
            "doc1" sixtyAs [])
  = Ok (UploadRoute.mkUploaded "Document uploaded (indexing pending)" true 60 false 1
          (Some "the document could not be saved"%string)).
Proof.
  refine (f_equal result
            (proj1 (indexUploaded_save_failure_leaves_vectors
                      (Memory.services 384 threeDimensions) saveFails
                      "doc1" sixtyAs [] _ _ ["doc1_chunk_0"%string] _
                      "the document could not be saved" _ _ _))).
  - vm_compute. reflexivity.
  - vm_compute. reflexivity.
  - reflexivity.
Defined.

(** ** [DELETE /api/documents/:id] *)

Section Delete.
Import DocumentsRoute.
Context {W : Type} (svc : Services W) (st : Storage W).

(** The runs of the route on a document that was found: the three
    clean-up steps, each caught, then the deletion of the record. *)
Lemma deleteRoute_found (id userId : string) (w w1 : W) (document : Found) :
  findOne st id userId w = (Ok (Some document), w1) ->
  exists w2 t2,
    (match found_vectorIds document with
     | Some (i :: ids) =>
         exists wb, t2 = [EvDeleteMany (i :: ids) (fst (deleteMany svc (i :: ids) wb))]
     | _ => t2 = []
     end) /\
    deleteRoute svc st id userId w
    = match deleteOne st (found_id document) w2 with
      | (Ok _, w3) => (Ok Deleted, w3, t2)
      | (Throw _, w3) => (Ok Failed, w3, t2)
      end.
Proof.
  intros Hfind.
  assert (Hcaught : forall (f : W -> outcome unit * W) (w : W),
             exists w', try_catch (quiet f) (fun _ => ret tt) w = (Ok tt, w', [])).
  { intros f w0. unfold try_catch, quiet, ret.
    destruct (f w0) as [[[]|e] w']; eexists; reflexivity. }
  destruct (Hcaught (unlink st (filepath document)) w1) as [wa Ha].
  assert (Hs3 : exists wb,
             match s3Key document with
             | Some key =>
                 if JS.truthy key
                 then try_catch (quiet (deleteObject st key)) (fun _ => ret tt)
                 else ret tt
             | None => ret tt
             end wa = (Ok tt, wb, [])).
  { destruct (s3Key document) as [key|]; [|eexists; reflexivity].
    destruct (JS.truthy key); [apply Hcaught|eexists; reflexivity]. }
  destruct Hs3 as [wb Hb].
  assert (Hvec : exists wc tc,
             match found_vectorIds document with
             | Some (_ :: _) =>
                 try_catch (RAGService.deleteDocument svc (found_vectorIds document))
                           (fun _ => ret tt)
             | _ => ret tt
             end wb = (Ok tt, wc, tc) /\
             match found_vectorIds document with
             | Some (i :: ids) =>
                 tc = [EvDeleteMany (i :: ids) (fst (deleteMany svc (i :: ids) wb))]
             | _ => tc = []
             end).
  { destruct (found_vectorIds document) as [[|i ids]|];
      [eexists _, _; split; reflexivity| |eexists _, _; split; reflexivity].
    unfold try_catch, RAGService.deleteDocument, call, ret.
    destruct (deleteMany svc (i :: ids) wb) as [[[]|e] wc].
    - eexists _, _. split; reflexivity.
    - eexists _, _. split; reflexivity. }
  destruct Hvec as [wc [tc [Hc Htc]]].
  exists wc, tc. split.
  { destruct (found_vectorIds document) as [[|i ids]|]; try exact Htc.
    exists wb. exact Htc. }
  unfold deleteRoute, try_catch at 1, bind at 1, quiet at 1. rewrite Hfind.
  unfold bind at 1. rewrite Ha.
  unfold bind at 1. rewrite Hb.
  unfold bind at 1. rewrite Hc.
  unfold bind, quiet, ret.
  destruct (deleteOne st (found_id document) wc) as [[[]|e] w3]; cbn;
    rewrite ?app_nil_r; reflexivity.
Qed.

(** When the document is found and its record can be deleted, the route
    answers with success whatever became of the clean-up: a local file
    that cannot be removed, an object store or a vector index that throws
    do not stop the deletion of the record.  The index is asked to delete
    exactly the vector ids of the document, once, and is not called when
    the document has none. *)
Theorem deleteRoute_deletes_record_despite_failures :
  forall (id userId : string) (w w1 : W) (document : Found),
    findOne st id userId w = (Ok (Some document), w1) ->
    (forall i w', is_throw (fst (deleteOne st i w')) = false) ->
    result (deleteRoute svc st id userId w) = Ok Deleted /\
    match found_vectorIds document with
    | Some (i :: ids) =>
        exists r, trace (deleteRoute svc st id userId w) = [EvDeleteMany (i :: ids) r]
    | _ => trace (deleteRoute svc st id userId w) = []
    end.
Proof.
  intros id userId w w1 document Hfind Hdelete.
  destruct (deleteRoute_found id userId w w1 document Hfind) as [w2 [t2 [Ht Hrun]]].
  rewrite Hrun. specialize (Hdelete (found_id document) w2).
  destruct (deleteOne st (found_id document) w2) as [[u|e] w3]; [|discriminate Hdelete].
  split; [reflexivity|]. cbn [trace snd].
  destruct (found_vectorIds document) as [[|i ids]|]; try exact Ht.
  destruct Ht as [wb ->]. eexists. reflexivity.
Qed.

(** The deletion is not atomic.  When the record of a document with
    vectors cannot be deleted, the route answers 500 after the index has
    deleted the vectors: the document is still stored, and its vectors
    are gone. *)
Theorem deleteRoute_failure_after_vectors_deleted :
  forall (id userId : string) (w w1 : W) (document : Found) (i : string)
         (ids : list string),
    findOne st id userId w = (Ok (Some document), w1) ->
    found_vectorIds document = Some (i :: ids) ->
    (forall ids' w', fst (deleteMany svc ids' w') = Ok tt) ->
    (forall i' w', is_throw (fst (deleteOne st i' w')) = true) ->
    result (deleteRoute svc st id userId w) = Ok Failed /\
    trace (deleteRoute svc st id userId w) = [EvDeleteMany (i :: ids) (Ok tt)].
Proof.
  intros id userId w w1 document i ids Hfind Hids Hmany Hdelete.
  destruct (deleteRoute_found id userId w w1 document Hfind) as [w2 [t2 [Ht Hrun]]].
  rewrite Hrun. specialize (Hdelete (found_id document) w2).
  destruct (deleteOne st (found_id document) w2) as [[u|e'] w3]; [discriminate Hdelete|].
  split; [reflexivity|]. cbn [trace snd].
  rewrite Hids in Ht. destruct Ht as [wb ->]. now rewrite Hmany.
Qed.

(** A document that is not found is answered 404, and nothing is deleted:
    the search of the record is the only call. *)
Lemma deleteRoute_not_found (id userId : string) (w w1 : W) :
  findOne st id userId w = (Ok None, w1) ->
  deleteRoute svc st id userId w = (Ok NotFound, w1, []).
Proof.
  intros Hfind. unfold deleteRoute, try_catch, bind, quiet. rewrite Hfind. reflexivity.
Qed.
End Delete.

Lemma deleteRoute_deletes_record_despite_failures_witness :
  result (DocumentsRoute.deleteRoute (Memory.services 384 threeDimensions)
            (storage (Ok tt)) "doc1" "user1" [doc1_chunk_0])
  = Ok DocumentsRoute.Deleted.
Proof.
  refine (proj1 (deleteRoute_deletes_record_despite_failures
                   (Memory.services 384 threeDimensions) (storage (Ok tt))
                   "doc1" "user1" [doc1_chunk_0] [doc1_chunk_0] foundDoc1 _ _)).
  - reflexivity.
  - intros i w'. reflexivity.
Defined.

Lemma deleteRoute_failure_after_vectors_deleted_witness :
  result (DocumentsRoute.deleteRoute (Memory.services 384 threeDimensions)
            (storage (Throw "the record is locked")) "doc1" "user1" [doc1_chunk_0])
  = Ok DocumentsRoute.Failed /\
  trace (DocumentsRoute.deleteRoute (Memory.services 384 threeDimensions)
           (storage (Throw "the record is locked")) "doc1" "user1" [doc1_chunk_0])
  = [EvDeleteMany ["doc1_chunk_0"%string] (Ok tt)].
Proof.
  apply (deleteRoute_failure_after_vectors_deleted
           (Memory.services 384 threeDimensions) (storage (Throw "the record is locked"))
           "doc1" "user1" [doc1_chunk_0] [doc1_chunk_0] foundDoc1 "doc1_chunk_0" []).
  - reflexivity.
  - reflexivity.
  - intros ids' w'. reflexivity.
  - intros i' w'. reflexivity.
Defined.

(** ** The loop of [reindexAll.js] *)

Section Reindex.
Context {W : Type} (svc : Services W).

(** One document of the loop: whatever [indexDocument] does, the loop goes
    on from the world it left. *)
Lemma indexAll_cons (doc : Document) (rest : list Document) (w : W) :
  let first := RAGService.indexDocument svc (_id doc) (QueryRoute.textOf doc) w in
  ReindexAll.indexAll svc (doc :: rest) w
  = let '(r, w2, t2) := ReindexAll.indexAll svc rest (world first) in
    (r, w2, trace first ++ t2).
Proof.
  cbn [ReindexAll.indexAll]. unfold bind at 1, try_catch, bind at 1.
  destruct (RAGService.indexDocument svc (_id doc) (QueryRoute.textOf doc) w)
    as [[[ids|e] w1] t1]; cbn [world trace fst snd ret].
  - destruct (ReindexAll.indexAll svc rest w1) as [[r w2] t2].
    now rewrite !app_nil_r.
  - destruct (ReindexAll.indexAll svc rest w1) as [[r w2] t2].
    now rewrite !app_nil_r.
Qed.

Lemma indexAll_never_throws (docs : list Document) :
  forall w : W, result (ReindexAll.indexAll svc docs w) = Ok tt.
Proof.
  induction docs as [|doc rest IH]; intros w; [reflexivity|].
  rewrite indexAll_cons. cbn zeta.
  specialize (IH (world (RAGService.indexDocument svc (_id doc) (QueryRoute.textOf doc) w))).
  destruct (ReindexAll.indexAll svc rest _) as [[r w2] t2]. exact IH.
Qed.

Lemma indexAll_app (before after : list Document) :
  forall w : W,
    ReindexAll.indexAll svc (before ++ after) w
    = let '(r, w2, t2) :=
        ReindexAll.indexAll svc after (world (ReindexAll.indexAll svc before w)) in
      (r, w2, trace (ReindexAll.indexAll svc before w) ++ t2).
Proof.
  induction before as [|doc rest IH]; intros w.
  - cbn [app ReindexAll.indexAll ret world trace fst snd].
    destruct (ReindexAll.indexAll svc after w) as [[r w2] t2]. reflexivity.
  - cbn [app]. rewrite !indexAll_cons. cbn zeta. rewrite IH.
    destruct (ReindexAll.indexAll svc rest _) as [[r1 w1] t1].
    cbn [world trace fst snd].
    destruct (ReindexAll.indexAll svc after w1) as [[r2 w2] t2].
    now rewrite app_assoc.
Qed.

(** The re-indexing loop never stops at a document that fails: it ends
    normally, and every document of the list is handed to [indexDocument],
    in the order of the list, each from the state in which the documents
    before it, indexed or not, left the index. *)
Theorem indexAll_indexes_every_document :
  forall (before after : list Document) (doc : Document) (w : W),
    let reached := world (ReindexAll.indexAll svc before w) in
    let attempt := RAGService.indexDocument svc (_id doc) (QueryRoute.textOf doc) reached in
    result (ReindexAll.indexAll svc (before ++ doc :: after) w) = Ok tt /\
    trace (ReindexAll.indexAll svc (before ++ doc :: after) w)
    = trace (ReindexAll.indexAll svc before w)
        ++ trace attempt
        ++ trace (ReindexAll.indexAll svc after (world attempt)).
Proof.
  intros before after doc w reached attempt.
  split; [apply indexAll_never_throws|].
  rewrite indexAll_app. fold reached.
  rewrite indexAll_cons. cbn zeta. fold attempt.
  destruct (ReindexAll.indexAll svc after (world attempt)) as [[r w2] t2].
  reflexivity.
Qed.
End Reindex.

(** ** [aiController.queryDocuments] *)

Section Controller.
Import AiController.
Context {W : Type} (svc : Services W) (db : Backend W) (st : Store W).

Lemma queryDocuments_at_most_topK (question : string) (documentId : option string)
      (topK : Z) :
  0 <= topK ->
  returns (fun chunks => Z.of_nat (List.length chunks) <= topK)
          (RAGService.queryDocuments svc question documentId topK).
Proof.
  intros HtopK. unfold RAGService.queryDocuments.
  destruct (JS.blank question); [apply returns_ret; cbn; lia|].
  apply (returns_bind (fun _ => True)); [apply returns_any|].
  intros embedding _. destruct embedding; [apply returns_throw|apply returns_throw| |].
  all: apply (returns_bind (fun _ => True)); [apply returns_any|].
  all: intros results _.
  all: destruct (matches results) as [[|m ms]|].
  all: try (apply (returns_bind (fun _ => True)); [apply returns_any|];
            intros _ _; apply returns_ret; cbn; lia).
  all: apply returns_ret; apply slice_length_le; exact HtopK.
Qed.

Lemma topChunksOf_few (relevantChunks : list RetrievalResult) :
  relevantChunks <> [] ->
  (1 <= List.length (topChunksOf relevantChunks) <= List.length relevantChunks)%nat.
Proof.
  intros Hne. unfold topChunksOf.
  rewrite !slice_from_start by lia.
  destruct (filter _ relevantChunks) as [|c cs] eqn:Hfilter.
  - destruct relevantChunks as [|c cs]; [contradiction|].
    rewrite !length_firstn. cbn. lia.
  - assert (Hle : (List.length (c :: cs) <= List.length relevantChunks)%nat).
    { rewrite <- Hfilter. apply filter_length_le. }
    rewrite length_firstn. cbn in *. lia.
Qed.

Lemma topChunksOf_confidence (relevantChunks : list RetrievalResult) :
  Forall (fun c => (threshold <=? r_score c)%float = true) (topChunksOf relevantChunks) \/
  Forall (fun c => (threshold <=? r_score c)%float = false) (topChunksOf relevantChunks).
Proof.
  unfold topChunksOf. rewrite !slice_from_start by lia.
  destruct (filter _ relevantChunks) as [|c cs] eqn:Hfilter.
  - right. rewrite Forall_forall. intros x Hx.
    apply In_firstn, In_firstn in Hx.
    destruct (threshold <=? r_score x)%float eqn:E; [|reflexivity].
    assert (Hin : In x (filter (fun chunk => (threshold <=? r_score chunk)%float)
                               relevantChunks))
      by (apply filter_In; split; assumption).
    rewrite Hfilter in Hin. destruct Hin.
  - left. rewrite Forall_forall. intros x Hx.
    apply In_firstn in Hx. rewrite <- Hfilter in Hx.
    apply filter_In in Hx. apply Hx.
Qed.

(** The controller calls the retrieval without a [topK], so with 3: the
    chunks found are at most three, and the cap of five on the chunks
    handed to the model never cuts.  An answer lists at least one source
    and at most as many as chunks were found; its sources either all
    reach the threshold 0.1, or none of them does. *)
Theorem aiController_few_sources :
  forall (req : Request) (w : W) (response : Response),
    result (queryDocuments svc db st req w) = Ok response ->
    fewSources response.
Proof.
  intros req. change (returns fewSources (queryDocuments svc db st req)).
  unfold queryDocuments.
  apply returns_try_catch; [|intros; apply returns_ret; exact I].
  destruct (question req) as [q|]; [|apply returns_ret; exact I].
  destruct (JS.blank q); [apply returns_ret; exact I|].
  apply (returns_bind (fun _ => True)); [apply returns_any|]. intros docCount _.
  destruct (docCount =? 0); [apply returns_ret; exact I|].
  apply (returns_bind (fun _ => True)); [apply returns_any|]. intros processedDocs _.
  destruct (processedDocs =? 0); [apply returns_ret; exact I|].
  eapply returns_bind; [apply queryDocuments_at_most_topK; lia|].
  intros [|chunk chunks] Hlen; [apply returns_ret; exact I|].
  cbv zeta.
  apply (returns_bind (fun _ => True)); [apply returns_any|]. intros documents _.
  apply (returns_bind (fun _ => True)); [apply returns_any|]. intros answer _.
  apply returns_ret. cbn [fewSources].
  pose proof (topChunksOf_few (chunk :: chunks) ltac:(discriminate)) as Hfew.
  rewrite length_map. split; [exact Hfew|]. split; [lia|].
  destruct (topChunksOf_confidence (chunk :: chunks)) as [H|H]; [left|right].
  all: rewrite Forall_forall in *; intros s Hs; apply in_map_iff in Hs;
    destruct Hs as [c [<- Hc]]; cbn [sourceOf source_score]; apply H, Hc.
Qed.

Lemma bind_quiet_ok {A B} (f : W -> outcome A * W) (k : A -> M W B) (w w1 : W) (a : A) :
  f w = (Ok a, w1) -> bind (quiet f) k w = k a w1.
Proof.
  intros H. unfold bind, quiet. rewrite H.
  destruct (k a w1) as [[r w2] t2]. reflexivity.
Qed.

(** The keys of the [Map] are the distinct documents named, in the order
    of their first chunk. *)
Lemma push_keys (docId : string) (chunk : RetrievalResult)
      (groups : list (string * list RetrievalResult)) :
  map fst (push docId chunk groups)
  = if existsb (String.eqb docId) (map fst groups) then map fst groups
    else map fst groups ++ [docId].
Proof.
  induction groups as [|[key chunks] rest IH]; cbn [push map fst existsb app]; [reflexivity|].
  rewrite (String.eqb_sym docId key).
  destruct (String.eqb key docId); cbn [map fst orb]; [reflexivity|].
  rewrite IH. destruct (existsb _ (map fst rest)); reflexivity.
Qed.

Lemma docIdOf_namedDocument (chunk : RetrievalResult) : docIdOf chunk = namedDocument chunk.
Proof.
  unfold docIdOf, namedDocument.
  destruct (m_documentId (r_metadata chunk)) as [[|c d]|]; reflexivity.
Qed.

Lemma chunksByDocument_keys (found : list RetrievalResult) :
  filter known (map fst (chunksByDocument found)) = documentsToRead found.
Proof.
  unfold documentsToRead, chunksByDocument, distinct.
  assert (Hkeys :
            forall groups : list (string * list RetrievalResult),
              map fst (fold_left (fun groups chunk => push (docIdOf chunk) chunk groups)
                                 found groups)
              = fold_left (fun seen k =>
                             if existsb (String.eqb k) seen then seen else seen ++ [k])
                          (map namedDocument found) (map fst groups)).
  { induction found as [|chunk rest IH]; intros groups; cbn [fold_left map]; [reflexivity|].
    rewrite IH, push_keys, docIdOf_namedDocument. reflexivity. }
  rewrite (Hkeys []). reflexivity.
Qed.

(** Of at most three chunks found, the cuts at three and at five keep
    all. *)
Lemma topChunksOf_handedToModel (found : list RetrievalResult) :
  (List.length found <= 3)%nat ->
  topChunksOf found = handedToModel found /\
  JS.slice (handedToModel found) 0 3 = handedToModel found.
Proof.
  intros Hlen. unfold topChunksOf, handedToModel, threshold.
  rewrite !slice_from_start by lia.
  pose proof (filter_length_le
                (fun chunk => (0x1.999999999999ap-4 <=? r_score chunk)%float) found) as Hle.
  change (Z.to_nat 3) with 3%nat. change (Z.to_nat 5) with 5%nat.
  destruct (filter _ found) as [|chunk confident].
  - rewrite !(@firstn_all2 _ 3 found) by lia.
    rewrite (@firstn_all2 _ 5 found) by lia. split; reflexivity.
  - rewrite (@firstn_all2 _ 5 (chunk :: confident)) by lia.
    rewrite (@firstn_all2 _ 3 (chunk :: confident)) by lia. split; reflexivity.
Qed.

Lemma excerpts_numbered (chunks : list RetrievalResult) (idx : nat) :
  excerpts idx chunks = numbered (idx + 1) chunks.
Proof.
  revert idx. induction chunks as [|chunk rest IH]; intros idx; cbn [excerpts numbered];
    [reflexivity|].
  rewrite IH. replace (S idx + 1)%nat with (S (idx + 1)) by lia. reflexivity.
Qed.

Lemma nameOr_citedName (documents : list Document) (chunk : RetrievalResult)
      (fallback : string) :
  nameOr (docMapGet documents (m_documentId (r_metadata chunk))) fallback
  = citedName documents chunk fallback.
Proof.
  unfold nameOr, docMapGet, citedName.
  destruct (m_documentId (r_metadata chunk)) as [key|]; [|reflexivity].
  destruct (find _ (rev documents)) as [d|]; [|reflexivity].
  destruct (originalName d); reflexivity.
Qed.

Lemma completionRequest_asking (documents : list Document) (chunks : list RetrievalResult)
      (q : string) :
  completionRequest (contextOf documents chunks) q
  = modelRequest (asking documents chunks q).
Proof.
  unfold completionRequest, modelRequest, contextOf, asking, JS.join.
  rewrite (map_ext _ (fun chunk =>
                        ("[" ++ citedName documents chunk "Document" ++ "]" ++ newline
                             ++ r_text chunk)%string)).
  - reflexivity.
  - intros chunk. now rewrite nameOr_citedName.
Qed.

Lemma sources_cite (documents : list Document) (chunks : list RetrievalResult) :
  Forall2 (cites documents) chunks (map (sourceOf documents) chunks).
Proof.
  induction chunks as [|chunk rest IH]; cbn [map]; constructor; [|exact IH].
  unfold cites, sourceOf. cbn [source_text source_score source_documentName].
  rewrite nameOr_citedName. repeat split; reflexivity.
Qed.

(** A model that cannot be reached does not fail the request of the
    controller.  The question [q] of the request is not blank, documents
    are stored and processed, the retrieval finds the chunks [found], not
    none, the store answers [documents] for the documents that they name,
    and the completion, asked [q] over the chunks handed to the model,
    throws.  Then the response is the normal one: the question, the
    answer 'Based on your documents:' followed by the numbered excerpts of
    the chunks handed to the model, a source citing each of these chunks,
    and the number of chunks found; the retrieval and the completion are
    the only calls in the trace. *)
Theorem aiController_answers_without_the_model :
  forall (req : Request) (q : string) (w w1 w2 w3 w4 w5 : W) (docCount processedDocs : Z)
         (found : list RetrievalResult) (t3 : list event) (documents : list Document)
         (e : string),
    question req = Some q ->
    JS.blank q = false ->
    countDocuments st w = (Ok docCount, w1) ->
    docCount <> 0 ->
    countProcessed st w1 = (Ok processedDocs, w2) ->
    processedDocs <> 0 ->
    RAGService.queryDocuments svc q (documentId req) 3 w2 = (Ok found, w3, t3) ->
    found <> [] ->
    findByIds st (documentsToRead found) w3 = (Ok documents, w4) ->
    chatCompletion db (modelRequest (asking documents (handedToModel found) q)) w4
    = (Throw e, w5) ->
    exists (sources : list Source) (searched : list Searched),
      queryDocuments svc db st req w
      = (Ok (Answered q
               ("Based on your documents:" ++ newline ++ newline
                  ++ numbered 1 (handedToModel found))%string
               sources (List.length found) searched),
         w5,
         t3 ++ [EvChatCompletion (modelRequest (asking documents (handedToModel found) q))
                                 (Throw e)]) /\
      Forall2 (cites documents) (handedToModel found) sources.
Proof.
  intros req q w w1 w2 w3 w4 w5 docCount processedDocs found t3 documents e
         Hq Hblank Hcount HdocCount Hprocessed HprocessedDocs Hquery Hfound Hread Hchat.
  assert (Hlen : (List.length found <= 3)%nat).
  { pose proof (queryDocuments_at_most_topK q (documentId req) 3 ltac:(lia) w2 found) as H.
    rewrite Hquery in H. specialize (H eq_refl). lia. }
  destruct (topChunksOf_handedToModel found Hlen) as [Htop Hthree].
  exists (map (sourceOf documents) (handedToModel found)),
         (documentsSearchedOf documents (chunksByDocument found)).
  split; [|apply sources_cite].
  unfold queryDocuments, try_catch. rewrite Hq, Hblank.
  rewrite (bind_quiet_ok _ _ _ _ _ Hcount).
  apply Z.eqb_neq in HdocCount. rewrite HdocCount.
  rewrite (bind_quiet_ok _ _ _ _ _ Hprocessed).
  apply Z.eqb_neq in HprocessedDocs. rewrite HprocessedDocs.
  unfold bind at 1. rewrite Hquery.
  destruct found as [|chunk chunks]; [contradiction|].
  cbv zeta. rewrite chunksByDocument_keys.
  rewrite (bind_quiet_ok _ _ _ _ _ Hread).
  rewrite Htop. unfold generate, try_catch, bind at 1. cbv zeta.
  rewrite completionRequest_asking.
  rewrite (bind_call_throw _ _ _ _ _ _ Hchat).
  unfold ret, fallbackAnswer. cbn [app]. rewrite ?app_nil_r.
  rewrite Hthree, excerpts_numbered. reflexivity.
Qed.
End Controller.

Lemma aiController_few_sources_witness :
  exists response,
    result (AiController.queryDocuments (Memory.services 384 threeDimensions)
              (Memory.backend [storedDocument]) oneDocument askAboutDoc1 [doc1_chunk_0])
    = Ok response /\
    fewSources response.
Proof.
  eexists. split; [vm_compute; reflexivity|].
  apply (aiController_few_sources (Memory.services 384 threeDimensions)
           (Memory.backend [storedDocument]) oneDocument askAboutDoc1 [doc1_chunk_0]).
  vm_compute. reflexivity.
Defined.

(** The three best of the five records are found and handed to the model,
    which is down. *)
Lemma aiController_answers_without_the_model_witness :
  exists (sources : list AiController.Source) (searched : list AiController.Searched),
    result (AiController.queryDocuments (Memory.services 384 threeDimensions)
              modelIsDown oneDocument askAboutDoc1 fiveRecords)
    = Ok (AiController.Answered "what?"
            ("Based on your documents:" ++ newline ++ newline
               ++ "1. gamma..." ++ newline ++ newline
               ++ "2. epsilon..." ++ newline ++ newline
               ++ "3. beta..." ++ newline ++ newline)%string
            sources 3 searched) /\
    map AiController.source_documentName sources
    = ["notes.txt"; "notes.txt"; "notes.txt"]%string.
Proof.
  edestruct (aiController_answers_without_the_model
               (Memory.services 384 threeDimensions) modelIsDown oneDocument askAboutDoc1
               "what?" fiveRecords fiveRecords fiveRecords fiveRecords fiveRecords fiveRecords
               1 1)
    as [sources [searched [Hrun Hcites]]].
  - reflexivity.
  - reflexivity.
  - reflexivity.
  - discriminate.
  - reflexivity.
  - discriminate.
  - vm_compute. reflexivity.
  - discriminate.
  - reflexivity.
  - reflexivity.
  - exists sources, searched. rewrite Hrun. split; [reflexivity|].
    vm_compute in Hrun. injection Hrun as <- _. reflexivity.
Defined.

(** ** The CSV export *)

Section Csv.
Import ExportRoute.

Lemma occurrences_append (c : ascii) (a b : string) :
  occurrences c (a ++ b) = (occurrences c a + occurrences c b)%nat.
Proof.
  induction a as [|x a IH]; cbn [append occurrences]; [reflexivity|].
  destruct (Ascii.eqb x c); rewrite IH; reflexivity.
Qed.

Lemma replaceAll_removes (c : ascii) (replacement s : string) :
  occurrences c replacement = 0%nat ->
  occurrences c (replaceAll c replacement s) = 0%nat.
Proof.
  intros Hr. induction s as [|x s IH]; cbn [replaceAll occurrences]; [reflexivity|].
  destruct (Ascii.eqb x c) eqn:E.
  - rewrite occurrences_append, Hr, IH. reflexivity.
  - cbn [occurrences]. rewrite E. exact IH.
Qed.

Lemma unquoted_other (a : ascii) (s : string) :
  Ascii.eqb a quote = false -> unquoted (String a s) = String a (unquoted s).
Proof.
  intros Ha. destruct s as [|b s]; cbn [unquoted]; [reflexivity|].
  rewrite Ha. reflexivity.
Qed.

Lemma csvContent_unquoted (s : string) :
  unquoted (csvContent (Some s)) = replaceAll lineFeed (String space EmptyString) s.
Proof.
  unfold csvContent. induction s as [|x s IH]; [reflexivity|].
  cbn [replaceAll].
  destruct (Ascii.eqb x quote) eqn:Hq.
  - apply Ascii.eqb_eq in Hq. subst x.
    change (Ascii.eqb quote lineFeed) with false. cbn [append replaceAll].
    change (Ascii.eqb quote lineFeed) with false. cbn [unquoted].
    change (Ascii.eqb quote quote) with true. cbn [andb]. now rewrite IH.
  - cbn [replaceAll]. destruct (Ascii.eqb x lineFeed) eqn:Hl.
    + cbn [append]. rewrite unquoted_other by reflexivity. now rewrite IH.
    + rewrite unquoted_other by exact Hq. now rewrite IH.
Qed.

(** A message makes exactly one line of the CSV export, whatever its
    content: with a role and a timestamp that hold no line feed, the line
    of the message holds one line feed, its last character's.  The content
    column can be read back: undoing the doubling of the quotes gives the
    content with each line feed replaced by a space. *)
Theorem csvLine_one_line_per_message :
  forall (role timestamp : string) (content : option string),
    occurrences lineFeed role = 0%nat ->
    occurrences lineFeed timestamp = 0%nat ->
    occurrences lineFeed (csvLine role content timestamp) = 1%nat /\
    unquoted (csvContent content)
    = replaceAll lineFeed (String space EmptyString)
                 (match content with Some c => c | None => EmptyString end).
Proof.
  intros role timestamp content Hrole Htime. split.
  - assert (Hcontent : occurrences lineFeed (csvContent content) = 0%nat)
      by (unfold csvContent; apply replaceAll_removes; reflexivity).
    unfold csvLine. rewrite !occurrences_append.
    change (occurrences lineFeed (String quote role)) with (occurrences lineFeed role).
    change (occurrences lineFeed
              (String quote (String "," (String quote (csvContent content)))))
      with (occurrences lineFeed (csvContent content)).
    change (occurrences lineFeed (String quote (String "," (String quote timestamp))))
      with (occurrences lineFeed timestamp).
    rewrite Hrole, Htime, Hcontent. reflexivity.
  - destruct content as [s|]; [apply csvContent_unquoted|reflexivity].
Qed.
End Csv.

Lemma csvLine_one_line_per_message_witness :
  occurrences ExportRoute.lineFeed
    (ExportRoute.csvLine "user"
       (Some (String ExportRoute.quote (String ExportRoute.lineFeed "what?")))
       "2024-01-01T00:00:00.000Z")
  = 1%nat /\
  unquoted (ExportRoute.csvContent
              (Some (String ExportRoute.quote (String ExportRoute.lineFeed "what?"))))
  = ExportRoute.replaceAll ExportRoute.lineFeed (String ExportRoute.space EmptyString)
      (String ExportRoute.quote (String ExportRoute.lineFeed "what?")).
Proof.
  apply (csvLine_one_line_per_message "user" "2024-01-01T00:00:00.000Z"
           (Some (String ExportRoute.quote (String ExportRoute.lineFeed "what?")))).
  - reflexivity.
  - reflexivity.
Defined.
